(** * Qalarab-api: the multi-database manager and the organization setup service

    A shallow embedding of

      - [src/lib/surrealdb-multi.ts]             (class [MultiDatabaseManager])
      - [src/services/database/setup.service.ts] (the setup service)

    with the properties of their specification, and of the code around
    them: [requireOrganizationSetup] of
    [src/middlewares/better-auth.middleware.ts], the response helpers of
    [src/lib/api-response.ts] that it uses,
    [src/middlewares/database.middleware.ts], [extractVersionFromAcceptHeader]
    of [src/lib/utils.ts] and [src/middlewares/api-version.middleware.ts].

    The model:
      - [Text]       the string primitives of JavaScript that the code uses,
                     [String.prototype.replace] with its replacement
                     patterns among them
      - [Js]         dynamically typed values ([any]), truthiness, spread
      - [Manager]    [getConnection] as the steps it takes between its
                     [await]s, over the cache, the in-flight registry and
                     the promises that callers share; [getStats]
      - [Lifecycle]  the manager with the two steps of [shutdown]
      - [Service]    the [async] functions as programs over the operations
                     they await, run against any environment
      - [Middleware] [requireOrganizationSetup]
      - [DatabaseMiddleware]
                     [databaseMiddleware] and its [getMainDB]
      - [Backed]     the environment in which the operations on connections
                     are the manager's own steps
      - [Regex], [Utils], [ApiVersion]
                     the pattern of the vendor media type, the version it
                     captures, and the middleware that validates it
      - [Script]     one concrete environment, for examples.

    The properties follow, by part of the model; the modules at the end
    hold their instances on concrete inputs. *)

From Stdlib Require Import ZArith Ascii DecimalString DecimalNat DecimalFacts.
From stdpp Require Import gmap strings list fin_maps.

Local Set Warnings "-register-all".

(* ===================================================================== *)
(** ** Strings *)
(* ===================================================================== *)

Module Text.

(** [s.slice(n)] *)
Fixpoint drop (n : nat) (s : string) : string :=
  match n, s with
  | O, _ => s
  | S n, String _ s => drop n s
  | S _, EmptyString => EmptyString
  end.

(** Whether [s] begins with [p]. *)
Fixpoint isPrefix (p s : string) : bool :=
  match p, s with
  | EmptyString, _ => true
  | String a p', String b s' => Ascii.eqb a b && isPrefix p' s'
  | String _ _, EmptyString => false
  end.

(** [s.startsWith(p)] *)
Definition startsWith (s p : string) : bool := isPrefix p s.

(** [s.includes(p)] *)
Fixpoint includes (s p : string) : bool :=
  isPrefix p s ||
  match s with
  | EmptyString => false
  | String _ s => includes s p
  end.

(** [s.endsWith(p)] *)
Fixpoint endsWith (s p : string) : bool :=
  if String.eqb s p then true
  else match s with
       | EmptyString => false
       | String _ s => endsWith s p
       end.

(** [s.replace(/^p/, r)] for a pattern [p] without metacharacters and a
    replacement [r] without a dollar sign: the code uses it with
    [r = ''], [r = 'http:'] and [r = 'https:']. *)
Definition replaceAnchored (p r s : string) : string :=
  if isPrefix p s then r +:+ drop (String.length p) s else s.

(** The replacement text of [String.prototype.replace] is not taken
    verbatim: ECMAScript's GetSubstitution expands, in a pattern without
    capture groups, [$$] to a dollar sign, [$&] to the matched text,
    [$`] to the text before the match and [$'] to the text after it;
    any other dollar sign stands for itself. *)
Fixpoint getSubstitution (matched before after rep : string) : string :=
  match rep with
  | EmptyString => EmptyString
  | String a tail =>
      if Ascii.eqb a "$" then
        match tail with
        | String c r =>
            if Ascii.eqb c "$" then String "$" (getSubstitution matched before after r)
            else if Ascii.eqb c "&" then matched +:+ getSubstitution matched before after r
            else if Ascii.eqb c "`" then before +:+ getSubstitution matched before after r
            else if Ascii.eqb c "'" then after +:+ getSubstitution matched before after r
            else String a (getSubstitution matched before after tail)
        | EmptyString => String a EmptyString
        end
      else String a (getSubstitution matched before after tail)
  end.

(** The scan of [s.replace(pattern, rep)] for a pattern [tok] without
    metacharacters. [before] is the text of the subject already passed,
    [skip] counts the characters of a match still to pass over, and
    [live] tells whether matches are still looked for: with the [g] flag
    always, without it until the first match. *)
Fixpoint replaceScan (global : bool) (tok rep : string)
    (before : string) (skip : nat) (live : bool) (s : string) : string :=
  match s with
  | EmptyString => EmptyString
  | String c s' =>
      match skip with
      | S n => replaceScan global tok rep (before +:+ String c "") n live s'
      | O =>
          if live && isPrefix tok s then
            getSubstitution tok before (drop (String.length tok) s) rep
              +:+ replaceScan global tok rep (before +:+ String c "")
                    (String.length tok - 1) global s'
          else String c (replaceScan global tok rep (before +:+ String c "") 0 live s')
      end
  end.

(** [s.replace(/tok/g, rep)], [tok] not empty. *)
Definition replaceAll (tok rep s : string) : string :=
  replaceScan true tok rep "" 0 true s.

(** [s.replace(tok, rep)] with a string pattern: the first match only. *)
Definition replaceFirst (tok rep s : string) : string :=
  replaceScan false tok rep "" 0 true s.

(** The replacement the specification describes, in its words: [tok]
    occurs in a text; the first occurrence is the one nothing precedes; and
    the text with every occurrence replaced by [d] has [d] at the first
    occurrence and the same again after it. *)
Definition occursIn (tok s : string) : Prop :=
  exists a b, s = a +:+ tok +:+ b.

Definition firstAt (tok a b : string) : Prop :=
  forall a' b', a +:+ tok +:+ b = a' +:+ tok +:+ b' ->
    String.length a <= String.length a'.

Inductive Substituted (tok d : string) : string -> string -> Prop :=
  | Substituted_none s :
      ~ occursIn tok s -> Substituted tok d s s
  | Substituted_first a b out :
      firstAt tok a b -> Substituted tok d b out ->
      Substituted tok d (a +:+ tok +:+ b) (a +:+ d +:+ out).

(** No dollar sign in [s]. *)
Fixpoint dollarFree (s : string) : bool :=
  match s with
  | EmptyString => true
  | String a s => negb (Ascii.eqb a "$") && dollarFree s
  end.

End Text.

(* ===================================================================== *)
(** ** JavaScript values *)
(* ===================================================================== *)

Module Js.

(** A value of type [any]. Numbers are the integers; an object is its own
    enumerable properties, whose order no function below observes. *)
Inductive JVal : Type :=
  | JUndefined
  | JNull
  | JBool (b : bool)
  | JNum (z : Z)
  | JStr (s : string)
  | JArr (l : list JVal)
  | JObj (m : gmap string JVal).

(** What [throw] carries: an [Error] with its message, the error of a
    failed axios request with the fields the code prints, or any other
    value. *)
Inductive Exn : Type :=
  | JsError (message : string)
  | AxiosError (message : string) (status statusText data headers : JVal)
  | JsThrown (v : JVal).

(** ToBoolean *)
Definition truthy (v : JVal) : bool :=
  match v with
  | JUndefined | JNull => false
  | JBool b => b
  | JNum z => negb (Z.eqb z 0)
  | JStr s => negb (String.eqb s "")
  | JArr _ | JObj _ => true
  end.

(** [a || b] *)
Definition or (a b : JVal) : JVal := if truthy a then a else b.

(** [v === 'text'] *)
Definition isString (v : JVal) (text : string) : bool :=
  match v with
  | JStr s => String.eqb s text
  | _ => false
  end.

(** [v.name] for a name that is no index, not [length] and on no
    prototype: the names read below are [metadata], [setup],
    [setupStatus], [database] and [setupError]. Reading a property of
    [undefined] or [null] throws a TypeError. *)
Definition get (v : JVal) (name : string) : Exn + JVal :=
  match v with
  | JUndefined =>
      inl (JsError ("Cannot read properties of undefined (reading '" +:+ name +:+ "')"))
  | JNull =>
      inl (JsError ("Cannot read properties of null (reading '" +:+ name +:+ "')"))
  | JObj m => inr (default JUndefined (m !! name))
  | _ => inr JUndefined
  end.

(** [v?.name] *)
Definition optGet (v : JVal) (name : string) : JVal :=
  match v with
  | JObj m => default JUndefined (m !! name)
  | _ => JUndefined
  end.

(** The property name of index [i]. *)
Definition indexName (i : nat) : string :=
  NilZero.string_of_uint (Nat.to_uint i).

(** A string of the model is the UTF-8 text of the program's string, byte
    by byte, while JavaScript indexes and spreads a string by its UTF-16
    code units. [utf8Width] is the number of bytes of the character that
    starts with the byte [a]. *)
Definition utf8Width (a : ascii) : nat :=
  let n := N_of_ascii a in
  if (n <? 192)%N then 1
  else if (n <? 224)%N then 2
  else if (n <? 240)%N then 3
  else 4.

(** The code unit [u], from [0x0800] on, as the three bytes of its own
    text; a lone surrogate has no other. *)
Definition unitText (u : N) : string :=
  String (ascii_of_N (224 + N.shiftr u 12))
    (String (ascii_of_N (128 + N.land (N.shiftr u 6) 63))
       (String (ascii_of_N (128 + N.land u 63)) EmptyString)).

(** The two surrogates of the character whose four bytes are [a b c d]. *)
Definition surrogates (a b c d : ascii) : list string :=
  let point :=
    (N.shiftl (N.land (N_of_ascii a) 7) 18
     + N.shiftl (N.land (N_of_ascii b) 63) 12
     + N.shiftl (N.land (N_of_ascii c) 63) 6
     + N.land (N_of_ascii d) 63)%N in
  let v := (point - 65536)%N in
  [unitText (55296 + N.shiftr v 10); unitText (56320 + N.land v 1023)].

(** The code units of a string, each as a string of its own: a character
    of one to three bytes is one code unit, a character of four bytes is
    two. A byte that starts no whole character stands alone. *)
Fixpoint codeUnits (s : string) : list string :=
  match s with
  | EmptyString => []
  | String a s1 =>
      match utf8Width a, s1 with
      | 2, String b s2 => String a (String b EmptyString) :: codeUnits s2
      | 3, String b (String c s3) =>
          String a (String b (String c EmptyString)) :: codeUnits s3
      | 4, String b (String c (String d s4)) =>
          surrogates a b c d ++ codeUnits s4
      | _, _ => String a EmptyString :: codeUnits s1
      end
  end.

(** The characters of a string as [text[i]] and [{...text}] give them:
    its code units, as one-unit strings. *)
Definition chars (s : string) : list JVal := JStr <$> codeUnits s.

(** [v?.[0]] *)
Definition optFirst (v : JVal) : JVal :=
  match v with
  | JArr l => default JUndefined (head l)
  | JStr s => default JUndefined (head (chars s))
  | JObj m => default JUndefined (m !! "0")
  | _ => JUndefined
  end.

(** [v.length === 0] for a [v] that is not [undefined] or [null]. *)
Definition lengthIsZero (v : JVal) : bool :=
  match v with
  | JArr l => Nat.eqb (length l) 0
  | JStr s => Nat.eqb (String.length s) 0
  | JObj m => match m !! "length" with Some (JNum z) => Z.eqb z 0 | _ => false end
  | _ => false
  end.

(** The own enumerable properties that [{...v}] copies: those of an
    object, the elements of an array and the characters of a string under
    their indices, nothing of any other value. *)
Definition indexed (l : list JVal) : gmap string JVal :=
  list_to_map (imap (fun i x => (indexName i, x)) l).

Definition ownProps (v : JVal) : gmap string JVal :=
  match v with
  | JObj m => m
  | JArr l => indexed l
  | JStr s => indexed (chars s)
  | _ => ∅
  end.

(** [{...a, ...b}]: the properties of [b] win. *)
Definition spread2 (a b : gmap string JVal) : gmap string JVal := b ∪ a.

End Js.

(* ===================================================================== *)
(** ** The connection manager: [getConnection] under interleaving *)
(* ===================================================================== *)

(** JavaScript runs one task at a time: an [async] function runs without
    interruption up to its [await], and its continuation runs later, after
    the awaited promise has settled. [getConnection] has one [await], so a
    call is two atomic steps: the part up to [await connectionPromise]
    ([Call]) and, for the caller that created the promise, the part after
    it ([Resume]). Between the two the network answers ([Settle]). Any
    number of calls, for any keys, may come in between. *)

Module Manager.

Import Js.

(** A connection is the [Surreal] object that [createConnection] made:
    it is named by the number of the attempt that made it. *)
Abbreviation Conn := nat.

(** The promise that [createConnection] returned. *)
Inductive Promise : Type :=
  | Pending
  | Fulfilled
  | Rejected (e : Exn).

(** One run of [createConnection]: it calls [db.connect] once, when it
    starts. [resumed] tells whether the caller that awaits the promise has
    run its continuation. *)
Record Attempt : Type := mkAttempt {
  namespace : string;
  database : string;
  key : string;
  promise : Promise;
  resumed : bool
}.

(** What a call of [getConnection] returned: the cached connection, the
    promise found in [connecting], or the caller's own promise, which
    settles as the one it awaits. *)
Inductive Returned : Type :=
  | Hit (c : Conn)
  | Shared (p : nat)
  | Own (p : nat).

Record State : Type := mkState {
  connections : gmap string Conn;      (* this.connections *)
  connecting : gmap string nat;        (* this.connecting *)
  attempts : list Attempt;             (* the runs of createConnection *)
  returned : list (string * Returned)  (* the calls so far, oldest first *)
}.

Definition init : State := mkState ∅ ∅ [] [].

(** [`${namespace}:${database}`] *)
Definition keyOf (ns db : string) : string := ns +:+ ":" +:+ db.

Inductive Event : Type :=
  | Call (ns db : string)
  | Settle (p : nat) (r : option Exn)
  | Resume (p : nat).

(** [getConnection(ns, db)] up to its [await] or [return]. *)
Definition getConnection (ns db : string) (st : State) : State :=
  let k := keyOf ns db in
  match connections st !! k with
  | Some c =>
      mkState (connections st) (connecting st) (attempts st)
              (returned st ++ [(k, Hit c)])
  | None =>
      match connecting st !! k with
      | Some p =>
          mkState (connections st) (connecting st) (attempts st)
                  (returned st ++ [(k, Shared p)])
      | None =>
          let p := length (attempts st) in
          mkState (connections st)
                  (<[k := p]> (connecting st))
                  (attempts st ++ [mkAttempt ns db k Pending false])
                  (returned st ++ [(k, Own p)])
      end
  end.

(** The promise of attempt [p] settles: [None] for [return db], [Some e]
    for [throw error]. *)
Definition createConnectionSettled (p : nat) (r : option Exn) (st : State) : option State :=
  match attempts st !! p with
  | Some (mkAttempt ns db k Pending false) =>
      let pr := match r with None => Fulfilled | Some e => Rejected e end in
      Some (mkState (connections st) (connecting st)
                    (<[p := mkAttempt ns db k pr false]> (attempts st))
                    (returned st))
  | _ => None
  end.

(** [getConnection] after its [await]: the [try] branch when the promise
    is fulfilled, the [catch] branch when it is rejected. *)
Definition getConnectionResumed (p : nat) (st : State) : option State :=
  match attempts st !! p with
  | Some (mkAttempt ns db k Fulfilled false) =>
      Some (mkState (<[k := p]> (connections st))
                    (delete k (connecting st))
                    (<[p := mkAttempt ns db k Fulfilled true]> (attempts st))
                    (returned st))
  | Some (mkAttempt ns db k (Rejected e) false) =>
      Some (mkState (connections st)
                    (delete k (connecting st))
                    (<[p := mkAttempt ns db k (Rejected e) true]> (attempts st))
                    (returned st))
  | _ => None
  end.

Definition step (st : State) (ev : Event) : option State :=
  match ev with
  | Call ns db => Some (getConnection ns db st)
  | Settle p r => createConnectionSettled p r st
  | Resume p => getConnectionResumed p st
  end.

Fixpoint run (st : State) (tr : list Event) : option State :=
  match tr with
  | [] => Some st
  | ev :: tr =>
      match step st ev with
      | Some st' => run st' tr
      | None => None
      end
  end.

Definition reachable (st : State) : Prop :=
  exists tr, run init tr = Some st.

(** How many attempts satisfy [P]. *)
Fixpoint count (P : Attempt -> bool) (l : list Attempt) : nat :=
  match l with
  | [] => 0
  | a :: l => (if P a then 1 else 0) + count P l
  end.

Definition forKey (k : string) (a : Attempt) : bool :=
  bool_decide (key a = k).

(** The [db.connect] calls made for a key: one per attempt. *)
Definition connects (st : State) (k : string) : nat :=
  count (forKey k) (attempts st).

(** The attempts for a key still in progress: the caller that awaits the
    promise has not yet cleared the registry. *)
Definition inProgress (st : State) (k : string) : nat :=
  count (fun a => forKey k a && negb (resumed a)) (attempts st).

Definition isRejected (pr : Promise) : bool :=
  match pr with Rejected _ => true | _ => false end.

(** The attempts for a key that failed and were cleared. *)
Definition failed (st : State) (k : string) : nat :=
  count (fun a => forKey k a && resumed a && isRejected (promise a)) (attempts st).

Definition cached (st : State) (k : string) : nat :=
  match connections st !! k with Some _ => 1 | None => 0 end.

(** The attempt a returned promise stands for. *)
Definition source (r : Returned) : nat :=
  match r with Hit c => c | Shared p => p | Own p => p end.

(** What the caller gets, once it gets something. *)
Definition outcome (st : State) (r : Returned) : option (Exn + Conn) :=
  match r with
  | Hit c => Some (inr c)
  | Shared p =>
      match attempts st !! p with
      | Some (mkAttempt _ _ _ Fulfilled _) => Some (inr p)
      | Some (mkAttempt _ _ _ (Rejected e) _) => Some (inl e)
      | _ => None
      end
  | Own p =>
      match attempts st !! p with
      | Some (mkAttempt _ _ _ Fulfilled true) => Some (inr p)
      | Some (mkAttempt _ _ _ (Rejected e) true) => Some (inl e)
      | _ => None
      end
  end.

(** The attempts for a key that succeeded and were cached. *)
Definition succeededFor (k : string) (a : Attempt) : bool :=
  forKey k a && resumed a && negb (isRejected (promise a)).

(** What holds of the cache, the registry and the attempts in every state
    the manager reaches. *)
Record Inv (st : State) : Prop := mkInv {
  inv_connecting : forall (k : string) (p : nat),
    connecting st !! k = Some p <->
    exists a, attempts st !! p = Some a /\ key a = k /\ resumed a = false;
  inv_connections : forall (k : string) (p : nat),
    connections st !! k = Some p <->
    exists a, attempts st !! p = Some a /\ key a = k /\ resumed a = true
              /\ promise a = Fulfilled;
  inv_settled : forall p a,
    attempts st !! p = Some a -> resumed a = true -> promise a <> Pending;
  inv_exclusive : forall (k : string) (c : nat),
    connections st !! k = Some c -> connecting st !! k = None;
  inv_returned : forall k r,
    (k, r) ∈ returned st ->
    exists a, attempts st !! source r = Some a /\ key a = k
}.

(** Two callers arrive before the connection is there, a third after. *)
Definition threeCallers : list Event :=
  [Call "ns" "a"; Call "ns" "a";
   Settle 0 None; Resume 0; Call "ns" "a"].

Definition afterThreeCallers : State :=
  default init (run init threeCallers).

(** What [getStats()] returns. [databases] is
    [Array.from(this.connections.keys())]: the keys in the order of their
    insertion, which the model does not keep. *)
Record Stats : Type := mkStats {
  totalConnections : nat;
  databases : gset string;
  connectingNow : nat            (* the field [connecting] *)
}.

(** [MultiDatabaseManager.getStats] *)
Definition getStats (st : State) : Stats :=
  mkStats (size (connections st)) (dom (connections st)) (size (connecting st)).

(** Every attempt keeps the namespace and the database of the call that
    made it, under the key made of the two; the namespaces have no colon. *)
Definition wellKeyed (st : State) : Prop :=
  forall p a, attempts st !! p = Some a ->
    key a = keyOf (namespace a) (database a) /\
    Text.includes (namespace a) ":" = false.

(** The two sizes that [getStats] reports, by the attempts. *)
Definition accounted (st : State) : Prop :=
  size (connections st)
    = count (fun a => resumed a && negb (isRejected (promise a))) (attempts st) /\
  size (connecting st) = count (fun a => negb (resumed a)) (attempts st).

End Manager.

(* ===================================================================== *)
(** ** The connection manager with [shutdown] *)
(* ===================================================================== *)

(** [shutdown] has one [await] too: it calls [close()] on the connections
    that the cache holds ([ShutdownCall]) and, after all of them have
    settled, clears the cache and the registry ([ShutdownResume]). The
    steps of [getConnection] may come in between, and after. *)

Module Lifecycle.

Import Js.

(** The manager and the connections on which [close()] has been called;
    [closing] counts the calls of [shutdown] that await their
    [Promise.all]. *)
Record State : Type := mkState {
  manager : Manager.State;
  closed : gset Manager.Conn;
  closing : nat
}.

Definition init : State := mkState Manager.init ∅ 0.

Inductive Event : Type :=
  | Use (ev : Manager.Event)   (* a step of [getConnection] *)
  | ShutdownCall               (* [shutdown()] up to its [await] *)
  | ShutdownResume.            (* [shutdown()] after its [await] *)

(** [shutdown()] up to [await Promise.all(closePromises)]: [close()] is
    called on every connection that the cache holds now. *)
Definition shutdown (st : State) : State :=
  mkState (manager st)
          (closed st ∪ map_img (Manager.connections (manager st)))
          (S (closing st)).

(** [shutdown()] after its [await]: both maps are cleared. *)
Definition shutdownResumed (st : State) : option State :=
  match closing st with
  | O => None
  | S n =>
      Some (mkState (Manager.mkState ∅ ∅ (Manager.attempts (manager st))
                                     (Manager.returned (manager st)))
                    (closed st) n)
  end.

Definition step (st : State) (ev : Event) : option State :=
  match ev with
  | Use ev =>
      match Manager.step (manager st) ev with
      | Some m => Some (mkState m (closed st) (closing st))
      | None => None
      end
  | ShutdownCall => Some (shutdown st)
  | ShutdownResume => shutdownResumed st
  end.

Fixpoint run (st : State) (tr : list Event) : option State :=
  match tr with
  | [] => Some st
  | ev :: tr =>
      match step st ev with
      | Some st' => run st' tr
      | None => None
      end
  end.

(** What holds of the cache and the closed connections in every state:
    a cached connection that was closed is there only while a [shutdown]
    is in progress, and what was closed or is cached comes from an attempt
    whose caller has resumed. *)
Record Inv (st : State) : Prop := mkInv {
  inv_open : forall (k : string) (c : nat),
    Manager.connections (manager st) !! k = Some c -> c ∈ closed st ->
    0 < closing st;
  inv_closed : forall c : nat,
    c ∈ closed st ->
    exists a, Manager.attempts (manager st) !! c = Some a /\ Manager.resumed a = true;
  inv_cached : forall (k : string) (c : nat),
    Manager.connections (manager st) !! k = Some c ->
    exists a, Manager.attempts (manager st) !! c = Some a /\ Manager.resumed a = true
}.

(** A connection is made, the manager is shut down, and a connection is
    made again. *)
Definition connectedThenShutDown : list Event :=
  [Use (Manager.Call "ns" "a"); Use (Manager.Settle 0 None); Use (Manager.Resume 0);
   ShutdownCall; ShutdownResume;
   Use (Manager.Call "ns" "a"); Use (Manager.Settle 1 None); Use (Manager.Resume 1)].

(** [shutdown] is called while an attempt that has succeeded awaits its
    caller. *)
Definition shutDownWhileConnecting : list Event :=
  [Use (Manager.Call "ns" "a"); Use (Manager.Settle 0 None); ShutdownCall].

End Lifecycle.

(* ===================================================================== *)
(** ** The [async] functions as programs *)
(* ===================================================================== *)

Module Service.

Import Js.

(** The variables of [src/env.ts] that the two files read. *)
Record Env : Type := mkEnv {
  DATABASE_URL : string;
  DATABASE_AUTH_TOKEN : string;
  DATABASE_USERNAME : string;
  DATABASE_PASSWORD : string;
  MAIN_NS : string;
  MAIN_DB : string;
  ORG_NS : string
}.

(** What the code takes from the platform: the environment variables,
    [JSON.stringify], [Buffer.from(s).toString('base64')] and
    [join(process.cwd(), file)]. *)
Class Runtime : Type := {
  env : Env;
  JSON_stringify : JVal -> string;
  base64 : string -> string;
  inCwd : string -> string
}.

(** An argument of a query: a value, or [new StringRecordId(id)]. *)
Inductive Param : Type :=
  | PValue (v : JVal)
  | PRecordId (id : string).

(** The operations that the functions [await]. *)
Inductive Op : Type :=
  | GetConnection (ns db : string)   (* dbManager.getConnection(ns, db) *)
  | Query (c : Manager.Conn) (sql : string) (params : list (string * Param))
  | ReadFile (path : string)         (* readFile(path, 'utf-8') *)
  | HttpPost (url body : string) (headers : list (string * string)).

(** What each gives when it does not throw; [HttpPost] gives
    [response.data], [Query] the array of the statements' results. *)
Definition resp (o : Op) : Type :=
  match o with
  | GetConnection _ _ => Manager.Conn
  | Query _ _ _ => list JVal
  | ReadFile _ => string
  | HttpPost _ _ _ => JVal
  end.

Inductive Level : Type := Log | Error.

Inductive LogArg : Type :=
  | Txt (s : string)
  | Val (v : JVal)
  | Err (e : Exn).

(** A program: it returns, throws, awaits an operation, writes to the
    console, or asks the manager whether [this.connections.has(key)]. *)
Inductive Prog (A : Type) : Type :=
  | Ret (a : A)
  | Throw (e : Exn)
  | Await (o : Op) (k : Exn + resp o -> Prog A)
  | Console (lvl : Level) (args : list LogArg) (k : Prog A)
  | Cached (key : string) (k : bool -> Prog A).

Arguments Ret {A} a.
Arguments Throw {A} e.
Arguments Await {A} o k.
Arguments Console {A} lvl args k.
Arguments Cached {A} key k.

Fixpoint bind {A B : Type} (p : Prog A) (f : A -> Prog B) : Prog B :=
  match p with
  | Ret a => f a
  | Throw e => Throw e
  | Await o k => Await o (fun r => bind (k r) f)
  | Console lvl args k => Console lvl args (bind k f)
  | Cached key k => Cached key (fun b => bind (k b) f)
  end.

(** [try { p } catch (error) { h error }] *)
Fixpoint tryCatch {A : Type} (p : Prog A) (h : Exn -> Prog A) : Prog A :=
  match p with
  | Ret a => Ret a
  | Throw e => h e
  | Await o k => Await o (fun r => tryCatch (k r) h)
  | Console lvl args k => Console lvl args (tryCatch k h)
  | Cached key k => Cached key (fun b => tryCatch (k b) h)
  end.

#[export] Instance prog_ret : MRet Prog := @Ret.
#[export] Instance prog_bind : MBind Prog := fun A B f p => bind p f.

(** [await op]: the value, or the exception thrown on. *)
Definition await (o : Op) : Prog (resp o) :=
  Await o (fun r => match r with inl e => Throw e | inr v => Ret v end).

Definition say (lvl : Level) (args : list LogArg) : Prog unit :=
  Console lvl args (Ret tt).

(** What a run leaves behind, in order. *)
Inductive Obs : Type :=
  | Did (o : Op)
  | Said (lvl : Level) (args : list LogArg).

(** The world outside: it answers every operation, and holds the
    manager's cache, which other requests change between two operations. *)
Class Environment : Type := {
  World : Type;
  handle : World -> forall o : Op, (Exn + resp o) * World;
  cacheHas : World -> string -> bool
}.

Fixpoint run {EN : Environment} {A : Type} (p : Prog A) (w : World)
    : (Exn + A) * World * list Obs :=
  match p with
  | Ret a => (inr a, w, [])
  | Throw e => (inl e, w, [])
  | Await o k =>
      let '(r, w1) := handle w o in
      let '(res, w2, t) := run (k r) w1 in
      (res, w2, Did o :: t)
  | Console lvl args k =>
      let '(res, w1, t) := run k w in
      (res, w1, Said lvl args :: t)
  | Cached key k => run (k (cacheHas w key)) w
  end.

Definition result {EN : Environment} {A : Type} (p : Prog A) (w : World) : Exn + A :=
  (run p w).1.1.

Definition trace {EN : Environment} {A : Type} (p : Prog A) (w : World) : list Obs :=
  (run p w).2.

(** An operation that may reach the network: every one but reading the
    schema file. *)
Definition isNetwork (o : Obs) : bool :=
  match o with
  | Did (GetConnection _ _) | Did (Query _ _ _) | Did (HttpPost _ _ _) => true
  | _ => false
  end.

(** The administrative call that executes a schema. *)
Definition isSchemaExecution (o : Obs) : bool :=
  match o with
  | Did (HttpPost _ _ _) => true
  | _ => false
  end.

Section Functions.

Context {RT : Runtime}.

(** **** [src/lib/surrealdb-multi.ts] *)

(** [getMainDB] *)
Definition getMainDB : Prog Manager.Conn :=
  await (GetConnection (MAIN_NS env) (MAIN_DB env)).

(** [MultiDatabaseManager.getOrganizationDatabase] *)
Definition getOrganizationDatabase (orgId : string) : Prog Manager.Conn :=
  let database := "org_" +:+ orgId in
  await (GetConnection (ORG_NS env) database).

(** The address of the HTTP endpoint, from [env.DATABASE_URL]. *)
Definition httpUrl : string :=
  let dbUrl :=
    Text.replaceAnchored "wss:" "https:"
      (Text.replaceAnchored "ws:" "http:" (DATABASE_URL env)) in
  if Text.endsWith dbUrl "/rpc"
  then Text.replaceFirst "/rpc" "/sql" dbUrl
  else dbUrl +:+ "/sql".

(** The script sent for a database: the schema file's text after
    [schemaContent.replace(/__DATABASE_NAME__/g, database)]. *)
Definition schemaScript (database schemaContent : string) : string :=
  Text.replaceAll "__DATABASE_NAME__" database schemaContent.

Definition schemaHeaders (database : string) : list (string * string) :=
  let authCredentials := DATABASE_USERNAME env +:+ ":" +:+ DATABASE_PASSWORD env in
  let basicAuth := base64 authCredentials in
  [("Content-Type", "application/octet-stream");
   ("Accept", "application/json");
   ("Authorization", "Basic " +:+ basicAuth);
   ("Surreal-NS", "needexcel_organization");
   ("Surreal-DB", database)].

(** [MultiDatabaseManager.createOrganizationDatabase] *)
Definition createOrganizationDatabase (orgId orgType : string) : Prog JVal :=
  let database := "org_" +:+ orgId in
  let schemaFile :=
    if String.eqb orgType "retail" then "schema-retail.surql"
    else "schema-restaurant.surql" in
  tryCatch
    (_ ← say Log [Txt ("⚙️  Creating database via HTTP API: needexcel_organization:"
                        +:+ database)];
     let schemaPath := inCwd schemaFile in
     schemaContent ← await (ReadFile schemaPath);
     let schemaContent := schemaScript database schemaContent in
     response_data ← await (HttpPost httpUrl schemaContent (schemaHeaders database));
     _ ← say Log [Val response_data];
     Ret response_data)
    (fun error =>
       _ ← match error with
           | AxiosError _ status statusText data headers =>
               _ ← say Error [Txt "❌ Axios error details:"];
               _ ← say Error [Txt "  Status:"; Val status];
               _ ← say Error [Txt "  Status Text:"; Val statusText];
               _ ← say Error [Txt "  Response data:"; Val data];
               say Error [Txt "  Request headers:"; Val headers]
           | _ => Ret tt
           end;
       _ ← say Error [Txt ("✗ Failed to create organization database for "
                           +:+ orgId +:+ ": 33"); Err error];
       Throw error).

(** [MultiDatabaseManager.checkOrganizationDatabaseExists]. The query
    gives an array, which is truthy: [result && result.length > 0] is
    whether it has an element. *)
Definition checkOrganizationDatabaseExists (orgId : string) : Prog bool :=
  let database := "org_" +:+ orgId in
  let key := "needexcel_organization:" +:+ database in
  Cached key (fun has =>
    if has then Ret true
    else
      tryCatch
        (db ← await (GetConnection "needexcel_organization" database);
         result ← await (Query db "INFO FOR DB;" []);
         Ret (negb (Nat.eqb (length result) 0)))
        (fun error =>
           _ ← say Error [Txt ("Error checking database existence for "
                               +:+ orgId +:+ ":"); Err error];
           Ret false)).

(** [MultiDatabaseManager.runSchemaFile]: [db.query(schemaContent)] has
    no variables. *)
Definition runSchemaFile (db : Manager.Conn) (schemaFileName databaseName : string)
    : Prog unit :=
  tryCatch
    (let schemaPath := inCwd schemaFileName in
     schemaContent ← await (ReadFile schemaPath);
     let schemaContent := schemaScript databaseName schemaContent in
     _ ← await (Query db schemaContent []);
     _ ← say Log [Txt ("✓ Applied schema: " +:+ schemaFileName
                        +:+ " for database: " +:+ databaseName)];
     Ret tt)
    (fun error =>
       _ ← say Error [Txt ("✗ Failed to apply schema " +:+ schemaFileName +:+ ":");
                      Err error];
       Throw error).

(** **** [src/services/database/setup.service.ts] *)

Record SetupResult : Type := mkSetupResult {
  success : bool;
  database : string;
  organizationType : string;
  error : option string;
  timestamp : string
}.

(** [error instanceof Error ? error.message : 'Unknown error'] *)
Definition errorMessage (e : Exn) : string :=
  match e with
  | JsError m => m
  | AxiosError m _ _ _ _ => m
  | JsThrown _ => "Unknown error"
  end.

(** [organizationId.replace(/^organization:/, '')] *)
Definition cleanOrgId (organizationId : string) : string :=
  Text.replaceAnchored "organization:" "" organizationId.

(** The object that [updateOrganizationMetadata] builds:
    [{...currentMetadata, setup: {...(currentMetadata.setup || {}), ...metadata}}].
    [currentMetadata] is truthy there, so reading its property does not
    throw. *)
Definition updatedMetadata (currentMetadata : JVal) (metadata : gmap string JVal) : JVal :=
  JObj (<["setup" :=
            JObj (spread2 (ownProps (or (optGet currentMetadata "setup") (JObj ∅)))
                          metadata)]>
          (ownProps currentMetadata)).

(** [orgRecord?.metadata || {}] for [orgRecord = orgResult?.[0]?.[0]] *)
Definition currentMetadataOf (orgResult : list JVal) : JVal :=
  let orgRecord := optFirst (default JUndefined (head orgResult)) in
  or (optGet orgRecord "metadata") (JObj ∅).

Definition recordIdOf (organizationId : string) : string :=
  if Text.startsWith organizationId "organization:"
  then organizationId
  else "organization:" +:+ organizationId.

(** [updateOrganizationMetadata] *)
Definition updateOrganizationMetadata
    (organizationId : string) (metadata : gmap string JVal) : Prog unit :=
  tryCatch
    (authDb ← getMainDB;
     let id := recordIdOf organizationId in
     _ ← say Log [Txt id];
     orgResult ← await (Query authDb "SELECT metadata FROM $orgId"
                              [("orgId", PRecordId id)]);
     _ ← say Log [Val (JObj {[ "orgResult" := JArr orgResult ]})];
     let currentMetadata := currentMetadataOf orgResult in
     _ ← say Log [Val currentMetadata];
     let updated := updatedMetadata currentMetadata metadata in
     _ ← await (Query authDb "UPDATE $orgId SET metadata = $metadata"
                      [("orgId", PRecordId id);
                       ("metadata", PValue (JStr (JSON_stringify updated)))]);
     _ ← say Log [Txt ("✓ Updated organization metadata for: " +:+ organizationId)];
     Ret tt)
    (fun error =>
       _ ← say Error [Txt "✗ Failed to update organization metadata:"; Err error];
       Throw error).

(** The two objects that [setupOrganizationDatabase] records. *)
Definition completedPatch (organizationId organizationType timestamp : string)
    : gmap string JVal :=
  {[ "database" := JStr ("org_" +:+ cleanOrgId organizationId);
     "setupStatus" := JStr "completed";
     "setupTimestamp" := JStr timestamp;
     "organizationType" := JStr organizationType ]}.

Definition failedPatch (errorMessage timestamp : string) : gmap string JVal :=
  {[ "setupStatus" := JStr "failed";
     "setupError" := JStr errorMessage;
     "setupTimestamp" := JStr timestamp ]}.

Definition invalidTypeMessage (organizationType : string) : string :=
  "Invalid organization type: " +:+ organizationType
    +:+ ". Must be 'retail' or 'restaurant'".

Definition validType (organizationType : string) : bool :=
  String.eqb organizationType "retail" || String.eqb organizationType "restaurant".

(** [setupOrganizationDatabase]; [timestamp] is
    [new Date().toISOString()], read once when the function starts. *)
Definition setupOrganizationDatabase
    (timestamp organizationId organizationType : string) : Prog SetupResult :=
  tryCatch
    (let cleanOrgId := cleanOrgId organizationId in
     _ ← say Log [Txt ("⚙️  Setting up database for organization: " +:+ cleanOrgId
                        +:+ " (type: " +:+ organizationType +:+ ")")];
     _ ← (if negb (validType organizationType)
          then Throw (JsError (invalidTypeMessage organizationType))
          else Ret tt);
     _ ← createOrganizationDatabase cleanOrgId organizationType;
     _ ← say Log [Val (JObj {[ "organizationId" := JStr organizationId;
                               "b" := JObj (completedPatch organizationId
                                              organizationType timestamp) ]})];
     _ ← updateOrganizationMetadata organizationId
           (completedPatch organizationId organizationType timestamp);
     _ ← say Log [Txt ("✓ Successfully set up database for organization: "
                        +:+ cleanOrgId)];
     Ret (mkSetupResult true ("org_" +:+ cleanOrgId) organizationType None timestamp))
    (fun error =>
       let errorMessage := errorMessage error in
       let cleanOrgId := cleanOrgId organizationId in
       _ ← say Error [Txt ("✗ Failed to setup database for organization "
                           +:+ cleanOrgId +:+ ":"); Err error];
       _ ← tryCatch
             (_ ← say Log [Val (JObj {[ "organizationId" := JStr organizationId;
                                       "a" := JObj (failedPatch errorMessage timestamp) ]})];
              updateOrganizationMetadata organizationId
                (failedPatch errorMessage timestamp))
             (fun metadataError =>
                say Error [Txt "Failed to update organization metadata:";
                           Err metadataError]);
       Ret (mkSetupResult false ("org_" +:+ cleanOrgId) organizationType
                          (Some errorMessage) timestamp)).

(** The result of [checkOrganizationSetup]; an absent field is
    [undefined]. *)
Record CheckResult : Type := mkCheckResult {
  isSetup : bool;
  checkedDatabase : JVal;
  status : JVal;
  checkError : JVal;
  metadata : JVal
}.

Definition fullOrgId (organizationId : string) : string :=
  if Text.includes organizationId ":"
  then organizationId
  else "organization:" +:+ organizationId.

(** Lifts a property read that may throw. *)
Definition reading (r : Exn + JVal) : Prog JVal :=
  match r with inl e => Throw e | inr v => Ret v end.

(** [checkOrganizationSetup] *)
Definition checkOrganizationSetup (organizationId : string) : Prog CheckResult :=
  tryCatch
    (let cleanOrgId := cleanOrgId organizationId in
     authDb ← getMainDB;
     let fullOrgId := fullOrgId organizationId in
     orgResult ← await (Query authDb "SELECT id, metadata FROM $orgId"
                              [("orgId", PRecordId fullOrgId)]);
     let orgRecords := default JUndefined (head orgResult) in
     if negb (truthy orgRecords) || lengthIsZero orgRecords then
       Ret (mkCheckResult false (JStr ("org_" +:+ cleanOrgId)) (JStr "pending")
                          (JStr "Organization not found") JUndefined)
     else
       let org := optFirst orgRecords in
       org_metadata ← reading (get org "metadata");
       let setupMetadata := optGet org_metadata "setup" in
       dbExists ← checkOrganizationDatabaseExists cleanOrgId;
       if negb dbExists then
         Ret (mkCheckResult false (JStr ("org_" +:+ cleanOrgId)) (JStr "pending")
                            (JStr "Database does not exist") JUndefined)
       else if truthy setupMetadata then
         Ret (mkCheckResult
                (isString (optGet setupMetadata "setupStatus") "completed")
                (or (optGet setupMetadata "database") (JStr ("org_" +:+ cleanOrgId)))
                (or (optGet setupMetadata "setupStatus") (JStr "pending"))
                (optGet setupMetadata "setupError")
                setupMetadata)
       else
         Ret (mkCheckResult true (JStr ("org_" +:+ cleanOrgId)) (JStr "completed")
                            JUndefined JUndefined))
    (fun error =>
       let cleanOrgId := cleanOrgId organizationId in
       _ ← say Error [Txt "Error checking organization setup:"; Err error];
       Ret (mkCheckResult false (JStr ("org_" +:+ cleanOrgId)) (JStr "failed")
                          (JStr (errorMessage error)) JUndefined)).

(** [getOrganizationType]: the type is whatever truthy value is found,
    [null] otherwise. [organizationType] is on no prototype either, so
    [Js.get] and [Js.optGet] read it. *)
Definition getOrganizationType (organizationId : string) : Prog JVal :=
  tryCatch
    (authDb ← getMainDB;
     let fullOrgId := fullOrgId organizationId in
     orgResult ← await (Query authDb
                          "SELECT metadata, organizationType FROM organization WHERE id = $orgId"
                          [("orgId", PRecordId fullOrgId)]);
     let orgRecords := default JUndefined (head orgResult) in
     if negb (truthy orgRecords) || lengthIsZero orgRecords then Ret JNull
     else
       let org := optFirst orgRecords in
       org_organizationType ← reading (get org "organizationType");
       if truthy org_organizationType then Ret org_organizationType
       else
         org_metadata ← reading (get org "metadata");
         if truthy (optGet org_metadata "organizationType")
         then Ret (optGet org_metadata "organizationType")
         else if truthy (optGet (optGet org_metadata "setup") "organizationType")
         then Ret (optGet (optGet org_metadata "setup") "organizationType")
         else Ret JNull)
    (fun error =>
       _ ← say Error [Txt "Error getting organization type:"; Err error];
       Ret JNull).

End Functions.

Section Observations.

Context {RT : Runtime} {EN : Environment}.

(** The three operations of [updateOrganizationMetadata]. *)
Definition selectMetadata (authDb : Manager.Conn) (organizationId : string) : Op :=
  Query authDb "SELECT metadata FROM $orgId"
        [("orgId", PRecordId (recordIdOf organizationId))].

Definition writeMetadata (authDb : Manager.Conn) (organizationId : string)
    (text : string) : Op :=
  Query authDb "UPDATE $orgId SET metadata = $metadata"
        [("orgId", PRecordId (recordIdOf organizationId));
         ("metadata", PValue (JStr text))].

Definition isDid (o : Obs) : bool :=
  match o with Did _ => true | Said _ _ => false end.

(** The operations of a trace, without the console. *)
Definition operations (t : list Obs) : list Obs :=
  filter (fun o => isDid o = true) t.

(** The result of a failed [setupOrganizationDatabase]. *)
Definition failure (timestamp organizationId organizationType message : string)
    : SetupResult :=
  mkSetupResult false ("org_" +:+ cleanOrgId organizationId) organizationType
                (Some message) timestamp.

(** What the [catch] block of [setupOrganizationDatabase] leaves in the
    trace after the error [e], when recording the failure ends as [r] with
    the trace [t]. *)
Definition catchTrace (timestamp organizationId : string) (e : Exn)
    (r : Exn + unit) (t : list Obs) : list Obs :=
  Said Error [Txt ("✗ Failed to setup database for organization "
                   +:+ cleanOrgId organizationId +:+ ":"); Err e]
  :: Said Log [Val (JObj {[ "organizationId" := JStr organizationId;
                            "a" := JObj (failedPatch (errorMessage e) timestamp) ]})]
  :: t ++ match r with
          | inl e' => [Said Error [Txt "Failed to update organization metadata:"; Err e']]
          | inr _ => []
          end.

(** The start of every trace of [setupOrganizationDatabase]. *)
Definition setupBanner (organizationId organizationType : string) : Obs :=
  Said Log [Txt ("⚙️  Setting up database for organization: "
                 +:+ cleanOrgId organizationId
                 +:+ " (type: " +:+ organizationType +:+ ")")].

(** A run of [setupOrganizationDatabase] whose [try] block throws [e] in
    the world [w1]: the failure is recorded from [w1], and the result is
    the failure with the message of [e], however the recording ends. *)
Definition caught (timestamp organizationId organizationType : string)
    (e : Exn) (w1 : World) (before : list Obs)
    : (Exn + SetupResult) * World * list Obs :=
  let '(r, w2, t2) :=
    run (updateOrganizationMetadata organizationId
           (failedPatch (errorMessage e) timestamp)) w1 in
  (inr (failure timestamp organizationId organizationType (errorMessage e)),
   w2, before ++ catchTrace timestamp organizationId e r t2).

End Observations.

End Service.

(* ===================================================================== *)
(** ** The middleware that requires a set-up organization *)
(* ===================================================================== *)

(** [requireOrganizationSetup] of [src/middlewares/better-auth.middleware.ts]
    and the helpers of [src/lib/api-response.ts] it answers with. A
    middleware is given the context and [next], the rest of the chain; it
    returns a response, or nothing after [next] has run. *)

Module Middleware.

Import Js Service.

(** What [c.json(body, status)] makes. *)
Record Response : Type := mkResponse {
  code : nat;
  json : JVal
}.

(** What the middleware reads of the context, [c.get('session')] and
    [c.get('requestId')], and what [generateMeta] takes from the platform:
    [new Date().toISOString()] and [generateRequestId()]. *)
Record Context : Type := mkContext {
  session : JVal;
  requestId : JVal;
  now : string;
  generatedRequestId : string
}.

(** [ApiResponseHelper.generateMeta(c.get('requestId'))] *)
Definition generateMeta (c : Context) : JVal :=
  JObj {[ "timestamp" := JStr (now c);
          "requestId" := or (requestId c) (JStr (generatedRequestId c)) ]}.

(** [ApiResponseHelper.error] *)
Definition error (c : Context) (errorCode message : string) (status : nat)
    (details : JVal) : Response :=
  mkResponse status
    (JObj {[ "success" := JBool false;
             "error" := JObj {[ "code" := JStr errorCode;
                                "message" := JStr message;
                                "details" := details ]};
             "meta" := generateMeta c ]}).

(** [ApiResponseHelper.forbidden]: [ErrorCodes.INSUFFICIENT_PERMISSIONS],
    [HttpStatusCodes.FORBIDDEN]. *)
Definition forbidden (c : Context) (message : string) : Response :=
  error c "AUTH_003" message 403 JUndefined.

(** [ApiResponseHelper.internalError]: [ErrorCodes.INTERNAL_ERROR],
    [HttpStatusCodes.INTERNAL_SERVER_ERROR]. *)
Definition internalError (c : Context) (message : string) : Response :=
  error c "SYS_001" message 500 JUndefined.

Definition setupPending : Response :=
  mkResponse 503
    (JObj {[ "success" := JBool false;
             "error" := JStr "Organization setup is still in progress";
             "message" := JStr "Your organization database is being set up. Please try again in a few moments.";
             "status" := JStr "pending" ]}).

Definition setupFailed (details : JVal) : Response :=
  mkResponse 500
    (JObj {[ "success" := JBool false;
             "error" := JStr "Organization setup failed";
             "message" := JStr "There was an error setting up your organization. Please contact support.";
             "details" := details;
             "status" := JStr "failed" ]}).

Definition setupMissing (status : JVal) : Response :=
  mkResponse 503
    (JObj {[ "success" := JBool false;
             "error" := JStr "Organization database not set up";
             "message" := JStr "Your organization database has not been initialized. Please contact support.";
             "status" := status ]}).

Section Functions.

Context {RT : Runtime}.

(** [checkOrganizationSetup(id)] for an [id] of type [any] that is
    truthy. A value that is not a string has no [replace]: the call of it
    throws in the [try] block and again in the [catch] block of
    [checkOrganizationSetup], so the TypeError leaves the function. *)
Definition checkOrganizationSetupOf (id : JVal) : Prog CheckResult :=
  match id with
  | JStr organizationId => checkOrganizationSetup organizationId
  | _ => Throw (JsError "organizationId.replace is not a function")
  end.

(** [requireOrganizationSetup()(c, next)] *)
Definition requireOrganizationSetup (c : Context) (next : Prog unit)
    : Prog (option Response) :=
  if negb (truthy (optGet (session c) "activeOrganizationId")) then
    Ret (Some (forbidden c "No active organization selected"))
  else
    tryCatch
      (setupStatus ← checkOrganizationSetupOf (optGet (session c) "activeOrganizationId");
       if negb (isSetup setupStatus) then
         if isString (status setupStatus) "pending" then Ret (Some setupPending)
         else if isString (status setupStatus) "failed"
         then Ret (Some (setupFailed (checkError setupStatus)))
         else Ret (Some (setupMissing (status setupStatus)))
       else
         _ ← next;
         Ret None)
      (fun e =>
         _ ← say Error [Txt "Error checking organization setup:"; Err e];
         Ret (Some (internalError c "Failed to verify organization setup"))).

End Functions.

End Middleware.

(* ===================================================================== *)
(** ** The middleware that provides the main database *)
(* ===================================================================== *)

(** [src/middlewares/database.middleware.ts] *)

Module DatabaseMiddleware.

Import Js Service.

(** [getMainDB(c)] of the middleware's file; [mainDB] is
    [c.get('mainDB')]. *)
Definition getMainDB (mainDB : option Manager.Conn) : Exn + Manager.Conn :=
  match mainDB with
  | Some db => inr db
  | None => inl (JsError "Core database not available in context")
  end.

Section Functions.

Context {RT : Runtime}.

(** [databaseMiddleware]: [Promise.all] of the one promise, then
    [c.set('mainDB', mainDB)] and [await next()]; [next] is given what
    [c.get('mainDB')] holds from then on. *)
Definition databaseMiddleware (next : option Manager.Conn -> Prog unit) : Prog unit :=
  mainDB ← await (GetConnection (MAIN_NS env) (MAIN_DB env));
  next (Some mainDB).

End Functions.

End DatabaseMiddleware.

(* ===================================================================== *)
(** ** The manager as the environment of the service *)
(* ===================================================================== *)

(** The service functions reach the manager through
    [dbManager.getConnection] and [this.connections.has]. [Backed] is the
    environment in which these are the manager's own steps, for one
    request at a time, over any network. *)

Module Backed.

Import Js Service.

Section Network.

(** The network: how a run of [createConnection] ends ([None] when it
    connects), and what the other operations answer. *)
Variable Net : Type.
Variable connect : Net -> string -> string -> option Exn * Net.
Variable answer : Net -> forall o : Op, (Exn + resp o) * Net.

Record World : Type := mkWorld {
  manager : Manager.State;
  net : Net
}.

(** [await dbManager.getConnection(ns, db)] with no other caller in
    between: the call and, for an attempt of its own, the settling of the
    attempt and the caller's continuation. With one request at a time the
    registry is empty between the operations, so that a call never finds
    the promise of another caller; were there one, it would not settle
    while this caller alone runs, which the last case stands for. *)
Definition getConnection (ns db : string) (w : World) : (Exn + Manager.Conn) * World :=
  let st1 := Manager.getConnection ns db (manager w) in
  match last (Manager.returned st1) with
  | Some (_, Manager.Own p) =>
      let '(r, n1) := connect (net w) ns db in
      (match r with None => inr p | Some e => inl e end,
       mkWorld (default st1 (Manager.run st1 [Manager.Settle p r; Manager.Resume p])) n1)
  | Some (_, Manager.Hit c) => (inr c, mkWorld st1 (net w))
  | _ => (inl (JsError "the promise of another caller is pending"), mkWorld st1 (net w))
  end.

Definition handle (w : World) (o : Op) : (Exn + resp o) * World :=
  match o as o' return (Exn + resp o') * World with
  | GetConnection ns db => getConnection ns db w
  | Query c sql params =>
      let '(r, n1) := answer (net w) (Query c sql params) in (r, mkWorld (manager w) n1)
  | ReadFile path =>
      let '(r, n1) := answer (net w) (ReadFile path) in (r, mkWorld (manager w) n1)
  | HttpPost url body headers =>
      let '(r, n1) := answer (net w) (HttpPost url body headers) in
      (r, mkWorld (manager w) n1)
  end.

(** [this.connections.has(key)] *)
Definition environment : Environment := {|
  Service.World := World;
  Service.handle := handle;
  Service.cacheHas w key := bool_decide (is_Some (Manager.connections (manager w) !! key))
|}.

End Network.

Arguments mkWorld {Net} manager net.
Arguments manager {Net} w.
Arguments net {Net} w.

(** A network on which every connection is made and every other
    operation is refused. *)
Definition refusing : Environment :=
  environment unit (fun n _ _ => (None, n)) (fun n _ => (inl (JsError "refused"), n)).

End Backed.

(* ===================================================================== *)
(** ** The version of the API that a request asks for *)
(* ===================================================================== *)

(** [extractVersionFromAcceptHeader] of [src/lib/utils.ts], which
    [src/middlewares/api-version.middleware.ts] repeats, and
    [apiVersionMiddleware]. *)

Module Regex.

(** The part of the regular expressions of JavaScript that the code uses:
    a character, [\d], [x+] for one of these, a sequence, an optional group
    [(?:r)?] and a capturing group [(r)]. Matching backtracks: [x+] takes
    the longest run first and gives back one character at a time, an
    optional group is tried before it is skipped. *)
Inductive Class : Type :=
  | Chr (c : ascii)
  | Digit.

Inductive Re : Type :=
  | Empty
  | One (k : Class)
  | Many1 (k : Class)
  | Seq (a b : Re)
  | Optional (a : Re)
  | Capture (a : Re).

Definition isDigit (c : ascii) : bool :=
  (48 <=? nat_of_ascii c) && (nat_of_ascii c <=? 57).

Definition inClass (k : Class) (c : ascii) : bool :=
  match k with
  | Chr x => Ascii.eqb x c
  | Digit => isDigit c
  end.

(** [s.slice(0, n)] *)
Fixpoint take (n : nat) (s : string) : string :=
  match n, s with
  | S n, String c s => String c (take n s)
  | _, _ => EmptyString
  end.

Section Matcher.

Variable A : Type.

(** [k+] followed by [cont], at [s]. *)
Fixpoint many1 (k : Class) (s : string) (cont : string -> option A) : option A :=
  match s with
  | String c s' =>
      if inClass k c then
        match many1 k s' cont with
        | Some r => Some r
        | None => cont s'
        end
      else None
  | EmptyString => None
  end.

(** [r] followed by [cont], at [s]; [cap] is what the group has captured
    so far. *)
Fixpoint matches (r : Re) (s : string) (cap : option string)
    (cont : string -> option string -> option A) : option A :=
  match r with
  | Empty => cont s cap
  | One k =>
      match s with
      | String c s' => if inClass k c then cont s' cap else None
      | EmptyString => None
      end
  | Many1 k => many1 k s (fun s' => cont s' cap)
  | Seq a b => matches a s cap (fun s1 cap1 => matches b s1 cap1 cont)
  | Optional a =>
      match matches a s cap cont with
      | Some x => Some x
      | None => cont s cap
      end
  | Capture a =>
      matches a s cap
        (fun s1 _ => cont s1 (Some (take (String.length s - String.length s1) s)))
  end.

End Matcher.

Arguments many1 {A} k s cont.
Arguments matches {A} r s cap cont.

(** [s.match(r)] for [r] without the [g] flag: the leftmost match, as
    its capture. *)
Fixpoint exec (r : Re) (s : string) : option (option string) :=
  match matches r s None (fun _ cap => Some cap) with
  | Some cap => Some cap
  | None =>
      match s with
      | String _ s' => exec r s'
      | EmptyString => None
      end
  end.

(** The characters of [p], then [r]. *)
Fixpoint lit (p : string) (r : Re) : Re :=
  match p with
  | EmptyString => r
  | String c p => Seq (One (Chr c)) (lit p r)
  end.

End Regex.

Module Utils.

Import Regex.

(** [/application\/vnd\.techstudio\.v(\d+(?:\.\d+)?)\+json/] *)
Definition acceptVersion : Re :=
  lit "application/vnd.techstudio.v"
    (Seq (Capture (Seq (Many1 Digit)
                       (Optional (Seq (One (Chr ".")) (Many1 Digit)))))
         (lit "+json" Empty)).

(** [extractVersionFromAcceptHeader]; [acceptHeader] is
    [c.req.header('Accept')], [None] for [undefined], and the result is
    [None] for [null]. *)
Definition extractVersionFromAcceptHeader (acceptHeader : option string)
    : option string :=
  match acceptHeader with
  | None | Some EmptyString => None
  | Some acceptHeader =>
      match exec acceptVersion acceptHeader with
      | Some (Some version) => Some version
      | _ => None
      end
  end.

(** A run of digits, not empty. *)
Fixpoint digits (s : string) : bool :=
  match s with
  | EmptyString => false
  | String c EmptyString => isDigit c
  | String c s => isDigit c && digits s
  end.

(** [major] or [major.minor] *)
Definition isVersion (v : string) : Prop :=
  exists major, digits major = true /\
    (v = major \/ exists minor, digits minor = true /\ v = major +:+ "." +:+ minor).

End Utils.

Module ApiVersion.

Import Js Regex Utils.

Record ApiVersionConfig : Type := mkConfig {
  supported : list string;
  default : string;
  deprecated : list string
}.

Definition API_VERSION_CONFIG : ApiVersionConfig := mkConfig ["1.0"] "1.0" [].

(** What the middleware reads of the context: [c.req.header(name)],
    [c.req.query(name)], [c.get('requestId')]; [now] is
    [new Date().toISOString()]. *)
Record Request : Type := mkRequest {
  header : string -> option string;
  query : string -> option string;
  requestId : JVal;
  now : string
}.

(** [a || b] for strings that may be [undefined] or [null]. *)
Definition orElse (a b : option string) : option string :=
  match a with
  | Some (String _ _) => a
  | _ => b
  end.

(** [l.join(sep)] *)
Fixpoint join (sep : string) (l : list string) : string :=
  match l with
  | [] => ""
  | [x] => x
  | x :: l => x +:+ sep +:+ join sep l
  end.

(** What the middleware does: it answers, or it sets [apiVersion] in the
    context and the headers of the response, in this order, and awaits
    [next()]. *)
Inductive Outcome : Type :=
  | Answered (status : nat) (body : JVal)
  | Continued (apiVersion : string) (headers : list (string * string)).

(** [apiVersionMiddleware(config)(c, next)] *)
Definition apiVersionMiddleware (config : ApiVersionConfig) (c : Request) : Outcome :=
  let version :=
    match orElse (header c "API-Version")
            (orElse (header c "Accept-Version")
               (orElse (query c "version")
                  (extractVersionFromAcceptHeader (header c "Accept")))) with
    | Some (String a v) => String a v
    | _ => default config
    end in
  let version := Text.replaceAnchored "v" "" version in
  if negb (bool_decide (version ∈ supported config)) then
    Answered 400
      (JObj {[ "success" := JBool false;
               "error" :=
                 JObj {[ "code" := JStr "UNSUPPORTED_API_VERSION";
                         "message" := JStr ("API version " +:+ version
                                            +:+ " is not supported");
                         "supported_versions" := JArr (JStr <$> supported config) ]};
               "meta" := JObj {[ "timestamp" := JStr (now c);
                                 "requestId" := requestId c ]} ]})
  else
    Continued version
      ([("API-Version", version);
        ("API-Supported-Versions", join ", " (supported config))]
       ++ if bool_decide (version ∈ deprecated config) then
            [("API-Deprecation-Warning",
              "API version " +:+ version
                +:+ " is deprecated. Please upgrade to a newer version.");
             ("API-Sunset-Date", "2025-12-31")]
          else []).

(** A request that names its version in the [Accept] header only. *)
Definition vendorRequest (accept : string) : Request :=
  mkRequest (fun name => if String.eqb name "Accept" then Some accept else None)
            (fun _ => None) (JStr "req_1") "t0".

End ApiVersion.

(* ===================================================================== *)
(** ** A scripted environment *)
(* ===================================================================== *)

(** One environment among all those the theorems range over, for running
    the programs on examples: a store of organization records, a schema
    file, the keys the manager has cached, and a script that tells, for
    each operation in turn, whether it succeeds ([true], also when the
    script has run out) or throws. *)

Module Script.

Import Js Service.

Record World : Type := mkWorld {
  script : list bool;
  store : gmap string JVal;     (* record id to its [metadata] field *)
  schemaFile : string;
  cachedKeys : list string
}.

Definition recordId (params : list (string * Param)) : string :=
  match params with
  | (_, PRecordId id) :: _ => id
  | _ => ""
  end.

Definition newMetadata (params : list (string * Param)) : JVal :=
  match params with
  | _ :: (_, PValue v) :: _ => v
  | _ => JUndefined
  end.

(** The rows of a [SELECT ... FROM $orgId]: the record, if there is one. *)
Definition selectRows (w : World) (id : string) : list JVal :=
  match store w !! id with
  | Some v => [JArr [JObj {[ "id" := JStr id; "metadata" := v ]}]]
  | None => [JArr []]
  end.

Definition answer (w : World) (o : Op) : resp o * World :=
  match o as o' return resp o' * World with
  | GetConnection _ _ => (0, w)
  | Query _ sql params =>
      if String.eqb sql "UPDATE $orgId SET metadata = $metadata" then
        let id := recordId params in
        match store w !! id with
        | Some _ =>
            let w' := mkWorld (script w) (<[id := newMetadata params]> (store w))
                              (schemaFile w) (cachedKeys w) in
            (selectRows w' id, w')
        | None => ([JArr []], w)
        end
      else if String.eqb sql "INFO FOR DB;" then ([JObj ∅], w)
      else (selectRows w (recordId params), w)
  | ReadFile _ => (schemaFile w, w)
  | HttpPost _ _ _ => (JNull, w)
  end.

Definition next (w : World) : World :=
  mkWorld (tail (script w)) (store w) (schemaFile w) (cachedKeys w).

Definition handle (w : World) (o : Op) : (Exn + resp o) * World :=
  match script w with
  | false :: _ => (inl (JsError "refused"), next w)
  | _ => let '(v, w') := answer (next w) o in (inr v, w')
  end.

#[export] Instance environment : Environment := {|
  Service.World := World;
  Service.handle := handle;
  Service.cacheHas w key := bool_decide (key ∈ cachedKeys w)
|}.

(** A runtime for the examples: the text of a value is not looked at, so
    [JSON.stringify] and the base64 encoding give fixed texts. *)
#[export] Instance runtime : Runtime := {|
  env := mkEnv "ws://db.example/rpc" "token" "root" "secret"
               "needxlife" "core" "needexcel_organization";
  JSON_stringify _ := "{...}";
  base64 s := s;
  inCwd file := "/app/" +:+ file
|}.

Definition world0 : World :=
  mkWorld [] {[ "organization:abc" := JNull ]} "USE DB __DATABASE_NAME__;" [].

(** The organization [abc] is registered, with no metadata yet. *)
Definition registered : World := world0.

(** Provisioning succeeds (the file is read, the script is accepted), the
    connection and the read of the record succeed, and the write of the
    [completed] status is refused. *)
Definition refusedWrite : World :=
  mkWorld [true; true; true; true; false]
          {[ "organization:abc" := JNull ]} "USE DB __DATABASE_NAME__;" [].

(** Nothing succeeds. *)
Definition unreachable : World :=
  mkWorld [false; false; false; false; false; false]
          {[ "organization:abc" := JNull ]} "USE DB __DATABASE_NAME__;" [].


(** The manager has the connection of [org_abc] cached. *)
Definition cachedAbc : World :=
  mkWorld [false] ∅ "" ["needexcel_organization:org_abc"].

(** The record of [abc] stores the type inside its setup metadata. *)
Definition typedInSetup : World :=
  mkWorld []
          {[ "organization:abc" :=
               JObj {[ "setup" := JObj {[ "organizationType" := JStr "retail" ]} ]} ]}
          "USE DB __DATABASE_NAME__;" [].

(** The record of [abc] holds its metadata as a text. *)
Definition textMetadata : World :=
  mkWorld [] {[ "organization:abc" := JStr "{...}" ]} "USE DB __DATABASE_NAME__;" [].

(** A handler behind the middleware, and a request with an active
    organization. *)
Definition handler : Prog unit := say Log [Txt "handler"].


End Script.

(* ===================================================================== *)
(** * Properties *)
(* ===================================================================== *)

(** ** The model on small inputs *)

Example replaceAll_two :
  Text.replaceAll "__X__" "db" "a __X__ b __X__" = "a db b db".
Proof. reflexivity. Qed.

Example replaceFirst_one :
  Text.replaceFirst "/rpc" "/sql" "ws://h/rpc/rpc" = "ws://h/sql/rpc".
Proof. reflexivity. Qed.

Example replaceAll_dollar :
  Text.replaceAll "__X__" "a$&b$$c$`d" "1__X__2" = "1a__X__b$c1d2".
Proof. reflexivity. Qed.

Example spread_string :
  Js.ownProps (Js.JStr "ab") !! "1" = Some (Js.JStr "b").
Proof. reflexivity. Qed.

Example chars_accented :
  String.length "né" = 3 /\ Js.chars "né" = [Js.JStr "n"; Js.JStr "é"].
Proof. split; reflexivity. Qed.

Example chars_three_bytes :
  String.length "€1" = 4 /\ Js.chars "€1" = [Js.JStr "€"; Js.JStr "1"].
Proof. split; reflexivity. Qed.

(** [U+1F600] is the pair [0xD83D 0xDE00]. *)
Example chars_surrogates :
  String.length "😀" = 4 /\
  Js.codeUnits "😀" = [Js.unitText 55357; Js.unitText 56832] /\
  Js.ownProps (Js.JStr "a😀b") !! "3" = Some (Js.JStr "b").
Proof. repeat split; vm_compute; reflexivity. Qed.

Example manager_two_callers :
  let tr := [Manager.Call "ns" "a"; Manager.Call "ns" "a";
             Manager.Settle 0 None; Manager.Resume 0; Manager.Call "ns" "a"] in
  (fun st => (Manager.connects st "ns:a", Manager.returned st)) <$> Manager.run Manager.init tr
  = Some (1, [("ns:a", Manager.Own 0); ("ns:a", Manager.Shared 0); ("ns:a", Manager.Hit 0)]).
Proof. vm_compute. reflexivity. Qed.

Module ScriptExamples.

Import Js Service Script.

Example script_setup_ok :
  result (setupOrganizationDatabase "t0" "organization:abc" "retail") world0
  = inr (mkSetupResult true "org_abc" "retail" None "t0").
Proof. vm_compute. reflexivity. Qed.

Example script_http_url : httpUrl = "http://db.example/sql".
Proof. vm_compute. reflexivity. Qed.

End ScriptExamples.

(** ** Replacing the placeholder *)

Section TextFacts.

Import Text.

Lemma text_app_cons (a : ascii) (s t : string) :
  String a s +:+ t = String a (s +:+ t).
Proof. reflexivity. Qed.

Lemma text_app_length (s t : string) :
  String.length (s +:+ t) = String.length s + String.length t.
Proof. induction s as [|a s IH]; [done|]. rewrite text_app_cons. cbn. by rewrite IH. Qed.

Lemma isPrefix_app (p b : string) : isPrefix p (p +:+ b) = true.
Proof.
  induction p as [|a p IH]; [done|]. rewrite text_app_cons. cbn.
  by rewrite Ascii.eqb_refl, IH.
Qed.

Lemma drop_app (p b : string) : drop (String.length p) (p +:+ b) = b.
Proof. induction p as [|a p IH]; [by destruct b|]. by rewrite text_app_cons. Qed.

Lemma isPrefix_true (p s : string) :
  isPrefix p s = true -> s = p +:+ drop (String.length p) s.
Proof.
  revert s. induction p as [|a p IH]; intros s; [by destruct s|].
  destruct s as [|b s]; [done|]. cbn.
  intros [->%Ascii.eqb_eq Hp]%andb_true_iff. rewrite text_app_cons. f_equal. by apply IH.
Qed.

Lemma getSubstitution_dollarFree (matched before after rep : string) :
  dollarFree rep = true -> getSubstitution matched before after rep = rep.
Proof.
  induction rep as [|a rep IH]; [done|]. cbn.
  intros [Ha%negb_true_iff Hrep]%andb_true_iff. rewrite Ha. f_equal. by apply IH.
Qed.

(** Passing over the rest of a match. *)
Lemma replaceScan_skip (global : bool) (tok rep : string) (n : nat) :
  forall (s before : string) (live : bool),
    n <= String.length s ->
    exists before',
      replaceScan global tok rep before n live s
      = replaceScan global tok rep before' 0 live (drop n s).
Proof.
  induction n as [|n IH]; intros s before live Hn.
  - exists before. by destruct s.
  - destruct s as [|c s]; [cbn in Hn; lia|]. cbn in Hn.
    destruct (IH s (before +:+ String c "") live ltac:(lia)) as [before' Heq].
    exists before'. cbn. exact Heq.
Qed.

Lemma isPrefix_length (p s : string) :
  isPrefix p s = true -> String.length p <= String.length s.
Proof.
  intros Hp. rewrite (isPrefix_true p s Hp), text_app_length. lia.
Qed.

(** At a match, with a replacement free of dollar signs, the scan puts
    the replacement and goes on after the match. *)
Lemma replaceScan_match (tok d s before : string) :
  tok <> "" -> dollarFree d = true -> isPrefix tok s = true ->
  exists before',
    replaceScan true tok d before 0 true s
    = d +:+ replaceScan true tok d before' 0 true (drop (String.length tok) s).
Proof.
  intros Htok Hd Hp. pose proof (isPrefix_length _ _ Hp) as Hlen.
  destruct tok as [|t0 tok']; [done|]. destruct s as [|c s']; [done|].
  cbn [replaceScan]. rewrite Hp. cbn [andb].
  rewrite getSubstitution_dollarFree by done.
  cbn [String.length] in *.
  replace (S (String.length tok') - 1) with (String.length tok') by lia.
  destruct (replaceScan_skip true (String t0 tok') d (String.length tok') s'
              (before +:+ String c "") true ltac:(lia)) as [before' ->].
  by exists before'.
Qed.

Lemma replaceScan_other (tok d s before : string) (c : ascii) :
  isPrefix tok (String c s) = false ->
  replaceScan true tok d before 0 true (String c s)
  = String c (replaceScan true tok d (before +:+ String c "") 0 true s).
Proof. intros Hp. cbn [replaceScan]. by rewrite Hp. Qed.

Lemma occursIn_empty (tok : string) : tok <> "" -> ~ occursIn tok "".
Proof.
  intros Htok (a & b & Heq). destruct a as [|? a]; [|done].
  destruct tok; done.
Qed.

(** An occurrence in [c :: s] starts at the head or lies in [s]. *)
Lemma occurs_cons (tok s a b : string) (c : ascii) :
  String c s = a +:+ tok +:+ b ->
  isPrefix tok (String c s) = true \/
  exists a', a = String c a' /\ s = a' +:+ tok +:+ b.
Proof.
  destruct a as [|c' a'].
  - intros Heq. left. change (String c s = tok +:+ b) in Heq.
    rewrite Heq. apply isPrefix_app.
  - rewrite text_app_cons. intros [= <- ->]. right. by exists a'.
Qed.

Lemma Substituted_cons (tok d s out : string) (c : ascii) :
  isPrefix tok (String c s) = false ->
  Substituted tok d s out ->
  Substituted tok d (String c s) (String c out).
Proof.
  intros Hp Hs. destruct Hs as [s Hnone|a b out Hfirst Hrest].
  - apply Substituted_none. intros (a & b & Heq).
    apply occurs_cons in Heq as [Hp'|(a' & -> & ->)]; [congruence|].
    apply Hnone. by exists a', b.
  - change (Substituted tok d (String c a +:+ tok +:+ b) (String c a +:+ d +:+ out)).
    apply Substituted_first; [|done].
    intros a' b' Heq. rewrite text_app_cons in Heq.
    apply occurs_cons in Heq as [Hp'|(a'' & -> & Heq)].
    + congruence.
    + cbn. apply Hfirst in Heq. lia.
Qed.

(** The scan with the [g] flag and a replacement free of dollar signs
    replaces every occurrence, from left to right. *)
Lemma replaceScan_Substituted (tok d : string) :
  tok <> "" -> dollarFree d = true ->
  forall (n : nat) (s before : string),
    String.length s <= n ->
    Substituted tok d s (replaceScan true tok d before 0 true s).
Proof.
  intros Htok Hd. induction n as [|n IH]; intros s before Hn.
  - destruct s; [|cbn in Hn; lia]. apply Substituted_none.
    by apply occursIn_empty.
  - destruct s as [|c s].
    { apply Substituted_none. by apply occursIn_empty. }
    destruct (isPrefix tok (String c s)) eqn:Hp.
    + destruct (replaceScan_match tok d (String c s) before Htok Hd Hp)
        as [before' ->].
      rewrite (isPrefix_true _ _ Hp) at 1.
      apply (Substituted_first tok d "" _ _).
      * intros a' b' _. cbn. lia.
      * apply IH. pose proof (isPrefix_length _ _ Hp) as Hlen.
        assert (String.length (drop (String.length tok) (String c s))
                + String.length tok = String.length (String c s)) as Hdrop.
        { rewrite (isPrefix_true _ _ Hp) at 2. rewrite text_app_length. lia. }
        destruct tok; [done|]. cbn [String.length] in *. lia.
    + rewrite replaceScan_other by done.
      apply Substituted_cons; [done|]. apply IH. cbn in Hn. lia.
Qed.

Lemma text_app_inj_length (a1 a2 x y : string) :
  a1 +:+ x = a2 +:+ y -> String.length a1 = String.length a2 ->
  a1 = a2 /\ x = y.
Proof.
  revert a2. induction a1 as [|c a1 IH]; intros [|c2 a2]; try done.
  rewrite !text_app_cons. intros [= -> Heq] [= Hlen].
  destruct (IH a2 Heq Hlen) as [-> ->]. done.
Qed.

(** The text with every occurrence replaced is unique. *)
Lemma Substituted_unique (tok d s out1 out2 : string) :
  Substituted tok d s out1 -> Substituted tok d s out2 -> out1 = out2.
Proof.
  intros H1. revert out2.
  induction H1 as [s Hnone|a b out Hfirst Hrest IH]; intros out2 H2.
  - inversion H2 as [s' Hnone' Hs|a' b' out' Hfirst' Hrest' Hs]; [done|].
    subst. destruct Hnone. by exists a', b'.
  - remember (a +:+ tok +:+ b) as s eqn:Hs.
    destruct H2 as [s Hnone|a' b' out' Hfirst' Hrest'].
    + destruct Hnone. by exists a, b.
    + pose proof (Hfirst _ _ (eq_sym Hs)) as Hle1.
      pose proof (Hfirst' _ _ Hs) as Hle2.
      destruct (text_app_inj_length a' a _ _ Hs ltac:(lia)) as [-> Htail].
      apply (inj (String.app tok)) in Htail as ->.
      f_equal. f_equal. by apply IH.
Qed.

(** X1. With a database name free of dollar signs, the script is the
    schema with the name at every occurrence of the placeholder. *)
Lemma schemaScript_verbatim (database schemaContent : string) :
  dollarFree database = true ->
  Substituted "__DATABASE_NAME__" database schemaContent
              (Service.schemaScript database schemaContent).
Proof.
  intros Hd. unfold Service.schemaScript, replaceAll.
  apply (replaceScan_Substituted "__DATABASE_NAME__" database ltac:(done) Hd
           (String.length schemaContent)).
  lia.
Qed.

End TextFacts.

(** ** Replacing the first occurrence *)

Section UrlFacts.

Import Text.

Lemma replaceScan_dead (tok d : string) (s : string) :
  forall (before : string) (n : nat),
    replaceScan false tok d before n false s = drop n s.
Proof.
  induction s as [|c s IH]; intros before [|n]; cbn; [done|done| |apply IH].
  rewrite IH. by destruct s.
Qed.

Lemma firstAt_head (tok a b : string) (c : ascii) :
  firstAt tok (String c a) b -> isPrefix tok (String c a +:+ tok +:+ b) = false.
Proof.
  intros Hfirst. destruct (isPrefix tok (String c a +:+ tok +:+ b)) eqn:Hp; [|done].
  apply isPrefix_true in Hp.
  specialize (Hfirst "" _ Hp). cbn in Hfirst. lia.
Qed.

Lemma firstAt_tail (tok a b : string) (c : ascii) :
  firstAt tok (String c a) b -> firstAt tok a b.
Proof.
  intros Hfirst a' b' Heq.
  specialize (Hfirst (String c a') b'). rewrite !text_app_cons in Hfirst.
  rewrite Heq in Hfirst. specialize (Hfirst eq_refl). cbn in Hfirst. lia.
Qed.

(** Without the [g] flag and with a replacement free of dollar signs, the
    first occurrence is replaced and the rest is kept. *)
Lemma replaceFirst_at (tok d a b : string) :
  tok <> "" -> dollarFree d = true -> firstAt tok a b ->
  replaceFirst tok d (a +:+ tok +:+ b) = a +:+ d +:+ b.
Proof.
  intros Htok Hd. unfold replaceFirst. generalize "" as before.
  induction a as [|c a IH]; intros before Hfirst.
  - destruct tok as [|t0 tok']; [done|].
    change ("" +:+ String t0 tok' +:+ b) with (String t0 (tok' +:+ b)).
    cbn [replaceScan].
    change (String t0 (tok' +:+ b)) with (String t0 tok' +:+ b).
    rewrite isPrefix_app. cbn [andb].
    rewrite getSubstitution_dollarFree by done.
    rewrite replaceScan_dead. cbn [String.length].
    replace (S (String.length tok') - 1) with (String.length tok') by lia.
    by rewrite drop_app.
  - pose proof (firstAt_head _ _ _ _ Hfirst) as Hp.
    rewrite !text_app_cons in *. cbn [replaceScan]. rewrite Hp. cbn [andb].
    rewrite IH; [done|]. by eapply firstAt_tail.
Qed.

Lemma endsWith_app (x p : string) : endsWith (x +:+ p) p = true.
Proof.
  induction x as [|c x IH].
  - change ("" +:+ p) with p. destruct p; [done|].
    cbn [endsWith]. by rewrite String.eqb_refl.
  - rewrite text_app_cons. cbn [endsWith]. rewrite IH. by destruct (String.eqb _ _).
Qed.

End UrlFacts.

(** ** The connection manager *)

Section ManagerFacts.

Import Js Manager.

(** Two lookups of one index give one attempt: closes the goals where
    the index of the attempt at hand would be that of another. *)
Ltac other_attempt Hp Ha :=
  intros ?; subst; rewrite Hp in Ha; by injection Ha as <-.

Lemma Inv_init : Inv init.
Proof.
  split; cbn.
  - intros k p. rewrite lookup_empty. split; [done|].
    intros (a & Ha & _). by rewrite lookup_nil in Ha.
  - intros k p. rewrite lookup_empty. split; [done|].
    intros (a & Ha & _). by rewrite lookup_nil in Ha.
  - intros p a. by rewrite lookup_nil.
  - done.
  - intros k r Hin. by apply elem_of_nil in Hin.
Qed.

Lemma getConnection_Inv (ns db : string) (st : State) : Inv st -> Inv (getConnection ns db st).
Proof.
  intros [Hing Hions Hset Hex Hret]. unfold getConnection.
  destruct (connections st !! keyOf ns db) as [c|] eqn:Hc.
  - split; cbn; try done.
    intros k r [Hin|Hin%list_elem_of_singleton]%elem_of_app; [by apply Hret|].
    injection Hin as -> ->. cbn.
    apply Hions in Hc as (a & Ha & Hk & _). by exists a.
  - destruct (connecting st !! keyOf ns db) as [p|] eqn:Hp.
    + split; cbn; try done.
      intros k r [Hin|Hin%list_elem_of_singleton]%elem_of_app; [by apply Hret|].
      injection Hin as -> ->. cbn.
      apply Hing in Hp as (a & Ha & Hk & _). by exists a.
    + set (k0 := keyOf ns db) in *.
      set (new := mkAttempt ns db k0 Pending false).
      split; cbn.
      * intros k p. rewrite lookup_insert. case_decide as Hk; [subst k|].
        -- split.
           ++ intros [= <-]. exists new. by rewrite lookup_app_r, Nat.sub_diag.
           ++ intros (a & Ha & Hka & Hra).
              apply lookup_snoc_Some in Ha as [[Hlt Ha]|[-> _]]; [|done].
              assert (connecting st !! k0 = Some p) as Hp'
                  by (apply Hing; eauto). congruence.
        -- rewrite Hing. split.
           ++ intros (a & Ha & ?). exists a. split; [|done].
              by apply lookup_app_l_Some.
           ++ intros (a & Ha & Hka & Hra). exists a. split; [|done].
              apply lookup_snoc_Some in Ha as [[_ Ha]|[_ <-]]; [done|].
              cbn in Hka. congruence.
      * intros k p. rewrite Hions. split.
        -- intros (a & Ha & ?). exists a. split; [|done]. by apply lookup_app_l_Some.
        -- intros (a & Ha & Hka & Hra & Hpa). exists a. split; [|done].
           apply lookup_snoc_Some in Ha as [[_ Ha]|[_ <-]]; [done|]. done.
      * intros p a Ha. apply lookup_snoc_Some in Ha as [[_ Ha]|[_ <-]]; [eauto|done].
      * intros k c Hk. rewrite lookup_insert_ne; [eauto|].
        intros Heq. rewrite <- Heq in Hk. by rewrite Hc in Hk.
      * intros k r [Hin|Hin%list_elem_of_singleton]%elem_of_app.
        -- destruct (Hret k r Hin) as (a & Ha & Hk). exists a.
           split; [by apply lookup_app_l_Some|done].
        -- injection Hin as -> ->. cbn. exists new.
           by rewrite lookup_app_r, Nat.sub_diag.
Qed.

Lemma createConnectionSettled_Inv (p : nat) (r : option Exn) (st st' : State) :
  Inv st -> createConnectionSettled p r st = Some st' -> Inv st'.
Proof.
  intros [Hing Hions Hset Hex Hret]. unfold createConnectionSettled.
  destruct (attempts st !! p) as [[ns db k0 [| |] []]|] eqn:Hp; try done.
  intros [= <-].
  set (pr := match r with None => Fulfilled | Some e => Rejected e end).
  set (new := mkAttempt ns db k0 pr false).
  pose proof (lookup_lt_Some _ _ _ Hp) as Hlt.
  split; cbn.
  - intros k q. rewrite Hing. split.
    + intros (a & Ha & Hka & Hra). destruct (decide (q = p)) as [->|Hne].
      * exists new. rewrite list_lookup_insert_eq by done.
        rewrite Hp in Ha. injection Ha as <-. done.
      * exists a. by rewrite list_lookup_insert_ne.
    + intros (a & Ha & Hka & Hra).
      apply list_lookup_insert_Some in Ha as [(<- & <- & _)|[Hne Ha]].
      * eexists; split; [exact Hp|done].
      * by exists a.
  - intros k q. rewrite Hions. split.
    + intros (a & Ha & Hka & Hra & Hpa). exists a. split; [|done].
      rewrite list_lookup_insert_ne; [done|]. other_attempt Hp Ha.
    + intros (a & Ha & Hka & Hra & Hpa).
      apply list_lookup_insert_Some in Ha as [(<- & <- & _)|[Hne Ha]]; [done|].
      by exists a.
  - intros q a Ha Hra.
    apply list_lookup_insert_Some in Ha as [(<- & <- & _)|[Hne Ha]]; [done|eauto].
  - done.
  - intros k x Hin. destruct (Hret k x Hin) as (a & Ha & Hk).
    destruct (decide (source x = p)) as [Heq|Hne].
    + rewrite Heq in *. exists new. rewrite list_lookup_insert_eq by done.
      rewrite Hp in Ha. by injection Ha as <-.
    + exists a. by rewrite list_lookup_insert_ne.
Qed.

Lemma getConnectionResumed_Inv (p : nat) (st st' : State) :
  Inv st -> getConnectionResumed p st = Some st' -> Inv st'.
Proof.
  intros [Hing Hions Hset Hex Hret]. unfold getConnectionResumed.
  destruct (attempts st !! p) as [[ns db k0 pr []]|] eqn:Hp;
    [by destruct pr| |done].
  pose proof (lookup_lt_Some _ _ _ Hp) as Hlt.
  assert (Hreg : connecting st !! k0 = Some p) by (apply Hing; eauto).
  assert (Hing' : forall new, key new = k0 -> resumed new = true ->
    forall k q, delete k0 (connecting st) !! k = Some q <->
      exists a, <[p := new]> (attempts st) !! q = Some a /\ key a = k
                /\ resumed a = false).
  { intros new Hkn Hrn k q. rewrite lookup_delete_Some, Hing. split.
    - intros (Hk & a & Ha & Hka & Hra). exists a. split; [|done].
      rewrite list_lookup_insert_ne; [done|]. other_attempt Hp Ha.
    - intros (a & Ha & Hka & Hra).
      apply list_lookup_insert_Some in Ha as [(<- & <- & _)|[Hne Ha]];
        [congruence|].
      split; [|by exists a]. intros <-.
      assert (connecting st !! k0 = Some q) as Hq by (apply Hing; eauto).
      congruence. }
  assert (Hret' : forall new, key new = k0 ->
    forall k x, (k, x) ∈ returned st ->
      exists a, <[p := new]> (attempts st) !! source x = Some a /\ key a = k).
  { intros new Hkn k x Hin. destruct (Hret k x Hin) as (a & Ha & Hk).
    destruct (decide (source x = p)) as [Heq|Hne].
    - rewrite Heq in *. exists new. rewrite list_lookup_insert_eq by done.
      rewrite Hp in Ha. injection Ha as <-. cbn in Hk.
      split; [done|congruence].
    - exists a. by rewrite list_lookup_insert_ne. }
  destruct pr as [| |e]; [done| |]; intros [= <-].
  - set (new := mkAttempt ns db k0 Fulfilled true).
    split; cbn.
    + by apply Hing'.
    + intros k q. rewrite lookup_insert. case_decide as Hk; [subst k|].
      * split.
        -- intros [= <-]. exists new. by rewrite list_lookup_insert_eq.
        -- intros (a & Ha & Hka & Hra & Hpa).
           apply list_lookup_insert_Some in Ha as [(<- & <- & _)|[Hne Ha]];
             [done|].
           assert (connections st !! k0 = Some q) as Hq by (apply Hions; eauto).
           apply Hex in Hq. congruence.
      * rewrite Hions. split.
        -- intros (a & Ha & Hka & Hra & Hpa). exists a. split; [|done].
           rewrite list_lookup_insert_ne; [done|]. other_attempt Hp Ha.
        -- intros (a & Ha & Hka & Hra & Hpa).
           apply list_lookup_insert_Some in Ha as [(<- & <- & _)|[Hne Ha]];
             [done|]. by exists a.
    + intros q a Ha Hra.
      apply list_lookup_insert_Some in Ha as [(<- & <- & _)|[Hne Ha]]; [done|eauto].
    + intros k c. rewrite lookup_insert. case_decide as Hk; [subst k|].
      * intros _. apply lookup_delete_eq.
      * intros Hc. rewrite lookup_delete_ne by done. eauto.
    + by apply Hret'.
  - set (new := mkAttempt ns db k0 (Rejected e) true).
    split; cbn.
    + by apply Hing'.
    + intros k q. rewrite Hions. split.
      * intros (a & Ha & Hka & Hra & Hpa). exists a. split; [|done].
        rewrite list_lookup_insert_ne; [done|]. other_attempt Hp Ha.
      * intros (a & Ha & Hka & Hra & Hpa).
        apply list_lookup_insert_Some in Ha as [(<- & <- & _)|[Hne Ha]];
          [done|]. by exists a.
    + intros q a Ha Hra.
      apply list_lookup_insert_Some in Ha as [(<- & <- & _)|[Hne Ha]]; [done|eauto].
    + intros k c Hc. destruct (decide (k0 = k)) as [->|Hk].
      * apply lookup_delete_eq.
      * rewrite lookup_delete_ne by done. eauto.
    + by apply Hret'.
Qed.

Lemma step_Inv (st st' : State) (ev : Event) :
  Inv st -> step st ev = Some st' -> Inv st'.
Proof.
  intros Hinv. destruct ev as [ns db|p r|p]; cbn.
  - intros [= <-]. by apply getConnection_Inv.
  - by apply createConnectionSettled_Inv.
  - by apply getConnectionResumed_Inv.
Qed.

Lemma run_Inv (tr : list Event) (st st' : State) :
  Inv st -> run st tr = Some st' -> Inv st'.
Proof.
  revert st. induction tr as [|ev tr IH]; intros st Hinv; cbn.
  - by intros [= <-].
  - destruct (step st ev) as [st1|] eqn:Hstep; [|done].
    apply IH. by eapply step_Inv.
Qed.

Lemma reachable_Inv (st : State) : reachable st -> Inv st.
Proof. intros [tr Htr]. eapply run_Inv; [apply Inv_init|exact Htr]. Qed.

(** *** Counting attempts *)

Lemma count_app (P : Attempt -> bool) (l1 l2 : list Attempt) :
  count P (l1 ++ l2) = count P l1 + count P l2.
Proof. induction l1 as [|a l1 IH]; cbn; [done|]. rewrite IH. lia. Qed.

Lemma count_insert (P : Attempt -> bool) (l : list Attempt)
    (i : nat) (a a' : Attempt) :
  l !! i = Some a ->
  count P (<[i := a']> l) + (if P a then 1 else 0)
  = count P l + (if P a' then 1 else 0).
Proof.
  revert i. induction l as [|b l IH]; intros [|i]; simpl; try done.
  - intros [= ->]. lia.
  - intros Hi. pose proof (IH i Hi). lia.
Qed.

Lemma count_insert_same (P : Attempt -> bool) (l : list Attempt)
    (i : nat) (a a' : Attempt) :
  l !! i = Some a -> P a' = P a -> count P (<[i := a']> l) = count P l.
Proof.
  revert i. induction l as [|b l IH]; intros [|i]; simpl; try done.
  - intros [= ->] ->. done.
  - intros Hi HP. by rewrite (IH i).
Qed.

Lemma count_zero (P : Attempt -> bool) (l : list Attempt) :
  (forall i a, l !! i = Some a -> P a = false) -> count P l = 0.
Proof.
  induction l as [|b l IH]; intros Hall; cbn; [done|].
  rewrite (Hall 0 b eq_refl), IH; [done|].
  intros i a Hi. by apply (Hall (S i)).
Qed.

Lemma count_pos (P : Attempt -> bool) (l : list Attempt) (i : nat) (a : Attempt) :
  l !! i = Some a -> P a = true -> 1 <= count P l.
Proof.
  revert i. induction l as [|b l IH]; intros [|i]; cbn; try done.
  - intros [= ->] ->. lia.
  - intros Hi HP. pose proof (IH i Hi HP). lia.
Qed.

Lemma count_le_one (P : Attempt -> bool) (l : list Attempt) :
  (forall i j a b, l !! i = Some a -> l !! j = Some b ->
     P a = true -> P b = true -> i = j) ->
  count P l <= 1.
Proof.
  induction l as [|b l IH]; intros Huniq; cbn; [lia|].
  destruct (P b) eqn:Hb.
  - rewrite count_zero; [lia|].
    intros i a Hi. destruct (P a) eqn:Ha; [|done].
    by specialize (Huniq 0 (S i) b a eq_refl Hi Hb Ha).
  - apply IH. intros i j a c Hi Hj Ha Hc.
    by injection (Huniq (S i) (S j) a c Hi Hj Ha Hc).
Qed.

Lemma count_one (P : Attempt -> bool) (l : list Attempt) (i : nat) (a : Attempt) :
  l !! i = Some a -> P a = true ->
  (forall j b, l !! j = Some b -> P b = true -> j = i) ->
  count P l = 1.
Proof.
  intros Hi Ha Huniq. apply Nat.le_antisymm.
  - apply count_le_one. intros j1 j2 b1 b2 H1 H2 Hb1 Hb2.
    by rewrite (Huniq j1 b1), (Huniq j2 b2).
  - by eapply count_pos.
Qed.

(** Every attempt for a key is in progress, or failed, or succeeded. *)
Lemma count_split (k : string) (l : list Attempt) :
  count (forKey k) l
  = count (fun a => forKey k a && resumed a && isRejected (promise a)) l
    + count (fun a => forKey k a && negb (resumed a)) l
    + count (succeededFor k) l.
Proof.
  induction l as [|a l IH]; cbn; [done|]. rewrite IH. unfold succeededFor.
  destruct (forKey k a), (resumed a), (isRejected (promise a)); cbn; lia.
Qed.

Lemma inProgress_registered (st : State) (k : string) :
  Inv st ->
  inProgress st k = match connecting st !! k with Some _ => 1 | None => 0 end.
Proof.
  intros [Hing _ _ _ _]. unfold inProgress.
  assert (Hwhich : forall i a, attempts st !! i = Some a ->
            forKey k a && negb (resumed a) = true -> connecting st !! k = Some i).
  { intros i a Hi [Hk Hr%negb_true_iff]%andb_true_iff.
    apply bool_decide_eq_true in Hk. apply Hing. eauto. }
  destruct (connecting st !! k) as [p|] eqn:Hp.
  - apply Hing in Hp as Ha. destruct Ha as (a & Ha & Hk & Hr).
    apply (count_one _ _ p a Ha).
    + unfold forKey. rewrite bool_decide_eq_true_2 by done. by rewrite Hr.
    + intros j b Hj Hb. apply (Hwhich j b Hj) in Hb. congruence.
  - apply count_zero. intros i a Hi.
    destruct (forKey k a && negb (resumed a)) eqn:Hb; [|done].
    apply (Hwhich i a Hi) in Hb. congruence.
Qed.

Lemma succeeded_cached (st : State) (k : string) :
  Inv st -> count (succeededFor k) (attempts st) = cached st k.
Proof.
  intros [_ Hions Hset _ _]. unfold cached.
  assert (Hwhich : forall i a, attempts st !! i = Some a ->
            succeededFor k a = true -> connections st !! k = Some i).
  { intros i a Hi [[Hk Hr]%andb_true_iff Hp%negb_true_iff]%andb_true_iff.
    apply bool_decide_eq_true in Hk. apply Hions. exists a.
    repeat split; try done. specialize (Hset i a Hi Hr).
    by destruct (promise a). }
  destruct (connections st !! k) as [c|] eqn:Hc.
  - apply Hions in Hc as Ha. destruct Ha as (a & Ha & Hk & Hr & Hp).
    apply (count_one _ _ c a Ha).
    + unfold succeededFor, forKey.
      rewrite bool_decide_eq_true_2 by done. by rewrite Hr, Hp.
    + intros j b Hj Hb. apply (Hwhich j b Hj) in Hb. congruence.
  - apply count_zero. intros i a Hi.
    destruct (succeededFor k a) eqn:Hb; [|done].
    apply (Hwhich i a Hi) in Hb. congruence.
Qed.

(** The connects for a key: one for each failed attempt, one for the
    attempt in progress, one for the cached connection; and the last two
    never together. *)
Lemma connects_counted (st : State) (k : string) :
  Inv st ->
  connects st k = failed st k + inProgress st k + cached st k /\
  inProgress st k + cached st k <= 1.
Proof.
  intros Hinv. split.
  - unfold connects, failed. rewrite count_split.
    by rewrite <- succeeded_cached.
  - rewrite inProgress_registered by done. unfold cached.
    destruct (connections st !! k) as [c|] eqn:Hc; [|destruct (connecting st !! k); lia].
    by rewrite (inv_exclusive st Hinv k c Hc).
Qed.

(** *** Callers while an attempt is in flight *)

(** A step other than the continuation of attempt [p] leaves [p]
    registered, makes no connect for its key, and answers a call for the
    key with the promise of [p]. *)
Lemma step_in_flight (st st' : State) (ev : Event) (k : string) (p : nat) :
  Inv st -> connecting st !! k = Some p -> ev <> Resume p ->
  step st ev = Some st' ->
  connecting st' !! k = Some p /\
  connects st' k = connects st k /\
  exists rest, returned st' = returned st ++ rest /\
               forall r, (k, r) ∈ rest -> r = Shared p.
Proof.
  intros Hinv Hp Hev. pose proof Hinv as [Hing Hions Hset Hex Hret].
  assert (Hnone : connections st !! k = None).
  { destruct (connections st !! k) as [c|] eqn:Hc; [|done].
    apply Hex in Hc. congruence. }
  destruct ev as [ns db|q r|q]; cbn.
  - intros [= <-]. unfold getConnection.
    destruct (decide (keyOf ns db = k)) as [->|Hk].
    + rewrite Hnone, Hp. cbn. split; [done|]. split; [done|].
      eexists. split; [done|]. by intros y [= ->]%list_elem_of_singleton.
    + assert (Hrest : forall x, forall r, (k, r) ∈ [(keyOf ns db, x)] -> r = Shared p).
      { intros x y [= ? ?]%list_elem_of_singleton. congruence. }
      destruct (connections st !! keyOf ns db);
        [|destruct (connecting st !! keyOf ns db)]; cbn.
      * split; [done|]. split; [done|]. eauto.
      * split; [done|]. split; [done|]. eauto.
      * split; [by rewrite lookup_insert_ne|]. split; [|eauto].
        unfold connects. cbn. rewrite count_app. cbn. unfold forKey. cbn.
        rewrite bool_decide_eq_false_2 by done. lia.
  - unfold createConnectionSettled.
    destruct (attempts st !! q) as [[ns db k0 [| |] []]|] eqn:Hq; try done.
    intros [= <-]. cbn. split; [done|]. split.
    + unfold connects. cbn. by apply (count_insert_same _ _ _ _ _ Hq).
    + exists []. split; [by rewrite app_nil_r|]. by intros y ?%elem_of_nil.
  - unfold getConnectionResumed.
    destruct (attempts st !! q) as [[ns db k0 pr []]|] eqn:Hq;
      [by destruct pr| |done].
    assert (Hk : k0 <> k).
    { intros ->. assert (connecting st !! k = Some q) as Hq'
        by (apply Hing; eauto). congruence. }
    assert (Hsame : forall new, key new = k0 ->
              connects (mkState (connections st) (connecting st)
                                (<[q := new]> (attempts st)) (returned st)) k
              = connects st k).
    { intros new Hnew. unfold connects. cbn.
      apply (count_insert_same _ _ _ _ _ Hq). unfold forKey. by rewrite Hnew. }
    destruct pr as [| |e]; [done| |]; intros [= <-]; cbn.
    + split; [by rewrite lookup_delete_ne|].
      split; [by apply (Hsame (mkAttempt ns db k0 Fulfilled true))|].
      exists []. split; [by rewrite app_nil_r|]. by intros y ?%elem_of_nil.
    + split; [by rewrite lookup_delete_ne|].
      split; [by apply (Hsame (mkAttempt ns db k0 (Rejected e) true))|].
      exists []. split; [by rewrite app_nil_r|]. by intros y ?%elem_of_nil.
Qed.

Lemma run_in_flight (tr : list Event) (st st' : State) (k : string) (p : nat) :
  Inv st -> connecting st !! k = Some p -> Resume p ∉ tr ->
  run st tr = Some st' ->
  connecting st' !! k = Some p /\
  connects st' k = connects st k /\
  exists rest, returned st' = returned st ++ rest /\
               forall r, (k, r) ∈ rest -> r = Shared p.
Proof.
  revert st. induction tr as [|ev tr IH]; intros st Hinv Hp Htr; cbn.
  - intros [= <-]. split; [done|]. split; [done|].
    exists []. split; [by rewrite app_nil_r|]. by intros y ?%elem_of_nil.
  - destruct (step st ev) as [st1|] eqn:Hstep; [|done]. intros Hrun.
    apply not_elem_of_cons in Htr as [Hev Htr].
    destruct (step_in_flight st st1 ev k p Hinv Hp (not_eq_sym Hev) Hstep)
      as (Hp1 & Hc1 & rest1 & Hr1 & Hs1).
    destruct (IH st1 (step_Inv _ _ _ Hinv Hstep) Hp1 Htr Hrun)
      as (Hp2 & Hc2 & rest2 & Hr2 & Hs2).
    split; [done|]. split; [congruence|].
    exists (rest1 ++ rest2). split; [by rewrite Hr2, Hr1, app_assoc|].
    intros y [?|?]%elem_of_app; eauto.
Qed.

(** *** Calls after a success *)

Lemma step_cached (st st' : State) (ev : Event) (k : string) (c : nat) :
  Inv st -> connections st !! k = Some c ->
  step st ev = Some st' ->
  connections st' !! k = Some c /\
  connects st' k = connects st k /\
  exists rest, returned st' = returned st ++ rest /\
               forall r, (k, r) ∈ rest -> r = Hit c.
Proof.
  intros Hinv Hc. pose proof Hinv as [Hing Hions Hset Hex Hret].
  destruct ev as [ns db|q r|q]; cbn.
  - intros [= <-]. unfold getConnection.
    destruct (decide (keyOf ns db = k)) as [->|Hk].
    + rewrite Hc. cbn. split; [done|]. split; [done|].
      eexists. split; [done|]. by intros y [= ->]%list_elem_of_singleton.
    + assert (Hrest : forall x, forall r, (k, r) ∈ [(keyOf ns db, x)] -> r = Hit c).
      { intros x y [= ? ?]%list_elem_of_singleton. congruence. }
      destruct (connections st !! keyOf ns db);
        [|destruct (connecting st !! keyOf ns db)]; cbn.
      * split; [done|]. split; [done|]. eauto.
      * split; [done|]. split; [done|]. eauto.
      * split; [done|]. split; [|eauto].
        unfold connects. cbn. rewrite count_app. cbn. unfold forKey. cbn.
        rewrite bool_decide_eq_false_2 by done. lia.
  - unfold createConnectionSettled.
    destruct (attempts st !! q) as [[ns db k0 [| |] []]|] eqn:Hq; try done.
    intros [= <-]. cbn. split; [done|]. split.
    + unfold connects. cbn. by apply (count_insert_same _ _ _ _ _ Hq).
    + exists []. split; [by rewrite app_nil_r|]. by intros y ?%elem_of_nil.
  - unfold getConnectionResumed.
    destruct (attempts st !! q) as [[ns db k0 pr []]|] eqn:Hq;
      [by destruct pr| |done].
    assert (Hk : k0 <> k).
    { intros ->. assert (connecting st !! k = Some q) as Hq'
        by (apply Hing; eauto). apply Hex in Hc. congruence. }
    assert (Hsame : forall new, key new = k0 ->
              count (forKey k) (<[q := new]> (attempts st))
              = count (forKey k) (attempts st)).
    { intros new Hnew.
      apply (count_insert_same _ _ _ _ _ Hq). unfold forKey. by rewrite Hnew. }
    destruct pr as [| |e]; [done| |]; intros [= <-]; cbn.
    + split; [by rewrite lookup_insert_ne|]. split; [by apply Hsame|].
      exists []. split; [by rewrite app_nil_r|]. by intros y ?%elem_of_nil.
    + split; [done|]. split; [by apply Hsame|].
      exists []. split; [by rewrite app_nil_r|]. by intros y ?%elem_of_nil.
Qed.

Lemma run_cached (tr : list Event) (st st' : State) (k : string) (c : nat) :
  Inv st -> connections st !! k = Some c ->
  run st tr = Some st' ->
  connections st' !! k = Some c /\
  connects st' k = connects st k /\
  exists rest, returned st' = returned st ++ rest /\
               forall r, (k, r) ∈ rest -> r = Hit c.
Proof.
  revert st. induction tr as [|ev tr IH]; intros st Hinv Hc; cbn.
  - intros [= <-]. split; [done|]. split; [done|].
    exists []. split; [by rewrite app_nil_r|]. by intros y ?%elem_of_nil.
  - destruct (step st ev) as [st1|] eqn:Hstep; [|done]. intros Hrun.
    destruct (step_cached st st1 ev k c Hinv Hc Hstep)
      as (Hc1 & Hn1 & rest1 & Hr1 & Hs1).
    destruct (IH st1 (step_Inv _ _ _ Hinv Hstep) Hc1 Hrun)
      as (Hc2 & Hn2 & rest2 & Hr2 & Hs2).
    split; [done|]. split; [congruence|].
    exists (rest1 ++ rest2). split; [by rewrite Hr2, Hr1, app_assoc|].
    intros y [?|?]%elem_of_app; eauto.
Qed.

(** *** What the callers get *)

(** When the promise of attempt [p] settles and its creator resumes, the
    creator and whoever shares the promise get the same: the connection of
    the attempt, or the error it was rejected with. *)
Lemma settled_for_all (st st1 st2 : State) (p : nat) (r : option Exn) :
  createConnectionSettled p r st = Some st1 -> getConnectionResumed p st1 = Some st2 ->
  outcome st2 (Own p) = outcome st2 (Shared p) /\
  outcome st2 (Shared p)
    = Some (match r with None => inr p | Some e => inl e end).
Proof.
  unfold createConnectionSettled, getConnectionResumed.
  destruct (attempts st !! p) as [[ns db k0 [| |] []]|] eqn:Hp; try done.
  pose proof (lookup_lt_Some _ _ _ Hp) as Hlt.
  intros [= <-]. cbn. rewrite list_lookup_insert_eq by done.
  destruct r as [e|]; intros [= <-]; cbn;
    rewrite list_lookup_insert_eq by (by rewrite length_insert); done.
Qed.

(** A promise settles once: what a caller got, it keeps. *)
Lemma outcome_stable (st st' : State) (ev : Event) (r : Returned) (o : Exn + nat) :
  step st ev = Some st' -> outcome st r = Some o -> outcome st' r = Some o.
Proof.
  destruct ev as [ns db|q x|q]; cbn.
  - intros [= <-]. unfold getConnection.
    assert (Hkeep : forall new,
      outcome st r = Some o ->
      outcome (mkState (connections st)
                       (<[keyOf ns db := length (attempts st)]> (connecting st))
                       (attempts st ++ [new])
                       (returned st ++ [(keyOf ns db, Own (length (attempts st)))])) r
      = Some o).
    { intros new. destruct r as [c|p|p]; cbn; [done| |].
      - destruct (attempts st !! p) as [a|] eqn:Ha; [|done].
        by rewrite (lookup_app_l_Some _ _ _ _ Ha).
      - destruct (attempts st !! p) as [a|] eqn:Ha; [|done].
        by rewrite (lookup_app_l_Some _ _ _ _ Ha). }
    destruct (connections st !! keyOf ns db);
      [|destruct (connecting st !! keyOf ns db)]; [by destruct r..|apply Hkeep].
  - unfold createConnectionSettled.
    destruct (attempts st !! q) as [[ns db k0 [| |] []]|] eqn:Hq; try done.
    intros [= <-]. destruct r as [c|p|p]; cbn; [done| |].
    + destruct (decide (q = p)) as [->|Hne].
      * by rewrite Hq.
      * by rewrite list_lookup_insert_ne.
    + destruct (decide (q = p)) as [->|Hne].
      * by rewrite Hq.
      * by rewrite list_lookup_insert_ne.
  - unfold getConnectionResumed.
    destruct (attempts st !! q) as [[ns db k0 pr []]|] eqn:Hq;
      [by destruct pr| |done].
    pose proof (lookup_lt_Some _ _ _ Hq) as Hlt.
    destruct pr as [| |e]; [done| |]; intros [= <-];
      destruct r as [c|p|p]; cbn; try done;
      (destruct (decide (q = p)) as [->|Hne];
       [rewrite Hq, list_lookup_insert_eq by done; done
       |by rewrite list_lookup_insert_ne]).
Qed.

(** A key that was called for has had a connect. *)
Lemma called_connected (st : State) (k : string) (r : Returned) :
  Inv st -> (k, r) ∈ returned st -> 1 <= connects st k.
Proof.
  intros Hinv Hin. destruct (inv_returned st Hinv k r Hin) as (a & Ha & Hk).
  apply (count_pos _ _ _ a Ha). unfold forKey. by rewrite bool_decide_eq_true_2.
Qed.

(** A rejected attempt whose creator has resumed has left neither a
    promise nor a connection: the next call for the key connects again. *)
Lemma rejected_then_retried (st : State) (p : nat) (e : Exn)
    (st1 st2 : State) (ns db : string) :
  Inv st -> connecting st !! keyOf ns db = Some p ->
  createConnectionSettled p (Some e) st = Some st1 ->
  getConnectionResumed p st1 = Some st2 ->
  connecting st2 !! keyOf ns db = None /\
  connections st2 !! keyOf ns db = None /\
  failed st2 (keyOf ns db) = failed st (keyOf ns db) + 1 /\
  let q := length (attempts st2) in
  connecting (getConnection ns db st2) !! keyOf ns db = Some q /\
  connects (getConnection ns db st2) (keyOf ns db)
    = connects st (keyOf ns db) + 1 /\
  returned (getConnection ns db st2)
    = returned st2 ++ [(keyOf ns db, Own q)].
Proof.
  intros Hinv Hp. set (k := keyOf ns db) in *.
  assert (Hfree : connections st !! k = None).
  { destruct (connections st !! k) as [c|] eqn:Hc; [|done].
    rewrite (inv_exclusive st Hinv k c Hc) in Hp. done. }
  apply (inv_connecting st Hinv) in Hp as (a & Ha & Hk & Hr).
  unfold createConnectionSettled. rewrite Ha.
  destruct a as [ns0 db0 k0 pr r0]. cbn in Hk, Hr. subst k0 r0.
  destruct pr as [| |e0]; try done. intros [= <-].
  pose proof (lookup_lt_Some _ _ _ Ha) as Hlt.
  unfold getConnectionResumed. cbn.
  rewrite list_lookup_insert_eq by done. intros [= <-]. cbn.
  rewrite list_insert_insert_eq.
  assert (Hgone : delete k (connecting st) !! k = None) by apply lookup_delete_eq.
  split; [done|]. split; [done|].
  assert (Hfailed : failed (mkState (connections st) (delete k (connecting st))
                      (<[p := mkAttempt ns0 db0 k (Rejected e) true]> (attempts st))
                      (returned st)) k = failed st k + 1).
  { unfold failed. cbn [attempts].
    pose proof (count_insert
      (fun a => forKey k a && resumed a && isRejected (promise a))
      (attempts st) p _ (mkAttempt ns0 db0 k (Rejected e) true) Ha) as Hcnt.
    cbn in Hcnt. unfold forKey in Hcnt. cbn in Hcnt.
    rewrite bool_decide_eq_true_2 in Hcnt by done. cbn in Hcnt.
    rewrite ?andb_false_r in Hcnt. cbn in Hcnt. unfold forKey. lia. }
  split; [exact Hfailed|].
  unfold getConnection. cbn. fold k. rewrite Hfree, Hgone. cbn.
  split; [by rewrite lookup_insert_eq|]. split; [|done].
  unfold connects. cbn. rewrite count_app. cbn. unfold forKey at 2. cbn.
  rewrite bool_decide_eq_true_2 by done.
  rewrite (count_insert_same _ _ _ _ _ Ha); [lia|done].
Qed.

(** C1, as the code has it. In every state the manager reaches through
    calls of [getConnection], settled promises and resumed callers, in any
    order and for any keys: at most one attempt for a key is in progress;
    the connects made for the key are one for each attempt that failed and
    was cleared, plus one if an attempt is in progress or a connection is
    cached, which never holds of both; so a key that was called for and
    had no failure has had exactly one connect. A call that finds neither
    a connection nor a promise starts an attempt, and, until its creator
    resumes, every call for the key gets that attempt's promise and makes
    no connect. When the promise settles and the creator resumes, creator
    and sharers get the same connection or the same error. Once a
    connection is cached, every later call for the key gets it and makes
    no connect. When the promise is rejected and the creator resumes, the
    [catch] branch has removed the key from [connecting] and nothing is
    cached, so that the next call for the key starts a new attempt: one
    more connect. The registry holds the key exactly while an attempt for
    it is in progress. *)
Theorem one_attempt_per_key (tr : list Event) (st : State) (k : string) :
  run init tr = Some st ->
  inProgress st k <= 1 /\
  connects st k = failed st k + inProgress st k + cached st k /\
  inProgress st k + cached st k <= 1 /\
  ((exists r, (k, r) ∈ returned st) -> failed st k = 0 -> connects st k = 1) /\
  (forall ns db,
     k = keyOf ns db -> connections st !! k = None -> connecting st !! k = None ->
     let p := length (attempts st) in
     connecting (getConnection ns db st) !! k = Some p /\
     connects (getConnection ns db st) k = connects st k + 1 /\
     returned (getConnection ns db st) = returned st ++ [(k, Own p)]) /\
  (forall p tr' st',
     connecting st !! k = Some p -> Resume p ∉ tr' -> run st tr' = Some st' ->
     connects st' k = connects st k /\
     exists rest, returned st' = returned st ++ rest /\
                  forall r, (k, r) ∈ rest -> r = Shared p) /\
  (forall p r st1 st2,
     createConnectionSettled p r st = Some st1 -> getConnectionResumed p st1 = Some st2 ->
     outcome st2 (Own p) = outcome st2 (Shared p) /\
     outcome st2 (Shared p)
       = Some (match r with None => inr p | Some e => inl e end)) /\
  (forall c tr' st',
     connections st !! k = Some c -> run st tr' = Some st' ->
     connections st' !! k = Some c /\
     connects st' k = connects st k /\
     exists rest, returned st' = returned st ++ rest /\
                  forall r, (k, r) ∈ rest -> r = Hit c) /\
  (forall p e st1 st2 ns db,
     k = keyOf ns db -> connecting st !! k = Some p ->
     createConnectionSettled p (Some e) st = Some st1 ->
     getConnectionResumed p st1 = Some st2 ->
     connecting st2 !! k = None /\ connections st2 !! k = None /\
     failed st2 k = failed st k + 1 /\
     let q := length (attempts st2) in
     connecting (getConnection ns db st2) !! k = Some q /\
     connects (getConnection ns db st2) k = connects st k + 1 /\
     returned (getConnection ns db st2) = returned st2 ++ [(k, Own q)]) /\
  (connecting st !! k = None <-> inProgress st k = 0).
Proof.
  intros Hrun.
  assert (Hinv : Inv st) by (apply reachable_Inv; by exists tr).
  destruct (connects_counted st k Hinv) as [Hcount Hone].
  split; [lia|]. split; [done|]. split; [done|].
  split; [|split; [|split; [|split; [|split; [|split]]]]].
  - intros [r Hr] Hfailed. pose proof (called_connected st k r Hinv Hr). lia.
  - intros ns db -> Hnone Hfree p. unfold getConnection. rewrite Hnone, Hfree. cbn.
    split; [by rewrite lookup_insert_eq|]. split; [|done].
    unfold connects. cbn. rewrite count_app. cbn. unfold forKey. cbn.
    by rewrite bool_decide_eq_true_2.
  - intros p tr' st' Hp Htr' Hrun'.
    by destruct (run_in_flight tr' st st' k p Hinv Hp Htr' Hrun') as (_ & ? & ?).
  - intros p r st1 st2. apply settled_for_all.
  - intros c tr' st'. by apply run_cached.
  - intros p e st1 st2 ns db -> Hp Hsettle Hresume.
    by apply (rejected_then_retried st p e st1 st2 ns db).
  - rewrite inProgress_registered by done.
    by destruct (connecting st !! k).
Qed.

End ManagerFacts.

(** ** The manager's keys and its statistics *)

Section ManagerStats.

Import Js Manager.

(** *** One key, one database *)

Lemma includes_cons (c : ascii) (s p : string) :
  Text.includes (String c s) p = false -> Text.includes s p = false.
Proof. cbn [Text.includes]. intros H. by apply orb_false_elim in H as [_ H]. Qed.

Lemma keyOf_inj (ns ns' db db' : string) :
  Text.includes ns ":" = false -> Text.includes ns' ":" = false ->
  keyOf ns db = keyOf ns' db' -> ns = ns' /\ db = db'.
Proof.
  unfold keyOf. revert ns'.
  induction ns as [|c ns IH]; intros [|c' ns'] Hns Hns' Heq.
  - by injection Heq.
  - injection Heq as <- _. discriminate Hns'.
  - injection Heq as -> _. discriminate Hns.
  - injection Heq as <- Heq.
    destruct (IH ns' (includes_cons _ _ _ Hns) (includes_cons _ _ _ Hns') Heq)
      as [-> ->].
    done.
Qed.

Lemma step_wellKeyed (st st' : State) (ev : Event) :
  match ev with Call ns _ => Text.includes ns ":" = false | _ => True end ->
  wellKeyed st -> step st ev = Some st' -> wellKeyed st'.
Proof.
  intros Hev Hst. destruct ev as [ns db|p r|p]; cbn.
  - intros [= <-]. unfold getConnection.
    destruct (connections st !! keyOf ns db); [exact Hst|].
    destruct (connecting st !! keyOf ns db); [exact Hst|].
    intros q a. cbn. intros Hq.
    apply lookup_app_Some in Hq as [Hq|[_ Hq]]; [exact (Hst _ _ Hq)|].
    apply list_lookup_singleton_Some in Hq as [_ <-]. by cbn.
  - unfold createConnectionSettled.
    destruct (attempts st !! p) as [[ns db k [| |e] []]|] eqn:Hp; try done.
    intros [= <-] q a. cbn. intros Hq.
    destruct (decide (q = p)) as [->|Hne].
    + rewrite list_lookup_insert_eq in Hq by (by eapply lookup_lt_Some).
      injection Hq as <-. exact (Hst p _ Hp).
    + rewrite list_lookup_insert_ne in Hq by done. exact (Hst _ _ Hq).
  - unfold getConnectionResumed.
    destruct (attempts st !! p) as [[ns db k [| |e] []]|] eqn:Hp; try done.
    all: intros [= <-] q a; cbn; intros Hq.
    all: destruct (decide (q = p)) as [->|Hne];
      [rewrite list_lookup_insert_eq in Hq by (by eapply lookup_lt_Some);
       injection Hq as <-; exact (Hst p _ Hp)
      |rewrite list_lookup_insert_ne in Hq by done; exact (Hst _ _ Hq)].
Qed.

Lemma run_wellKeyed (tr : list Event) (st st' : State) :
  Forall (fun ev => match ev with
                    | Call ns _ => Text.includes ns ":" = false
                    | _ => True
                    end) tr ->
  wellKeyed st -> run st tr = Some st' -> wellKeyed st'.
Proof.
  revert st. induction tr as [|ev tr IH]; intros st Hall Hst; cbn.
  - by intros [= <-].
  - apply Forall_cons in Hall as [Hev Hall].
    destruct (step st ev) as [st1|] eqn:Hstep; [|done].
    apply IH; [done|]. by eapply step_wellKeyed.
Qed.

(** X2. When no call of [getConnection] has a colon in its namespace,
    nothing is shared between databases: the promise or connection that a
    call for the namespace [ns] and the database [db] got comes from a run
    of [createConnection] for that namespace and that database, and so does
    the connection cached under their key. *)
Theorem connection_serves_requested_database
    (tr : list Event) (st : State) (ns db : string) :
  run init tr = Some st ->
  Forall (fun ev => match ev with
                    | Call ns' _ => Text.includes ns' ":" = false
                    | _ => True
                    end) tr ->
  Text.includes ns ":" = false ->
  (forall r, (keyOf ns db, r) ∈ returned st ->
     exists a, attempts st !! source r = Some a /\
               namespace a = ns /\ database a = db) /\
  (forall c, connections st !! keyOf ns db = Some c ->
     exists a, attempts st !! c = Some a /\
               namespace a = ns /\ database a = db /\ promise a = Fulfilled).
Proof.
  intros Hrun Hall Hns.
  assert (Hinv : Inv st) by (apply reachable_Inv; by exists tr).
  assert (Hkeyed : wellKeyed st).
  { eapply run_wellKeyed; [exact Hall| |exact Hrun]. intros p a. cbn. by rewrite lookup_nil. }
  split.
  - intros r Hr. destruct (inv_returned st Hinv _ _ Hr) as (a & Ha & Hk).
    exists a. split; [exact Ha|].
    destruct (Hkeyed _ _ Ha) as [Hkey Hfree]. rewrite Hkey in Hk.
    by apply keyOf_inj in Hk.
  - intros c Hc. apply (inv_connections st Hinv) in Hc as (a & Ha & Hk & _ & Hp).
    exists a. split; [exact Ha|].
    destruct (Hkeyed _ _ Ha) as [Hkey Hfree]. rewrite Hkey in Hk.
    apply keyOf_inj in Hk as [? ?]; done.
Qed.

(** *** What [getStats] counts *)

Lemma size_delete_present (m : gmap string nat) (k : string) (p : nat) :
  m !! k = Some p -> S (size (delete k m)) = size m.
Proof.
  intros Hk. rewrite <- (insert_delete_id m k p Hk) at 2.
  by rewrite map_size_insert_None by apply lookup_delete_eq.
Qed.

Lemma step_accounted (st st' : State) (ev : Event) :
  Inv st -> accounted st -> step st ev = Some st' -> accounted st'.
Proof.
  intros Hinv [Hc Hg]. destruct ev as [ns db|p r|p]; cbn.
  - intros [= <-]. unfold getConnection.
    destruct (connections st !! keyOf ns db); [by split|].
    destruct (connecting st !! keyOf ns db) eqn:Hk; [by split|].
    split; cbn.
    + rewrite count_app. cbn. lia.
    + rewrite map_size_insert_None by done. rewrite count_app. cbn. lia.
  - unfold createConnectionSettled.
    destruct (attempts st !! p) as [[ns db k [| |e] []]|] eqn:Hp; try done.
    intros [= <-]. split; cbn.
    + by rewrite (count_insert_same _ _ _ _ _ Hp).
    + by rewrite (count_insert_same _ _ _ _ _ Hp).
  - unfold getConnectionResumed.
    destruct (attempts st !! p) as [[ns db k [| |e] []]|] eqn:Hp; try done.
    + assert (Hing : connecting st !! k = Some p).
      { apply (inv_connecting st Hinv). by eexists. }
      assert (Hions : connections st !! k = None).
      { destruct (connections st !! k) as [c|] eqn:Hck; [|done].
        apply (inv_exclusive st Hinv) in Hck. by rewrite Hck in Hing. }
      intros [= <-]. split; cbn.
      * rewrite map_size_insert_None by done.
        pose proof (count_insert (fun a => resumed a && negb (isRejected (promise a)))
                      _ _ _ (mkAttempt ns db k Fulfilled true) Hp) as H.
        cbn in H. lia.
      * pose proof (count_insert (fun a => negb (resumed a))
                      _ _ _ (mkAttempt ns db k Fulfilled true) Hp) as H.
        cbn in H. pose proof (size_delete_present (connecting st) k p Hing). lia.
    + assert (Hing : connecting st !! k = Some p).
      { apply (inv_connecting st Hinv). by eexists. }
      intros [= <-]. split; cbn.
      * by rewrite (count_insert_same _ _ _ _ _ Hp).
      * pose proof (count_insert (fun a => negb (resumed a))
                      _ _ _ (mkAttempt ns db k (Rejected e) true) Hp) as H.
        cbn in H. pose proof (size_delete_present (connecting st) k p Hing). lia.
Qed.

Lemma run_accounted (tr : list Event) (st st' : State) :
  Inv st -> accounted st -> run st tr = Some st' -> accounted st'.
Proof.
  revert st. induction tr as [|ev tr IH]; intros st Hinv Hacc; cbn.
  - by intros [= <-].
  - destruct (step st ev) as [st1|] eqn:Hstep; [|done].
    apply IH; [by eapply step_Inv|by eapply step_accounted].
Qed.

(** X3. In every state the manager reaches by calls of [getConnection]
    and their completions, [getStats] accounts for every run of
    [createConnection]: [totalConnections] is the number of runs that
    succeeded and were cached, [connecting] the number of runs whose caller
    has not resumed, no key is counted under both, and with the runs that
    failed they add up to all the runs made. *)
Theorem getStats_counts_attempts (st : State) :
  reachable st ->
  let stats := getStats st in
  totalConnections stats
    = count (fun a => resumed a && negb (isRejected (promise a))) (attempts st) /\
  connectingNow stats = count (fun a => negb (resumed a)) (attempts st) /\
  size (databases stats) = totalConnections stats /\
  databases stats ## dom (connecting st) /\
  totalConnections stats + connectingNow stats
    + count (fun a => resumed a && isRejected (promise a)) (attempts st)
    = length (attempts st).
Proof.
  intros [tr Htr] stats.
  assert (Hinv : Inv st) by (apply reachable_Inv; by exists tr).
  destruct (run_accounted tr init st Inv_init (conj eq_refl eq_refl) Htr) as [Hc Hg].
  unfold stats, getStats. cbn.
  split; [exact Hc|]. split; [exact Hg|]. split; [apply size_dom|]. split.
  - apply elem_of_disjoint. intros k Hk1 Hk2.
    apply elem_of_dom in Hk1 as [c Hk1]. apply elem_of_dom in Hk2 as [p Hk2].
    apply (inv_exclusive st Hinv) in Hk1. by rewrite Hk1 in Hk2.
  - rewrite Hc, Hg. clear. induction (attempts st) as [|a l IH]; cbn; [done|].
    destruct (resumed a), (isRejected (promise a)); cbn; lia.
Qed.

End ManagerStats.

(** ** The manager with [shutdown] *)

Section LifecycleFacts.

Import Js Lifecycle.

Lemma Lifecycle_Inv_init : Inv init.
Proof.
  split; cbn.
  - intros k c. by rewrite lookup_empty.
  - intros c Hc. by apply not_elem_of_empty in Hc.
  - intros k c. by rewrite lookup_empty.
Qed.

Lemma Lifecycle_step_Inv (st st' : State) (ev : Event) :
  Inv st -> step st ev = Some st' -> Inv st'.
Proof.
  intros [Hopen Hclosed Hcached]. destruct ev as [[ns db|p r|p]| |]; cbn.
  - intros [= <-]. unfold Manager.getConnection.
    destruct (Manager.connections (manager st) !! Manager.keyOf ns db);
      [by split|].
    destruct (Manager.connecting (manager st) !! Manager.keyOf ns db);
      [by split|].
    split; cbn.
    + exact Hopen.
    + intros c Hc. destruct (Hclosed c Hc) as (a & Ha & Hr).
      exists a. split; [|done]. by apply lookup_app_l_Some.
    + intros k c Hc. destruct (Hcached k c Hc) as (a & Ha & Hr).
      exists a. split; [|done]. by apply lookup_app_l_Some.
  - unfold Manager.createConnectionSettled.
    destruct (Manager.attempts (manager st) !! p)
      as [[ns db k [| |e] []]|] eqn:Hp; try done.
    intros [= <-]. split; cbn.
    + exact Hopen.
    + intros c Hc. destruct (Hclosed c Hc) as (a & Ha & Hr).
      exists a. split; [|done]. rewrite list_lookup_insert_ne; [done|].
      intros <-. rewrite Hp in Ha. by injection Ha as <-.
    + intros k' c Hc. destruct (Hcached k' c Hc) as (a & Ha & Hr).
      exists a. split; [|done]. rewrite list_lookup_insert_ne; [done|].
      intros <-. rewrite Hp in Ha. by injection Ha as <-.
  - unfold Manager.getConnectionResumed.
    destruct (Manager.attempts (manager st) !! p)
      as [[ns db k [| |e] []]|] eqn:Hp; try done.
    + intros [= <-]. split; cbn.
      * intros k' c Hc Hin. destruct (decide (k' = k)) as [->|Hne].
        -- rewrite lookup_insert_eq in Hc. injection Hc as <-.
           destruct (Hclosed p Hin) as (a & Ha & Hr).
           rewrite Hp in Ha. by injection Ha as <-.
        -- rewrite lookup_insert_ne in Hc by done. by eapply Hopen.
      * intros c Hc. destruct (Hclosed c Hc) as (a & Ha & Hr).
        exists a. split; [|done]. rewrite list_lookup_insert_ne; [done|].
        intros <-. rewrite Hp in Ha. by injection Ha as <-.
      * intros k' c Hc. destruct (decide (c = p)) as [->|Hne].
        -- eexists. split; [apply list_lookup_insert_eq; by eapply lookup_lt_Some|].
           reflexivity.
        -- destruct (decide (k' = k)) as [->|Hk].
           { rewrite lookup_insert_eq in Hc. by injection Hc as <-. }
           rewrite lookup_insert_ne in Hc by done.
           destruct (Hcached k' c Hc) as (a & Ha & Hr).
           exists a. split; [|done]. by rewrite list_lookup_insert_ne.
    + intros [= <-]. split; cbn.
      * exact Hopen.
      * intros c Hc. destruct (Hclosed c Hc) as (a & Ha & Hr).
        exists a. split; [|done]. rewrite list_lookup_insert_ne; [done|].
        intros <-. rewrite Hp in Ha. by injection Ha as <-.
      * intros k' c Hc. destruct (Hcached k' c Hc) as (a & Ha & Hr).
        exists a. split; [|done]. rewrite list_lookup_insert_ne; [done|].
        intros <-. rewrite Hp in Ha. by injection Ha as <-.
  - intros [= <-]. unfold shutdown. split; cbn.
    + intros; lia.
    + intros c Hc. apply elem_of_union in Hc as [Hc|Hc]; [by apply Hclosed|].
      apply elem_of_map_img in Hc as [k Hk]. by eapply Hcached.
    + exact Hcached.
  - unfold shutdownResumed. destruct (closing st) as [|n] eqn:Hn; [done|].
    intros [= <-]. split; cbn.
    + intros k c. by rewrite lookup_empty.
    + exact Hclosed.
    + intros k c. by rewrite lookup_empty.
Qed.

Lemma Lifecycle_run_Inv (tr : list Event) (st st' : State) :
  Inv st -> run st tr = Some st' -> Inv st'.
Proof.
  revert st. induction tr as [|ev tr IH]; intros st Hinv; cbn.
  - by intros [= <-].
  - destruct (step st ev) as [st1|] eqn:Hstep; [|done].
    apply IH. by eapply Lifecycle_step_Inv.
Qed.

(** X12. When no [shutdown] is in progress, the cache holds no connection
    on which [shutdown] has called [close()]: a call of [getConnection]
    that finds its key in the cache returns a connection that no
    [shutdown] has closed. *)
Theorem cache_holds_no_closed_connection
    (tr : list Event) (st : State) (ns db : string) (c : nat) :
  run init tr = Some st ->
  closing st = 0 ->
  Manager.connections (manager st) !! Manager.keyOf ns db = Some c ->
  exists st', step st (Use (Manager.Call ns db)) = Some st' /\
    last (Manager.returned (manager st'))
      = Some (Manager.keyOf ns db, Manager.Hit c) /\
    c ∉ closed st'.
Proof.
  intros Hrun Hclosing Hc.
  pose proof (Lifecycle_run_Inv tr init st Lifecycle_Inv_init Hrun) as Hinv.
  eexists. split; [reflexivity|]. cbn. unfold Manager.getConnection. rewrite Hc. cbn.
  split; [by rewrite last_snoc|].
  intros Hin. pose proof (inv_open st Hinv _ _ Hc Hin). lia.
Qed.

(** X13. [shutdown] neither waits for nor cancels an attempt in flight:
    when a connection attempt has succeeded and its caller has not resumed
    while [shutdown] awaits, then after [shutdown] has cleared the maps and
    the caller resumes, the connection is in the cache, and [close()] was
    never called on it. *)
Theorem shutdown_leaves_attempts_in_flight
    (tr : list Event) (st : State) (p : nat) (a : Manager.Attempt) :
  run init tr = Some st ->
  0 < closing st ->
  Manager.attempts (manager st) !! p = Some a ->
  Manager.resumed a = false ->
  Manager.promise a = Manager.Fulfilled ->
  exists st', run st [ShutdownResume; Use (Manager.Resume p)] = Some st' /\
    closing st' = pred (closing st) /\
    Manager.connections (manager st') !! Manager.key a = Some p /\
    p ∉ closed st'.
Proof.
  intros Hrun Hclosing Hp Hres Hprom.
  pose proof (Lifecycle_run_Inv tr init st Lifecycle_Inv_init Hrun) as Hinv.
  destruct a as [ns db k pr res]. cbn in Hres, Hprom. subst pr res.
  cbn. unfold shutdownResumed.
  destruct (closing st) as [|n] eqn:Hn; [lia|].
  cbn. unfold Manager.getConnectionResumed. cbn. rewrite Hp.
  eexists. split; [reflexivity|]. cbn.
  split; [done|]. split; [by rewrite lookup_insert_eq|].
  intros Hin. destruct (inv_closed st Hinv p Hin) as (a & Ha & Hr).
  rewrite Hp in Ha. by injection Ha as <-.
Qed.

End LifecycleFacts.

(** ** Running programs *)

Section RunFacts.

Import Js Service.

Context {EN : Environment}.

Lemma run_bind {A B : Type} (p : Prog A) (f : A -> Prog B) (w : World) :
  run (p ≫= f) w =
  match run p w with
  | (inr a, w1, t1) => let '(r, w2, t2) := run (f a) w1 in (r, w2, t1 ++ t2)
  | (inl e, w1, t1) => (inl e, w1, t1)
  end.
Proof.
  revert w. induction p as [a|e|o k IH|lvl args k IH|key k IH]; intros w.
  - change (run (Ret a ≫= f) w) with (run (f a) w). cbn.
    by destruct (run (f a) w) as [[r w2] t2].
  - reflexivity.
  - change (run (Await o k ≫= f) w)
      with (let '(r, w1) := handle w o in
            let '(res, w2, t) := run (k r ≫= f) w1 in (res, w2, Did o :: t)).
    cbn. destruct (handle w o) as [r w1]. rewrite IH.
    destruct (run (k r) w1) as [[[e|a] w2] t2]; [done|].
    by destruct (run (f a) w2) as [[r' w3] t3].
  - change (run (Console lvl args k ≫= f) w)
      with (let '(res, w1, t) := run (k ≫= f) w in (res, w1, Said lvl args :: t)).
    cbn. rewrite IH.
    destruct (run k w) as [[[e|a] w2] t2]; [done|].
    by destruct (run (f a) w2) as [[r' w3] t3].
  - change (run (Cached key k ≫= f) w) with (run (k (cacheHas w key) ≫= f) w).
    cbn. apply IH.
Qed.

Lemma run_tryCatch {A : Type} (p : Prog A) (h : Exn -> Prog A) (w : World) :
  run (tryCatch p h) w =
  match run p w with
  | (inr a, w1, t1) => (inr a, w1, t1)
  | (inl e, w1, t1) => let '(r, w2, t2) := run (h e) w1 in (r, w2, t1 ++ t2)
  end.
Proof.
  revert w. induction p as [a|e|o k IH|lvl args k IH|key k IH]; intros w; cbn.
  - reflexivity.
  - by destruct (run (h e) w) as [[r w2] t2].
  - destruct (handle w o) as [r w1]. rewrite IH.
    destruct (run (k r) w1) as [[[e|a] w2] t2]; [|done].
    by destruct (run (h e) w2) as [[r' w3] t3].
  - rewrite IH.
    destruct (run k w) as [[[e|a] w2] t2]; [|done].
    by destruct (run (h e) w2) as [[r' w3] t3].
  - apply IH.
Qed.

Lemma run_await (o : Op) (w : World) :
  run (await o) w =
  match handle w o with
  | (inl e, w1) => (inl e, w1, [Did o])
  | (inr v, w1) => (inr v, w1, [Did o])
  end.
Proof. cbn. by destruct (handle w o) as [[e|v] w1]. Qed.

Lemma run_say (lvl : Level) (args : list LogArg) (w : World) :
  run (say lvl args) w = (inr tt, w, [Said lvl args]).
Proof. reflexivity. Qed.

End RunFacts.

(** ** Merging a setup outcome into the metadata *)

Section MergeFacts.

Import Js Service.


End MergeFacts.

(** ** The manager's existence check and the setup service *)

Section ServiceFacts.

Import Js Service.

Context {RT : Runtime} {EN : Environment}.

(** C10. [checkOrganizationDatabaseExists] always returns a boolean and
    never throws. When the manager has the connection of the key
    [needexcel_organization:org_<id>] cached it returns [true] and awaits
    nothing. Otherwise it first asks for the connection and then sends the
    introspection query; it returns [true] when both succeed and the
    response is not empty, and [false] when either throws. *)
Theorem databaseExists_reports (orgId : string) (w : World) :
  let database := "org_" +:+ orgId in
  let key := "needexcel_organization:" +:+ database in
  let check := checkOrganizationDatabaseExists orgId in
  (exists b : bool, result check w = inr b) /\
  (cacheHas w key = true -> run check w = (inr true, w, [])) /\
  (cacheHas w key = false ->
     head (trace check w) = Some (Did (GetConnection "needexcel_organization" database)) /\
     match handle w (GetConnection "needexcel_organization" database) with
     | (inl e, _) => result check w = inr false
     | (inr db, w1) =>
         trace check w !! 1 = Some (Did (Query db "INFO FOR DB;" [])) /\
         match handle w1 (Query db "INFO FOR DB;" []) with
         | (inl e, _) => result check w = inr false
         | (inr rows, _) =>
             result check w = inr (match rows with [] => false | _ => true end)
         end
     end).
Proof.
  intros database key check.
  unfold result, trace, check, checkOrganizationDatabaseExists.
  fold database. fold key.
  cbn [run].
  destruct (cacheHas w key) eqn:Hc.
  - split; [by exists true|]. split; [done|]. intros; discriminate.
  - rewrite run_tryCatch, run_bind,
      (run_await (GetConnection "needexcel_organization" database)).
    destruct (handle w (GetConnection "needexcel_organization" database))
      as [[e|db] w1] eqn:Hg.
    + cbn. split; [by exists false|]. split; [intros; discriminate|].
      intros _. split; done.
    + rewrite run_bind, (run_await (Query db "INFO FOR DB;" [])).
      destruct (handle w1 (Query db "INFO FOR DB;" [])) as [[e|rows] w2] eqn:Hq.
      * cbn. split; [by exists false|]. split; [intros; discriminate|].
        intros _. split; done.
      * cbn. split; [by eexists|]. split; [intros; discriminate|].
        intros _. split; [done|]. split; [done|]. by destruct rows.
Qed.

Lemma tryCatch_returns {A : Type} (p : Prog A) (h : Exn -> Prog A) (w : World) :
  (forall e w', exists a, result (h e) w' = inr a) ->
  exists a, result (tryCatch p h) w = inr a.
Proof.
  intros Hh. unfold result in *. rewrite run_tryCatch.
  destruct (run p w) as [[[e|a] w1] t1]; [|by exists a].
  destruct (Hh e w1) as [a Ha]. exists a.
  by destruct (run (h e) w1) as [[r w2] t2].
Qed.

(** [checkOrganizationSetup] returns a result in every environment. *)
Lemma checkOrganizationSetup_returns (organizationId : string) (w : World) :
  exists r, result (checkOrganizationSetup organizationId) w = inr r.
Proof.
  apply tryCatch_returns. intros e w'. eexists. reflexivity.
Qed.

(** C8. When the query for the organization's record gives no row,
    [checkOrganizationSetup] returns [isSetup = false], the status
    [pending] and the error text [Organization not found]; and it throws in
    no environment at all, whatever the store holds or the network does. *)
Theorem checkSetup_absent_is_pending (organizationId : string) (w : World) :
  let check := checkOrganizationSetup organizationId in
  (exists r, result check w = inr r) /\
  forall authDb w1 rows w2,
    handle w (GetConnection (MAIN_NS env) (MAIN_DB env)) = (inr authDb, w1) ->
    handle w1 (Query authDb "SELECT id, metadata FROM $orgId"
                     [("orgId", PRecordId (fullOrgId organizationId))])
      = (inr rows, w2) ->
    head rows = None \/ head rows = Some (JArr []) ->
    result check w =
      inr (mkCheckResult false (JStr ("org_" +:+ cleanOrgId organizationId))
                         (JStr "pending") (JStr "Organization not found") JUndefined)
    /\ Forall (fun o => match o with Said Error _ => False | _ => True end)
              (trace check w).
Proof.
  intros check. split; [apply checkOrganizationSetup_returns|].
  intros authDb w1 rows w2 Hconn Hquery Hrows.
  unfold result, trace, check, checkOrganizationSetup, getMainDB.
  rewrite run_tryCatch, run_bind,
    (run_await (GetConnection (MAIN_NS env) (MAIN_DB env))), Hconn.
  rewrite run_bind, (run_await (Query authDb _ _)), Hquery.
  destruct Hrows as [-> | ->]; cbn; (split; [done|]); repeat constructor.
Qed.


(** What a run of [updateOrganizationMetadata] does, by what the
    environment answers. *)
Lemma run_updateOrganizationMetadata
    (organizationId : string) (patch : gmap string JVal) (w : World) :
  let update := updateOrganizationMetadata organizationId patch in
  let connect := GetConnection (MAIN_NS env) (MAIN_DB env) in
  match handle w connect with
  | (inl e, w1) =>
      result update w = inl e /\ operations (trace update w) = [Did connect]
  | (inr authDb, w1) =>
      let select := selectMetadata authDb organizationId in
      match handle w1 select with
      | (inl e, w2) =>
          result update w = inl e /\
          operations (trace update w) = [Did connect; Did select]
      | (inr rows, w2) =>
          let write :=
            writeMetadata authDb organizationId
              (JSON_stringify (updatedMetadata (currentMetadataOf rows) patch)) in
          operations (trace update w) = [Did connect; Did select; Did write] /\
          match handle w2 write with
          | (inl e, w3) => run update w = (inl e, w3, trace update w)
          | (inr _, w3) => run update w = (inr tt, w3, trace update w)
          end
      end
  end.
Proof.
  intros update connect.
  unfold result, trace, update, updateOrganizationMetadata, getMainDB.
  rewrite run_tryCatch, run_bind, (run_await connect).
  destruct (handle w connect) as [[e|authDb] w1]; [done|].
  rewrite run_bind, run_say, run_bind.
  rewrite (run_await (Query authDb _ _)).
  fold (selectMetadata authDb organizationId).
  destruct (handle w1 (selectMetadata authDb organizationId)) as [[e|rows] w2]; [done|].
  rewrite run_bind, run_say, run_bind, run_say, run_bind.
  rewrite (run_await (Query authDb _ _)).
  fold (writeMetadata authDb organizationId
          (JSON_stringify (updatedMetadata (currentMetadataOf rows) patch))).
  destruct (handle w2 (writeMetadata authDb organizationId _)) as [[e|v] w3]; done.
Qed.


(** The runs of [setupOrganizationDatabase], by how its steps end. *)
Lemma run_setupOrganizationDatabase
    (timestamp organizationId organizationType : string) (w : World) :
  let banner := setupBanner organizationId organizationType in
  run (setupOrganizationDatabase timestamp organizationId organizationType) w =
  if validType organizationType then
    match run (createOrganizationDatabase (cleanOrgId organizationId)
                 organizationType) w with
    | (inl e, w1, t1) =>
        caught timestamp organizationId organizationType e w1 (banner :: t1)
    | (inr _, w1, t1) =>
        let said :=
          Said Log [Val (JObj {[ "organizationId" := JStr organizationId;
                                 "b" := JObj (completedPatch organizationId
                                                organizationType timestamp) ]})] in
        match run (updateOrganizationMetadata organizationId
                     (completedPatch organizationId organizationType timestamp)) w1 with
        | (inl e, w2, t2) =>
            caught timestamp organizationId organizationType e w2
                   (banner :: t1 ++ said :: t2)
        | (inr _, w2, t2) =>
            (inr (mkSetupResult true ("org_" +:+ cleanOrgId organizationId)
                                organizationType None timestamp),
             w2,
             banner :: t1 ++ said :: t2 ++
               [Said Log [Txt ("✓ Successfully set up database for organization: "
                               +:+ cleanOrgId organizationId)]])
        end
    end
  else
    caught timestamp organizationId organizationType
           (JsError (invalidTypeMessage organizationType)) w [banner].
Proof.
  intros banner. unfold setupOrganizationDatabase, caught.
  rewrite run_tryCatch, run_bind, run_say.
  assert (Hcatch : forall e w1 before,
    (let '(r, w2, t2) :=
       run (_ ← say Error
                  [Txt ("✗ Failed to setup database for organization "
                        +:+ cleanOrgId organizationId +:+ ":"); Err e];
            _ ← tryCatch
                  (_ ← say Log
                         [Val (JObj {[ "organizationId" := JStr organizationId;
                                       "a" := JObj (failedPatch (errorMessage e)
                                                      timestamp) ]})];
                   updateOrganizationMetadata organizationId
                     (failedPatch (errorMessage e) timestamp))
                  (fun metadataError =>
                     say Error [Txt "Failed to update organization metadata:";
                                Err metadataError]);
            Ret (mkSetupResult false ("org_" +:+ cleanOrgId organizationId)
                   organizationType (Some (errorMessage e)) timestamp)) w1 in
     (r, w2, before ++ t2)) =
    (let '(r, w2, t2) :=
       run (updateOrganizationMetadata organizationId
              (failedPatch (errorMessage e) timestamp)) w1 in
     (inr (failure timestamp organizationId organizationType (errorMessage e)),
      w2, before ++ catchTrace timestamp organizationId e r t2))).
  { intros e w1 before. rewrite run_bind, run_say, run_bind, run_tryCatch,
      run_bind, run_say. unfold catchTrace.
    destruct (run (updateOrganizationMetadata organizationId
                     (failedPatch (errorMessage e) timestamp)) w1)
      as [[[e'|[]] w2] t2]; cbn.
    - by rewrite app_nil_r.
    - by rewrite !app_nil_r. }
  destruct (validType organizationType); cbn [negb].
  - rewrite run_bind. cbn [run]. rewrite run_bind.
    destruct (run (createOrganizationDatabase (cleanOrgId organizationId)
                     organizationType) w) as [[[e|v] w1] t1].
    + apply (Hcatch e w1 (banner :: t1)).
    + rewrite run_bind, run_say, run_bind.
      destruct (run (updateOrganizationMetadata organizationId
                       (completedPatch organizationId organizationType timestamp)) w1)
        as [[[e|[]] w2] t2].
      * apply (Hcatch e w2).
      * rewrite run_bind, run_say. reflexivity.
  - rewrite run_bind. cbn [run]. apply (Hcatch _ w [banner]).
Qed.

Lemma operations_app (t1 t2 : list Obs) :
  operations (t1 ++ t2) = operations t1 ++ operations t2.
Proof. apply filter_app. Qed.

Lemma operations_said (lvl : Level) (args : list LogArg) (t : list Obs) :
  operations (Said lvl args :: t) = operations t.
Proof. reflexivity. Qed.

Lemma operations_did (o : Op) (t : list Obs) :
  operations (Did o :: t) = Did o :: operations t.
Proof. reflexivity. Qed.

Lemma Forall_operations (P : Obs -> Prop) (t : list Obs) :
  (forall lvl args, P (Said lvl args)) ->
  Forall P (operations t) -> Forall P t.
Proof.
  intros Hsaid. induction t as [|[o|lvl args] t IH].
  - done.
  - rewrite operations_did. intros Ht. apply Forall_cons in Ht as [??].
    constructor; auto.
  - rewrite operations_said. constructor; auto.
Qed.

(** The operations of [createOrganizationDatabase]: it reads the schema
    file and, if that succeeds, posts the script made from it. *)
Lemma operations_createOrganizationDatabase (orgId orgType : string) (w : World) :
  let database := "org_" +:+ orgId in
  let schemaFile :=
    if String.eqb orgType "retail" then "schema-retail.surql"
    else "schema-restaurant.surql" in
  let create := createOrganizationDatabase orgId orgType in
  match handle w (ReadFile (inCwd schemaFile)) with
  | (inl e, _) =>
      result create w = inl e /\
      operations (trace create w) = [Did (ReadFile (inCwd schemaFile))]
  | (inr schemaContent, w1) =>
      let post :=
        HttpPost httpUrl (schemaScript database schemaContent)
                 (schemaHeaders database) in
      operations (trace create w) = [Did (ReadFile (inCwd schemaFile)); Did post] /\
      match handle w1 post with
      | (inl e, _) => result create w = inl e
      | (inr v, _) => result create w = inr v
      end
  end.
Proof.
  intros database schemaFile create.
  unfold result, trace, create, createOrganizationDatabase.
  fold database. fold schemaFile.
  rewrite run_tryCatch, run_bind, run_say, run_bind,
    (run_await (ReadFile (inCwd schemaFile))).
  destruct (handle w (ReadFile (inCwd schemaFile))) as [[e|schemaContent] w1].
  - rewrite run_bind. by destruct e.
  - rewrite run_bind, (run_await (HttpPost _ _ _)).
    destruct (handle w1 (HttpPost httpUrl (schemaScript database schemaContent)
                           (schemaHeaders database))) as [[e|v] w2].
    + rewrite run_bind. by destruct e.
    + done.
Qed.

(** [updateOrganizationMetadata] reads no file and posts nothing. *)
Lemma operations_updateOrganizationMetadata
    (organizationId : string) (patch : gmap string JVal) (w : World) :
  Forall (fun o => match o with
                   | Did (GetConnection _ _) | Did (Query _ _ _) => True
                   | _ => False
                   end)
         (operations (trace (updateOrganizationMetadata organizationId patch) w)).
Proof.
  pose proof (run_updateOrganizationMetadata organizationId patch w) as Hrun.
  cbn zeta in Hrun.
  destruct (handle w (GetConnection (MAIN_NS env) (MAIN_DB env)))
    as [[e|authDb] w1].
  - destruct Hrun as [_ ->]. by repeat constructor.
  - destruct (handle w1 (selectMetadata authDb organizationId)) as [[e|rows] w2].
    + destruct Hrun as [_ ->]. by repeat constructor.
    + destruct Hrun as [-> _]. by repeat constructor.
Qed.

Lemma operations_catchTrace (timestamp organizationId : string) (e : Exn)
    (r : Exn + unit) (t : list Obs) :
  operations (catchTrace timestamp organizationId e r t) = operations t.
Proof.
  unfold catchTrace. rewrite !operations_said, operations_app.
  destruct r; cbn; by rewrite app_nil_r.
Qed.

Lemma caught_result (timestamp organizationId organizationType : string)
    (e : Exn) (w1 : World) (before : list Obs) :
  (caught timestamp organizationId organizationType e w1 before).1.1
  = inr (failure timestamp organizationId organizationType (errorMessage e)).
Proof.
  unfold caught.
  by destruct (run (updateOrganizationMetadata organizationId
                      (failedPatch (errorMessage e) timestamp)) w1) as [[r w2] t2].
Qed.

Lemma caught_trace (timestamp organizationId organizationType : string)
    (e : Exn) (w1 : World) (before : list Obs) :
  (caught timestamp organizationId organizationType e w1 before).2
  = before ++
    catchTrace timestamp organizationId e
      (result (updateOrganizationMetadata organizationId
                 (failedPatch (errorMessage e) timestamp)) w1)
      (trace (updateOrganizationMetadata organizationId
                (failedPatch (errorMessage e) timestamp)) w1).
Proof.
  unfold caught, result, trace.
  by destruct (run (updateOrganizationMetadata organizationId
                      (failedPatch (errorMessage e) timestamp)) w1) as [[r w2] t2].
Qed.

(** C2, as the code has it. [setupOrganizationDatabase] throws in no
    environment, whatever the organization type. For a type that is
    [retail] or [restaurant]: when provisioning fails with an error, the
    [catch] block logs it and records the [failed] status from the world
    the failure left, and the result is the failure with that error's
    message, also when the recording fails: that second error is caught
    and logged, and changes nothing in the result. When provisioning
    succeeds, the result is a success if writing the [completed] status
    succeeds; if that write fails, its error is caught by the same [catch]
    block as a provisioning error: it is logged, the [failed] status is
    then recorded from the world the failed write left, and the result is
    the failure with the message of the write's error. *)
Theorem recording_failure_keeps_provisioning_error
    (timestamp organizationId organizationType : string) (w : World) :
  let setup := setupOrganizationDatabase timestamp organizationId organizationType in
  let create :=
    createOrganizationDatabase (cleanOrgId organizationId) organizationType in
  let record := updateOrganizationMetadata organizationId in
  let banner := setupBanner organizationId organizationType in
  (exists r, result setup w = inr r) /\
  (validType organizationType = true ->
   (forall e w1 t1,
      run create w = (inl e, w1, t1) ->
      let failed := failedPatch (errorMessage e) timestamp in
      result setup w
        = inr (failure timestamp organizationId organizationType (errorMessage e)) /\
      trace setup w
        = banner :: t1 ++
          catchTrace timestamp organizationId e
            (result (record failed) w1) (trace (record failed) w1) /\
      forall e',
        result (record failed) w1 = inl e' ->
        Said Error [Txt "Failed to update organization metadata:"; Err e']
          ∈ trace setup w) /\
   (forall v w1 t1,
      run create w = (inr v, w1, t1) ->
      let completed := completedPatch organizationId organizationType timestamp in
      let said :=
        Said Log [Val (JObj {[ "organizationId" := JStr organizationId;
                               "b" := JObj completed ]})] in
      (forall u w2 t2,
         run (record completed) w1 = (inr u, w2, t2) ->
         result setup w
           = inr (mkSetupResult true ("org_" +:+ cleanOrgId organizationId)
                                organizationType None timestamp) /\
         operations (trace setup w) = operations t1 ++ operations t2) /\
      (forall e' w2 t2,
         run (record completed) w1 = (inl e', w2, t2) ->
         let failed := failedPatch (errorMessage e') timestamp in
         result setup w
           = inr (failure timestamp organizationId organizationType
                          (errorMessage e')) /\
         trace setup w
           = banner :: t1 ++ said :: t2 ++
             catchTrace timestamp organizationId e'
               (result (record failed) w2) (trace (record failed) w2) /\
         Said Error [Txt ("✗ Failed to setup database for organization "
                          +:+ cleanOrgId organizationId +:+ ":"); Err e']
           ∈ trace setup w))).
Proof.
  intros setup create record banner.
  pose proof (run_setupOrganizationDatabase timestamp organizationId
                organizationType w) as Hrun.
  cbn zeta in Hrun. fold setup create record banner in Hrun.
  split.
  { unfold result. rewrite Hrun. destruct (validType organizationType).
    - destruct (run create w) as [[[e|v] w1] t1].
      + rewrite caught_result. by eexists.
      + destruct (run (record (completedPatch organizationId organizationType
                                 timestamp)) w1) as [[[e|[]] w2] t2].
        * rewrite caught_result. by eexists.
        * by eexists.
    - rewrite caught_result. by eexists. }
  intros Hvalid. rewrite Hvalid in Hrun. split.
  - intros e w1 t1 Hcreate failed. rewrite Hcreate in Hrun.
    unfold result at 1, trace at 1 3. rewrite Hrun, caught_result, caught_trace.
    fold record failed. split; [done|]. split; [done|].
    intros e' He'. rewrite He'. unfold catchTrace. set_solver.
  - intros v w1 t1 Hcreate completed said. rewrite Hcreate in Hrun.
    fold completed in Hrun. split.
    + intros u w2 t2 Hrec. rewrite Hrec in Hrun. unfold result, trace.
      rewrite Hrun. split; [done|]. cbn [snd].
      unfold banner, setupBanner.
      rewrite operations_said, operations_app, operations_said,
        operations_app. cbn. by rewrite app_nil_r.
    + intros e' w2 t2 Hrec failed. rewrite Hrec in Hrun.
      unfold result at 1, trace at 1 3.
      rewrite Hrun, caught_result, caught_trace. fold record failed said.
      split; [done|]. split; [cbn [app]; by rewrite <- app_assoc|].
      unfold catchTrace. set_solver.
Qed.

(** C3, as the code has it. For a type other than [retail] and
    [restaurant], [setupOrganizationDatabase] returns the failure whose
    error is the invalid-type message, without reading a schema file and
    without the administrative call. Its trace is the banner, then what the
    [catch] block leaves: nothing is awaited before the rejection, and what
    is awaited after it are the operations that record the [failed]
    status. *)
Theorem invalid_type_never_reaches_provisioning
    (timestamp organizationId organizationType : string) (w : World) :
  let setup := setupOrganizationDatabase timestamp organizationId organizationType in
  let message := invalidTypeMessage organizationType in
  let record :=
    updateOrganizationMetadata organizationId (failedPatch message timestamp) in
  organizationType <> "retail" -> organizationType <> "restaurant" ->
  result setup w = inr (failure timestamp organizationId organizationType message) /\
  trace setup w
    = setupBanner organizationId organizationType
      :: catchTrace timestamp organizationId (JsError message)
           (result record w) (trace record w) /\
  operations (trace setup w) = operations (trace record w) /\
  Forall (fun o => isSchemaExecution o = false /\ forall path, o <> Did (ReadFile path))
         (trace setup w).
Proof.
  intros setup message record Hretail Hrestaurant.
  assert (Hvalid : validType organizationType = false).
  { unfold validType. apply orb_false_iff.
    split; by apply String.eqb_neq. }
  unfold result at 1. unfold trace at 1 3 5. unfold setup.
  rewrite run_setupOrganizationDatabase, Hvalid, caught_result, caught_trace.
  cbn [errorMessage]. fold message. fold record.
  split; [done|]. split; [done|].
  assert (Hops :
    operations ([setupBanner organizationId organizationType] ++
       catchTrace timestamp organizationId (JsError message)
         (result record w) (trace record w))
    = operations (trace record w)).
  { by rewrite operations_app, operations_catchTrace. }
  split; [exact Hops|].
  apply Forall_operations; [done|]. rewrite Hops.
  eapply Forall_impl; [apply operations_updateOrganizationMetadata|].
  intros [[]|]; cbn; done.
Qed.

Lemma cleanOrgId_prefixed (rest : string) :
  cleanOrgId ("organization:" +:+ rest) = rest.
Proof. reflexivity. Qed.

Lemma cleanOrgId_plain (organizationId : string) :
  Text.startsWith organizationId "organization:" = false ->
  cleanOrgId organizationId = organizationId.
Proof.
  unfold cleanOrgId, Text.replaceAnchored, Text.startsWith. by intros ->.
Qed.

(** Every administrative call of [setupOrganizationDatabase] carries the
    headers of the database named after the cleaned identifier. *)
Lemma setup_posts_to_cleaned
    (timestamp organizationId organizationType : string) (w : World) :
  Forall (fun o => match o with
                   | Did (HttpPost _ _ headers) =>
                       headers = schemaHeaders ("org_" +:+ cleanOrgId organizationId)
                   | _ => True
                   end)
         (trace (setupOrganizationDatabase timestamp organizationId organizationType) w).
Proof.
  assert (Hupdate : forall patch w',
    Forall (fun o => match o with
                     | Did (HttpPost _ _ headers) =>
                         headers = schemaHeaders ("org_" +:+ cleanOrgId organizationId)
                     | _ => True
                     end)
           (operations (trace (updateOrganizationMetadata organizationId patch) w'))).
  { intros patch w'. eapply Forall_impl;
      [apply operations_updateOrganizationMetadata|]. by intros [[]|]. }
  apply Forall_operations; [done|].
  unfold trace. rewrite run_setupOrganizationDatabase. unfold setupBanner.
  destruct (validType organizationType).
  - pose proof (operations_createOrganizationDatabase
                  (cleanOrgId organizationId) organizationType w) as Hcreate.
    cbn zeta in Hcreate. unfold result, trace in Hcreate.
    assert (Hposts :
      Forall (fun o => match o with
                       | Did (HttpPost _ _ headers) =>
                           headers = schemaHeaders ("org_" +:+ cleanOrgId organizationId)
                       | _ => True
                       end)
             (operations (run (createOrganizationDatabase (cleanOrgId organizationId)
                                 organizationType) w).2)).
    { destruct (handle w (ReadFile _)) as [[e|content] w1].
      - destruct Hcreate as [_ ->]. by repeat constructor.
      - destruct Hcreate as [-> _]. by repeat constructor. }
    clear Hcreate.
    destruct (run (createOrganizationDatabase (cleanOrgId organizationId)
                     organizationType) w) as [[[e|v] w1] t1]; cbn [snd] in Hposts.
    + rewrite caught_trace, operations_app, operations_catchTrace,
        operations_said. apply Forall_app. split; [done|apply Hupdate].
    + pose proof (Hupdate (completedPatch organizationId organizationType timestamp) w1)
        as Hcompleted. unfold trace in Hcompleted.
      destruct (run (updateOrganizationMetadata organizationId
                       (completedPatch organizationId organizationType timestamp)) w1)
        as [[[e|[]] w2] t2]; cbn [snd] in Hcompleted.
      * rewrite caught_trace, operations_app, operations_catchTrace,
          operations_said, operations_app, operations_said.
        rewrite !Forall_app. split; [split; done|apply Hupdate].
      * cbn [snd]. rewrite operations_said, operations_app, operations_said,
          operations_app, operations_said. cbn [operations filter].
        rewrite app_nil_r. apply Forall_app. by split.
  - rewrite caught_trace, operations_app, operations_catchTrace.
    apply Forall_app. split; [by repeat constructor|apply Hupdate].
Qed.

(** C6, as the code has it. The provisioner names the database after the
    identifier without a leading [organization:]: that name is in its
    result and in the headers of every administrative call, with the
    namespace [needexcel_organization]. [getOrganizationDatabase] names it
    after the identifier as given, in the namespace [env.ORG_NS]. The two
    names are equal for every identifier that does not begin with
    [organization:]; for [organization:<rest>] the provisioner's is
    [org_<rest>]. The manager's own [createOrganizationDatabase], which the
    provisioner calls with the cleaned identifier, names the database as
    [getOrganizationDatabase] does, after the identifier it is given. *)
Theorem database_name_of_cleaned_id
    (timestamp organizationId organizationType : string) (w : World) :
  let setup := setupOrganizationDatabase timestamp organizationId organizationType in
  let provisioned := "org_" +:+ cleanOrgId organizationId in
  (forall r, result setup w = inr r -> database r = provisioned) /\
  Forall (fun o => match o with
                   | Did (HttpPost _ _ headers) =>
                       ("Surreal-NS", "needexcel_organization") ∈ headers /\
                       ("Surreal-DB", provisioned) ∈ headers
                   | _ => True
                   end)
         (trace setup w) /\
  trace (getOrganizationDatabase organizationId) w
    = [Did (GetConnection (ORG_NS env) ("org_" +:+ organizationId))] /\
  (Text.startsWith organizationId "organization:" = false ->
     provisioned = "org_" +:+ organizationId) /\
  (forall rest, organizationId = "organization:" +:+ rest ->
     provisioned = "org_" +:+ rest) /\
  Forall (fun o => match o with
                   | Did (HttpPost _ _ headers) =>
                       ("Surreal-DB", "org_" +:+ organizationId) ∈ headers
                   | _ => True
                   end)
         (trace (createOrganizationDatabase organizationId organizationType) w).
Proof.
  intros setup provisioned. split; [|split; [|split; [|split; [|split]]]].
  - intros r. unfold result, setup. rewrite run_setupOrganizationDatabase.
    destruct (validType organizationType).
    + destruct (run (createOrganizationDatabase _ _) w) as [[[e|v] w1] t1].
      * rewrite caught_result. by intros [= <-].
      * destruct (run (updateOrganizationMetadata _ _) w1) as [[[e|[]] w2] t2].
        -- rewrite caught_result. by intros [= <-].
        -- by intros [= <-].
    + rewrite caught_result. by intros [= <-].
  - eapply Forall_impl; [apply setup_posts_to_cleaned|].
    intros [[| | |url body headers]|]; try done.
    intros ->. unfold schemaHeaders. fold provisioned. set_solver.
  - unfold trace, getOrganizationDatabase.
    rewrite (run_await (GetConnection _ _)).
    by destruct (handle w (GetConnection _ _)) as [[e|c] w1].
  - intros Hplain. unfold provisioned. by rewrite cleanOrgId_plain.
  - intros rest ->. unfold provisioned. by rewrite cleanOrgId_prefixed.
  - apply Forall_operations; [done|].
    pose proof (operations_createOrganizationDatabase
                  organizationId organizationType w) as Hcreate.
    cbn zeta in Hcreate.
    destruct (handle w (ReadFile _)) as [[e|content] w1].
    + destruct Hcreate as [_ ->]. by repeat constructor.
    + destruct Hcreate as [-> _]. repeat constructor.
Qed.

End ServiceFacts.

(** ** The address of the HTTP endpoint *)

Section HttpUrlFacts.

Import Js Service.

Context {RT : Runtime}.

(** X14. The address that the schema is posted to, for a [DATABASE_URL]
    with the scheme [ws:] or [wss:]: the scheme becomes [http:] or
    [https:]; when the address ends with [/rpc] and has no [/rpc] before
    that, the ending becomes [/sql]; when it does not end with [/rpc],
    [/sql] is appended. *)
Theorem httpUrl_of_websocket_url (secure : bool) (rest : string) :
  let scheme := if secure then "wss:" else "ws:" in
  let target := if secure then "https:" else "http:" in
  DATABASE_URL env = scheme +:+ rest ->
  (forall body, rest = body +:+ "/rpc" ->
     Text.firstAt "/rpc" (target +:+ body) "" ->
     httpUrl = target +:+ body +:+ "/sql") /\
  (Text.endsWith (target +:+ rest) "/rpc" = false ->
   httpUrl = target +:+ rest +:+ "/sql").
Proof.
  intros scheme target Hurl. unfold httpUrl. rewrite Hurl.
  assert (Hscheme :
    Text.replaceAnchored "wss:" "https:"
      (Text.replaceAnchored "ws:" "http:" (scheme +:+ rest)) = target +:+ rest).
  { unfold scheme, target. by destruct secure. }
  rewrite Hscheme. split.
  - intros body -> Hfirst.
    replace (target +:+ body +:+ "/rpc") with ((target +:+ body) +:+ "/rpc")
      by (unfold target; by destruct secure).
    rewrite endsWith_app.
    replace ((target +:+ body) +:+ "/rpc") with ((target +:+ body) +:+ "/rpc" +:+ "")
      by (unfold target; by destruct secure).
    rewrite replaceFirst_at by done.
    unfold target; by destruct secure.
  - intros ->. unfold target; by destruct secure.
Qed.

End HttpUrlFacts.

(** ** Applying a schema over a connection *)

Section SchemaFileFacts.

Import Js Service.

Context {RT : Runtime} {EN : Environment}.

(** X4. [runSchemaFile] reads the schema file and sends one statement over
    the connection it was given: the file's text with the database name at
    the placeholder, the script that [createOrganizationDatabase] posts for
    a database of that name. When the read fails nothing is sent; an error
    of the read or of the query is logged once and thrown on unchanged; and
    the function returns only after the query succeeded. *)
Theorem runSchemaFile_rethrows
    (db : Manager.Conn) (schemaFileName databaseName : string) (w : World) :
  let apply := runSchemaFile db schemaFileName databaseName in
  let read := ReadFile (inCwd schemaFileName) in
  let failed e :=
    Said Error [Txt ("✗ Failed to apply schema " +:+ schemaFileName +:+ ":"); Err e] in
  match handle w read with
  | (inl e, w1) => run apply w = (inl e, w1, [Did read; failed e])
  | (inr content, w1) =>
      let query := Query db (schemaScript databaseName content) [] in
      match handle w1 query with
      | (inl e, w2) => run apply w = (inl e, w2, [Did read; Did query; failed e])
      | (inr _, w2) =>
          run apply w =
            (inr tt, w2,
             [Did read; Did query;
              Said Log [Txt ("✓ Applied schema: " +:+ schemaFileName
                             +:+ " for database: " +:+ databaseName)]])
      end
  end.
Proof.
  intros apply read failed. unfold apply, runSchemaFile.
  rewrite run_tryCatch, run_bind, (run_await (ReadFile _)). fold read.
  destruct (handle w read) as [[e|content] w1]; [done|].
  rewrite run_bind, (run_await (Query db _ _)).
  by destruct (handle w1 (Query db (schemaScript databaseName content) []))
    as [[e|v] w2].
Qed.

End SchemaFileFacts.

(** ** The organization's type *)

Section OrganizationTypeFacts.

Import Js Service.

Context {RT : Runtime} {EN : Environment}.

(** X5. [getOrganizationType] throws in no environment, and what it
    returns is [null] or a truthy value: never [undefined], an empty string
    or another falsy value found in the record. *)
Theorem getOrganizationType_null_or_truthy (organizationId : string) (w : World) :
  exists v, result (getOrganizationType organizationId) w = inr v /\
            (v = JNull \/ truthy v = true).
Proof.
  unfold result, getOrganizationType, getMainDB.
  rewrite run_tryCatch, run_bind, (run_await (GetConnection _ _)).
  destruct (handle w (GetConnection (MAIN_NS env) (MAIN_DB env))) as [[e|authDb] w1];
    [cbn; eauto|].
  rewrite run_bind, (run_await (Query authDb _ _)).
  destruct (handle w1 (Query authDb _ _)) as [[e|orgResult] w2]; [cbn; eauto|].
  destruct (negb (truthy (default JUndefined (head orgResult)))
            || lengthIsZero (default JUndefined (head orgResult))); [cbn; eauto|].
  rewrite run_bind.
  destruct (get (optFirst (default JUndefined (head orgResult))) "organizationType")
    as [e|t] eqn:Ht; [cbn; eauto|].
  cbn [reading run].
  destruct (truthy t) eqn:Htt; [cbn; eauto|].
  rewrite run_bind.
  destruct (get (optFirst (default JUndefined (head orgResult))) "metadata")
    as [e|m] eqn:Hm; [cbn; eauto|].
  cbn [reading run].
  destruct (truthy (optGet m "organizationType")) eqn:H2; [cbn; eauto|].
  destruct (truthy (optGet (optGet m "setup") "organizationType")) eqn:H3; cbn; eauto.
Qed.

(** X6. For an organization whose record is found, the type is the first
    truthy one of the record's [organizationType] field, its
    [metadata.organizationType] and its [metadata.setup.organizationType],
    and [null] when none is; two operations are awaited and nothing is
    logged. When the [metadata] field holds a text, as
    [updateOrganizationMetadata] writes it, the two places inside it are
    not found: the type is the field's, or [null]. *)
Theorem getOrganizationType_precedence
    (organizationId : string) (w w1 w2 : World) (authDb : Manager.Conn)
    (rows more : list JVal) (fields : gmap string JVal) :
  let connect := GetConnection (MAIN_NS env) (MAIN_DB env) in
  let select :=
    Query authDb "SELECT metadata, organizationType FROM organization WHERE id = $orgId"
          [("orgId", PRecordId (fullOrgId organizationId))] in
  let field := default JUndefined (fields !! "organizationType") in
  let metadata := default JUndefined (fields !! "metadata") in
  handle w connect = (inr authDb, w1) ->
  handle w1 select = (inr rows, w2) ->
  head rows = Some (JArr (JObj fields :: more)) ->
  run (getOrganizationType organizationId) w =
    (inr (or (or (or field (optGet metadata "organizationType"))
                 (optGet (optGet metadata "setup") "organizationType"))
             JNull),
     w2, [Did connect; Did select]) /\
  (forall text, metadata = JStr text ->
     result (getOrganizationType organizationId) w = inr (or field JNull)).
Proof.
  intros connect select field metadata Hconn Hsel Hrows.
  assert (Hrun : run (getOrganizationType organizationId) w =
    (inr (or (or (or field (optGet metadata "organizationType"))
                 (optGet (optGet metadata "setup") "organizationType"))
             JNull),
     w2, [Did connect; Did select])).
  { unfold getOrganizationType, getMainDB.
    rewrite run_tryCatch, run_bind, (run_await (GetConnection _ _)).
    fold connect. rewrite Hconn.
    rewrite run_bind, (run_await (Query authDb _ _)). fold select. rewrite Hsel, Hrows.
    cbn [default from_option id truthy negb lengthIsZero length Nat.eqb orb
         optFirst head get reading].
    fold field metadata. clearbody field metadata.
    rewrite run_bind. cbn [run]. unfold or.
    destruct (truthy field) eqn:Hf; [by rewrite !Hf|].
    rewrite run_bind. cbn [run].
    destruct (truthy (optGet metadata "organizationType")) eqn:H2; [by rewrite !H2|].
    by destruct (truthy (optGet (optGet metadata "setup") "organizationType")) eqn:H3;
      rewrite ?H3. }
  split; [exact Hrun|].
  intros text Htext. unfold result. rewrite Hrun, Htext. cbn.
  unfold or. by destruct (truthy field) eqn:Hf; rewrite ?Hf.
Qed.

End OrganizationTypeFacts.

(** ** Reading back what the setup recorded *)

Section ReadBackFacts.

Import Js Service.

Lemma to_little_uint_nonnil (n : nat) (acc : Decimal.uint) :
  acc <> Decimal.Nil -> Nat.to_little_uint n acc <> Decimal.Nil.
Proof.
  revert acc. induction n as [|n IH]; intros acc Hacc; [done|].
  apply IH. by destruct acc.
Qed.

Lemma to_uint_nonnil (n : nat) : Nat.to_uint n <> Decimal.Nil.
Proof.
  unfold Nat.to_uint. intros H. apply DecimalFacts.rev_nil_inv in H.
  by apply to_little_uint_nonnil in H.
Qed.

Lemma indexName_inj (i j : nat) : indexName i = indexName j -> i = j.
Proof.
  unfold indexName. intros H. apply Unsigned.to_uint_inj.
  pose proof (NilZero.usu _ (to_uint_nonnil i)) as Hi.
  pose proof (NilZero.usu _ (to_uint_nonnil j)) as Hj.
  rewrite H, Hj in Hi. by injection Hi.
Qed.

Lemma indexName_not_setup (i : nat) : indexName i <> "setup".
Proof.
  unfold indexName. intros H.
  pose proof (NilZero.usu _ (to_uint_nonnil i)) as Hi. rewrite H in Hi.
  vm_compute in Hi. discriminate.
Qed.

Lemma indexed_lookup (l : list JVal) (i : nat) :
  indexed l !! indexName i = l !! i.
Proof.
  unfold indexed. revert i.
  induction l as [|x l IH] using rev_ind; intros i.
  - reflexivity.
  - rewrite imap_app, list_to_map_app, lookup_union. cbn [imap].
    rewrite list_to_map_cons, list_to_map_nil, IH, Nat.add_0_r.
    destruct (decide (i = length l)) as [->|Hne].
    + rewrite lookup_insert_eq, lookup_ge_None_2 by lia.
      by rewrite list_lookup_middle.
    + rewrite lookup_insert_ne by (intros Heq; by apply indexName_inj in Heq).
      rewrite lookup_empty, (right_id_L None union).
      destruct (decide (i < length l)).
      * by rewrite lookup_app_l.
      * rewrite !lookup_ge_None_2; [done| |lia].
        rewrite length_app. simpl. lia.
Qed.

Context {RT : Runtime} {EN : Environment}.

(** X7. The status that [updateOrganizationMetadata] records is not the
    status that [checkOrganizationSetup] reads: when the record's
    [metadata] field holds what an [UPDATE] of
    [updateOrganizationMetadata] wrote, whatever the recorded outcome, and
    the database exists, the check finds no setup metadata and reports
    [isSetup = true] with the status [completed]. *)
Theorem recorded_status_reads_back_completed
    (organizationId : string) (patch : gmap string JVal) (w0 : World)
    (db0 : Manager.Conn) (written : JVal)
    (w w1 w2 w3 : World) (authDb : Manager.Conn)
    (rows more : list JVal) (fields : gmap string JVal) (t3 : list Obs) :
  Did (Query db0 "UPDATE $orgId SET metadata = $metadata"
             [("orgId", PRecordId (recordIdOf organizationId));
              ("metadata", PValue written)])
    ∈ trace (updateOrganizationMetadata organizationId patch) w0 ->
  handle w (GetConnection (MAIN_NS env) (MAIN_DB env)) = (inr authDb, w1) ->
  handle w1 (Query authDb "SELECT id, metadata FROM $orgId"
                   [("orgId", PRecordId (fullOrgId organizationId))])
    = (inr rows, w2) ->
  head rows = Some (JArr (JObj fields :: more)) ->
  fields !! "metadata" = Some written ->
  run (checkOrganizationDatabaseExists (cleanOrgId organizationId)) w2
    = (inr true, w3, t3) ->
  result (checkOrganizationSetup organizationId) w =
    inr (mkCheckResult true (JStr ("org_" +:+ cleanOrgId organizationId))
                       (JStr "completed") JUndefined JUndefined).
Proof.
  intros Hwritten Hconn Hquery Hrows Hmeta Hdb.
  assert (Htext : exists text, written = JStr text).
  { pose proof (run_updateOrganizationMetadata organizationId patch w0) as Hrun.
    cbn zeta in Hrun.
    assert (Hop : Did (Query db0 "UPDATE $orgId SET metadata = $metadata"
             [("orgId", PRecordId (recordIdOf organizationId));
              ("metadata", PValue written)])
             ∈ operations (trace (updateOrganizationMetadata organizationId patch) w0)).
    { unfold operations. apply list_elem_of_filter. by split. }
    destruct (handle w0 (GetConnection (MAIN_NS env) (MAIN_DB env)))
      as [[e|authDb0] w01].
    - destruct Hrun as [_ Heq]. rewrite Heq in Hop.
      apply list_elem_of_singleton in Hop. discriminate.
    - destruct (handle w01 (selectMetadata authDb0 organizationId))
        as [[e|rows0] w02].
      + destruct Hrun as [_ Heq]. rewrite Heq in Hop.
        unfold selectMetadata in Hop.
        apply elem_of_cons in Hop as [Hop|Hop]; [discriminate|].
        apply list_elem_of_singleton in Hop. discriminate.
      + destruct Hrun as [Heq _]. rewrite Heq in Hop.
        unfold selectMetadata, writeMetadata in Hop.
        apply elem_of_cons in Hop as [Hop|Hop]; [discriminate|].
        apply elem_of_cons in Hop as [Hop|Hop]; [discriminate|].
        apply list_elem_of_singleton in Hop. injection Hop as _ Hw. by eexists. }
  destruct Htext as [text ->].
  unfold result, checkOrganizationSetup, getMainDB.
  rewrite run_tryCatch, run_bind,
    (run_await (GetConnection (MAIN_NS env) (MAIN_DB env))), Hconn.
  rewrite run_bind, (run_await (Query authDb _ _)), Hquery.
  rewrite Hrows.
  cbn [default from_option id truthy negb lengthIsZero length Nat.eqb orb
       optFirst head get reading].
  rewrite run_bind. cbn [run]. rewrite run_bind, Hdb, Hmeta. reflexivity.
Qed.

(** X8. When the [metadata] field that [updateOrganizationMetadata] reads
    holds a text that is not empty, the object it writes back has the new
    outcome alone under [setup], with nothing of an outcome recorded
    before, and the characters of the text under their indices. *)
Theorem text_metadata_merge_drops_setup
    (organizationId : string) (patch : gmap string JVal) (w w1 w2 : World)
    (authDb : Manager.Conn) (rows more : list JVal) (fields : gmap string JVal)
    (text : string) :
  let update := updateOrganizationMetadata organizationId patch in
  handle w (GetConnection (MAIN_NS env) (MAIN_DB env)) = (inr authDb, w1) ->
  handle w1 (selectMetadata authDb organizationId) = (inr rows, w2) ->
  head rows = Some (JArr (JObj fields :: more)) ->
  fields !! "metadata" = Some (JStr text) ->
  text <> "" ->
  exists m' : gmap string JVal,
    operations (trace update w) !! 2
      = Some (Did (writeMetadata authDb organizationId (JSON_stringify (JObj m')))) /\
    m' !! "setup" = Some (JObj patch) /\
    forall i, m' !! indexName i = chars text !! i.
Proof.
  intros update Hconn Hsel Hrows Hmeta Htext.
  pose proof (run_updateOrganizationMetadata organizationId patch w) as Hrun.
  cbn zeta in Hrun. fold update in Hrun.
  rewrite Hconn, Hsel in Hrun. destruct Hrun as [-> _].
  assert (Hcur : currentMetadataOf rows = JStr text).
  { unfold currentMetadataOf. rewrite Hrows. cbn. rewrite Hmeta. cbn.
    unfold or. cbn. destruct text; [done|reflexivity]. }
  rewrite Hcur. unfold updatedMetadata. cbn [optGet or truthy ownProps].
  eexists. split; [reflexivity|]. split.
  - rewrite lookup_insert_eq. unfold spread2. by rewrite (right_id_L ∅ (∪)).
  - intros i. rewrite lookup_insert_ne by (intros Heq; symmetry in Heq; by apply indexName_not_setup in Heq).
    apply indexed_lookup.
Qed.

End ReadBackFacts.

(** ** The result of the check, and a record that is not there *)

Section CheckFacts.

Import Js Service.

Context {RT : Runtime} {EN : Environment}.

(** X21. In every environment, [checkOrganizationSetup] returns a result
    in which [isSetup] tells exactly whether the status is [completed];
    the status and the database name are never [undefined] or empty. *)
Theorem isSetup_is_completed (organizationId : string) (w : World) :
  exists r, result (checkOrganizationSetup organizationId) w = inr r /\
    (isSetup r = true <-> status r = JStr "completed") /\
    truthy (status r) = true /\
    truthy (checkedDatabase r) = true.
Proof.
  unfold result, checkOrganizationSetup, getMainDB.
  rewrite run_tryCatch, run_bind, (run_await (GetConnection _ _)).
  destruct (handle w (GetConnection (MAIN_NS env) (MAIN_DB env))) as [[e|authDb] w1].
  { cbn. eexists. split; [reflexivity|]. cbn. by split. }
  rewrite run_bind, (run_await (Query authDb _ _)).
  destruct (handle w1 (Query authDb _ _)) as [[e|orgResult] w2].
  { cbn. eexists. split; [reflexivity|]. cbn. by split. }
  destruct (negb (truthy (default JUndefined (head orgResult)))
            || lengthIsZero (default JUndefined (head orgResult))).
  { cbn. eexists. split; [reflexivity|]. cbn. by split. }
  rewrite run_bind.
  destruct (get (optFirst (default JUndefined (head orgResult))) "metadata")
    as [e|org_metadata].
  { cbn. eexists. split; [reflexivity|]. cbn. by split. }
  cbn [reading run]. rewrite run_bind.
  destruct (run (checkOrganizationDatabaseExists (cleanOrgId organizationId)) w2)
    as [[[e|dbExists] w3] t3].
  { cbn. eexists. split; [reflexivity|]. cbn. by split. }
  destruct dbExists; cbn [negb].
  2: { cbn. eexists. split; [reflexivity|]. cbn. by split. }
  destruct (truthy (optGet org_metadata "setup")) eqn:Hsetup.
  2: { cbn. eexists. split; [reflexivity|]. cbn. by split. }
  cbn. eexists. split; [reflexivity|]. cbn.
  set (stored := optGet (optGet org_metadata "setup") "setupStatus").
  set (name := optGet (optGet org_metadata "setup") "database").
  split; [|split].
  - unfold or. destruct (truthy stored) eqn:Hs.
    + destruct stored as [| | | |s| |]; cbn; try (split; intros; discriminate).
      split.
      * intros Heq. apply String.eqb_eq in Heq. by rewrite Heq.
      * intros [= ->]. reflexivity.
    + split; [|intros; discriminate].
      destruct stored as [| | | |s| |]; cbn; try (intros; discriminate).
      intros Heq. apply String.eqb_eq in Heq. subst s. discriminate Hs.
  - unfold or. by destruct (truthy stored) eqn:Hs.
  - unfold or. destruct (truthy name) eqn:Hn; [done|].
    cbn. reflexivity.
Qed.

(** X22. An organization without a record is no error for
    [updateOrganizationMetadata]: when the query gives no row, it still
    sends the [UPDATE], with the patch alone under [setup] and nothing
    else, and returns when the write does. *)
Theorem update_without_record_writes_patch_alone
    (organizationId : string) (patch : gmap string JVal) (w w1 w2 : World)
    (authDb : Manager.Conn) (rows : list JVal) :
  let update := updateOrganizationMetadata organizationId patch in
  let write :=
    writeMetadata authDb organizationId
      (JSON_stringify (JObj {[ "setup" := JObj patch ]})) in
  handle w (GetConnection (MAIN_NS env) (MAIN_DB env)) = (inr authDb, w1) ->
  handle w1 (selectMetadata authDb organizationId) = (inr rows, w2) ->
  head rows = None \/ head rows = Some (JArr []) ->
  operations (trace update w)
    = [Did (GetConnection (MAIN_NS env) (MAIN_DB env));
       Did (selectMetadata authDb organizationId); Did write] /\
  (forall v w3, handle w2 write = (inr v, w3) -> result update w = inr tt).
Proof.
  intros update write Hconn Hsel Hrows.
  pose proof (run_updateOrganizationMetadata organizationId patch w) as Hrun.
  cbn zeta in Hrun. fold update in Hrun. rewrite Hconn, Hsel in Hrun.
  assert (Hcur : updatedMetadata (currentMetadataOf rows) patch
                 = JObj {[ "setup" := JObj patch ]}).
  { unfold currentMetadataOf, updatedMetadata.
    destruct Hrows as [-> | ->]; cbn; unfold spread2;
      rewrite lookup_empty; cbn; by rewrite (right_id_L ∅ (∪)). }
  rewrite Hcur in Hrun. fold write in Hrun. destruct Hrun as [Hops Hres].
  split; [exact Hops|].
  intros v w3 Hw. rewrite Hw in Hres. unfold result. by rewrite Hres.
Qed.

End CheckFacts.

(** ** The middleware that requires a set-up organization *)

Section MiddlewareFacts.

Import Js Service Middleware.

Context {RT : Runtime} {EN : Environment}.

(** X9. [requireOrganizationSetup] answers in every environment and never
    throws, whatever the rest of the chain does. Without a truthy
    [activeOrganizationId] in the session it answers 403 and neither
    awaits nor logs anything, nor runs the rest of the chain; with one that
    is not a string it logs the TypeError and answers 500, again without
    any operation. *)
Theorem requireOrganizationSetup_always_answers
    (c : Context) (next : Prog unit) (w : World) :
  let guard := requireOrganizationSetup c next in
  (exists r, result guard w = inr r) /\
  (truthy (optGet (session c) "activeOrganizationId") = false ->
   run guard w = (inr (Some (forbidden c "No active organization selected")), w, [])) /\
  (forall id, optGet (session c) "activeOrganizationId" = id -> truthy id = true ->
     (forall s, id <> JStr s) ->
     run guard w =
       (inr (Some (internalError c "Failed to verify organization setup")), w,
        [Said Error [Txt "Error checking organization setup:";
                     Err (JsError "organizationId.replace is not a function")]])).
Proof.
  intros guard. unfold guard, requireOrganizationSetup, result.
  split; [|split].
  - destruct (truthy (optGet (session c) "activeOrganizationId")); [|by eexists].
    cbn [negb]. apply tryCatch_returns. intros e w'. by eexists.
  - by intros ->.
  - intros id -> Hid Hnot. rewrite Hid. cbn [negb].
    rewrite run_tryCatch, run_bind.
    destruct id as [| |b|z|s|l|m]; try done. by destruct (Hnot s).
Qed.



End MiddlewareFacts.

(** ** The service over the manager *)

Section BackedFacts.

Import Js Service.

Context {RT : Runtime}.
Context (Net : Type) (connect : Net -> string -> string -> option Exn * Net)
        (answer : Net -> forall o : Op, (Exn + resp o) * Net).

Local Abbreviation backed := (Backed.environment Net connect answer).

(** Between the operations of one request no attempt is in flight: the
    registry is empty before and after each of them, so that no call
    finds a promise to share. *)
Lemma handle_quiescent (w w1 : Backed.World Net) (o : Op) (r : Exn + resp o) :
  Manager.connecting (Backed.manager w) = ∅ ->
  Backed.handle Net connect answer w o = (r, w1) ->
  Manager.connecting (Backed.manager w1) = ∅.
Proof.
  intros Hq. destruct o as [ns db|c sql params|path|url body headers]; cbn.
  - unfold Backed.getConnection, Manager.getConnection.
    destruct (Manager.connections (Backed.manager w) !! Manager.keyOf ns db) as [c'|].
    + cbn. rewrite last_snoc. by intros [= <- <-].
    + rewrite Hq, lookup_empty. cbn. rewrite last_snoc.
      destruct (connect (Backed.net w) ns db) as [[e|] n1]; intros [= <- <-]; cbn.
      all: unfold Manager.createConnectionSettled; cbn.
      all: rewrite list_lookup_middle by done; cbn.
      all: unfold Manager.getConnectionResumed; cbn.
      all: rewrite list_lookup_insert_eq by (rewrite length_app; cbn; lia); cbn.
      all: by rewrite delete_insert_eq, delete_empty.
  - destruct (answer (Backed.net w) (Query c sql params)) as [r' n1].
    by intros [= <- <-].
  - destruct (answer (Backed.net w) (ReadFile path)) as [r' n1].
    by intros [= <- <-].
  - destruct (answer (Backed.net w) (HttpPost url body headers)) as [r' n1].
    by intros [= <- <-].
Qed.

(** A connection that [getConnection] returned is in the cache. *)
Lemma getConnection_caches (ns db : string) (w w1 : Backed.World Net) (c : Manager.Conn) :
  Backed.getConnection Net connect ns db w = (inr c, w1) ->
  Manager.connections (Backed.manager w1) !! Manager.keyOf ns db = Some c.
Proof.
  unfold Backed.getConnection, Manager.getConnection.
  destruct (Manager.connections (Backed.manager w) !! Manager.keyOf ns db) as [c'|] eqn:Hc.
  - cbn. rewrite last_snoc. intros [= <- <-]. exact Hc.
  - destruct (Manager.connecting (Backed.manager w) !! Manager.keyOf ns db) as [p|] eqn:Hg.
    + cbn. rewrite last_snoc. intros [=].
    + cbn. rewrite last_snoc.
      destruct (connect (Backed.net w) ns db) as [[e|] n1]; [intros [=]|].
      intros [= <- <-]. cbn.
      unfold Manager.createConnectionSettled. cbn.
      rewrite list_lookup_middle by done. cbn.
      unfold Manager.getConnectionResumed. cbn.
      rewrite list_lookup_insert_eq by (rewrite length_app; cbn; lia). cbn.
      by rewrite lookup_insert_eq.
Qed.

(** X15. Over the manager, the answer of
    [checkOrganizationDatabaseExists] is not stable: when the connection
    of the organization's database can be made, the first check answers by
    the introspection query ([false] when the query throws or gives
    nothing), and every check after it answers [true] without any
    operation, whatever the query gave, for the connection is cached. *)
Theorem existence_check_turns_true
    (orgId : string) (w w' : Backed.World Net) (c : Manager.Conn) :
  let check := checkOrganizationDatabaseExists orgId in
  let after := (run (EN := backed) check w).1.2 in
  @cacheHas backed w ("needexcel_organization:" +:+ "org_" +:+ orgId) = false ->
  Backed.getConnection Net connect "needexcel_organization" ("org_" +:+ orgId) w
    = (inr c, w') ->
  (match answer (Backed.net w') (Query c "INFO FOR DB;" []) with
   | (inr (_ :: _), _) => result (EN := backed) check w = inr true
   | _ => result (EN := backed) check w = inr false
   end) /\
  run (EN := backed) check after = (inr true, after, []).
Proof.
  intros check after Hcache Hconn.
  pose proof (getConnection_caches _ _ _ _ _ Hconn) as Hkey.
  unfold after, result, check, checkOrganizationDatabaseExists.
  cbn [run]. rewrite Hcache.
  rewrite run_tryCatch, run_bind,
    (run_await (GetConnection "needexcel_organization" ("org_" +:+ orgId))).
  change (@handle backed w (GetConnection "needexcel_organization" ("org_" +:+ orgId)))
    with (Backed.getConnection Net connect "needexcel_organization" ("org_" +:+ orgId) w).
  rewrite Hconn.
  rewrite run_bind, (run_await (Query c "INFO FOR DB;" [])).
  change (@handle backed w' (Query c "INFO FOR DB;" []))
    with (let '(r, n1) := answer (Backed.net w') (Query c "INFO FOR DB;" []) in
          (r, Backed.mkWorld (Backed.manager w') n1)).
  assert (Hhas :
    bool_decide (is_Some (Manager.connections (Backed.manager w')
                            !! ("needexcel_organization:" +:+ "org_" +:+ orgId))) = true).
  { apply bool_decide_eq_true. by eexists. }
  destruct (answer (Backed.net w') (Query c "INFO FOR DB;" [])) as [[e|rows] n1].
  - cbn. split; [done|]. by rewrite Hhas.
  - destruct rows as [|row rows]; cbn; (split; [done|]); by rewrite Hhas.
Qed.

(** X16. When [env.ORG_NS] is [needexcel_organization], a connection that
    [getOrganizationDatabase] obtained for an organization makes
    [checkOrganizationDatabaseExists] answer [true] for it without any
    operation. *)
Theorem organization_connection_answers_check
    (orgId : string) (w w' : Backed.World Net) (c : Manager.Conn) (t : list Obs) :
  ORG_NS env = "needexcel_organization" ->
  @run backed _ (getOrganizationDatabase orgId) w = (inr c, w', t) ->
  @run backed _ (checkOrganizationDatabaseExists orgId) w' = (inr true, w', []).
Proof.
  intros Hns. unfold getOrganizationDatabase. rewrite Hns.
  rewrite (run_await (GetConnection "needexcel_organization" ("org_" +:+ orgId))).
  change (@handle backed w (GetConnection "needexcel_organization" ("org_" +:+ orgId)))
    with (Backed.getConnection Net connect "needexcel_organization" ("org_" +:+ orgId) w).
  destruct (Backed.getConnection Net connect "needexcel_organization"
              ("org_" +:+ orgId) w) as [[e|c'] w1] eqn:Hconn; [intros [=]|].
  intros [= <- <- <-].
  pose proof (getConnection_caches _ _ _ _ _ Hconn) as Hkey.
  unfold checkOrganizationDatabaseExists. cbn [run].
  assert (Hhas : @cacheHas backed w1 ("needexcel_organization:" +:+ "org_" +:+ orgId)
                 = true).
  { cbn. apply bool_decide_eq_true. by eexists. }
  by rewrite Hhas.
Qed.

End BackedFacts.

(** ** The main connection across requests *)

Section ReuseFacts.

Import Js Service DatabaseMiddleware.

Context {RT : Runtime}.
Context (Net : Type) (connect : Net -> string -> string -> option Exn * Net)
        (answer : Net -> forall o : Op, (Exn + resp o) * Net).

Local Abbreviation backed := (Backed.environment Net connect answer).

(** No operation takes a connection out of the cache. *)
Lemma handle_keeps_cache (w w1 : Backed.World Net) (o : Op) (r : Exn + resp o)
    (k : string) (c : Manager.Conn) :
  Manager.connections (Backed.manager w) !! k = Some c ->
  Backed.handle Net connect answer w o = (r, w1) ->
  Manager.connections (Backed.manager w1) !! k = Some c.
Proof.
  intros Hk. destruct o as [ns db|c' sql params|path|url body headers]; cbn.
  - unfold Backed.getConnection, Manager.getConnection.
    destruct (Manager.connections (Backed.manager w) !! Manager.keyOf ns db)
      as [c'|] eqn:Hc.
    + cbn. rewrite last_snoc. by intros [= <- <-].
    + assert (Hne : Manager.keyOf ns db <> k) by (intros Heq; rewrite Heq in Hc; congruence).
      destruct (Manager.connecting (Backed.manager w) !! Manager.keyOf ns db) as [p|].
      * cbn. rewrite last_snoc. by intros [= <- <-].
      * cbn. rewrite last_snoc.
        destruct (connect (Backed.net w) ns db) as [[e|] n1]; intros [= <- <-]; cbn.
        all: unfold Manager.createConnectionSettled; cbn.
        all: rewrite list_lookup_middle by done; cbn.
        all: unfold Manager.getConnectionResumed; cbn.
        all: rewrite list_lookup_insert_eq by (rewrite length_app; cbn; lia); cbn.
        -- exact Hk.
        -- by rewrite lookup_insert_ne.
  - destruct (answer (Backed.net w) (Query c' sql params)) as [r' n1].
    by intros [= <- <-].
  - destruct (answer (Backed.net w) (ReadFile path)) as [r' n1].
    by intros [= <- <-].
  - destruct (answer (Backed.net w) (HttpPost url body headers)) as [r' n1].
    by intros [= <- <-].
Qed.

Lemma run_keeps_cache {A : Type} (p : Prog A) (w : Backed.World Net)
    (k : string) (c : Manager.Conn) :
  Manager.connections (Backed.manager w) !! k = Some c ->
  Manager.connections (Backed.manager (run (EN := backed) p w).1.2) !! k = Some c.
Proof.
  revert w. induction p as [a|e|o f IH|lvl args f IH|key f IH]; intros w Hk; cbn.
  - exact Hk.
  - exact Hk.
  - destruct (Backed.handle Net connect answer w o) as [r w1] eqn:Hh.
    pose proof (handle_keeps_cache _ _ _ _ _ _ Hk Hh) as Hk1.
    specialize (IH r w1 Hk1).
    by destruct (run (EN := backed) (f r) w1) as [[res w2] t].
  - specialize (IH w Hk).
    by destruct (run (EN := backed) f w) as [[res w2] t].
  - apply IH, Hk.
Qed.

(** X20. Over the manager, the main connection is made once: after a
    request has obtained it, and whatever has run since, [databaseMiddleware]
    gets the same connection from the cache, without a new attempt and
    without the network, and hands it to the rest of the chain, where
    [getMainDB(c)] returns it. *)
Theorem main_connection_is_reused {A : Type}
    (w w1 : Backed.World Net) (c : Manager.Conn) (between : Prog A)
    (next : option Manager.Conn -> Prog unit) :
  let connectMain := GetConnection (MAIN_NS env) (MAIN_DB env) in
  let w2 := (run (EN := backed) between w1).1.2 in
  @handle backed w connectMain = (inr c, w1) ->
  exists w3 : Backed.World Net,
    @handle backed w2 connectMain = (inr c, w3) /\
    Manager.attempts (Backed.manager w3) = Manager.attempts (Backed.manager w2) /\
    Backed.net w3 = Backed.net w2 /\
    run (EN := backed) (databaseMiddleware next) w2
      = (let '(r, w4, t) := run (EN := backed) (next (Some c)) w3 in
         (r, w4, Did connectMain :: t)) /\
    getMainDB (Some c) = inr c.
Proof.
  intros connectMain w2 Hfirst.
  assert (Hk : Manager.connections (Backed.manager w1)
                 !! Manager.keyOf (MAIN_NS env) (MAIN_DB env) = Some c).
  { by apply (getConnection_caches Net connect _ _ w). }
  pose proof (run_keeps_cache between w1 _ _ Hk) as Hk2. fold w2 in Hk2.
  eexists. split; [|split; [|split; [|split]]].
  - cbn. unfold Backed.getConnection, Manager.getConnection. rewrite Hk2. cbn.
    rewrite last_snoc. reflexivity.
  - reflexivity.
  - reflexivity.
  - unfold databaseMiddleware. rewrite run_bind, (run_await connectMain).
    cbn [handle backed Backed.environment Backed.handle connectMain].
    unfold Backed.getConnection, Manager.getConnection. rewrite Hk2. cbn.
    rewrite last_snoc.
    by destruct (run (EN := backed) (next (Some c)) _) as [[r w4] t].
  - reflexivity.
Qed.

End ReuseFacts.

(** ** The version in the [Accept] header *)

Section RegexFacts.

Import Regex Utils.

Lemma text_app_assoc (a b c : string) : (a +:+ b) +:+ c = a +:+ b +:+ c.
Proof. induction a as [|x a IH]; [done|]. rewrite !text_app_cons. by rewrite IH. Qed.

Lemma take_app (v s : string) :
  take (String.length (v +:+ s) - String.length s) (v +:+ s) = v.
Proof.
  rewrite text_app_length.
  replace (String.length v + String.length s - String.length s)
    with (String.length v) by lia.
  induction v as [|c v IH]; [by destruct s|].
  rewrite text_app_cons. cbn. by rewrite IH.
Qed.

Lemma matches_lit {A : Type} (p : string) (r : Re) (s : string) (cap : option string)
    (cont : string -> option string -> option A) :
  matches (lit p r) (p +:+ s) cap cont = matches r s cap cont.
Proof.
  induction p as [|c p IH]; [done|].
  rewrite text_app_cons. cbn. by rewrite Ascii.eqb_refl.
Qed.

Lemma matches_lit_inv {A : Type} (p : string) (r : Re) (s : string)
    (cap : option string) (cont : string -> option string -> option A) (x : A) :
  matches (lit p r) s cap cont = Some x ->
  exists s', s = p +:+ s' /\ matches r s' cap cont = Some x.
Proof.
  revert s. induction p as [|c p IH]; intros s; cbn.
  - intros H. by exists s.
  - destruct s as [|c' s]; [done|].
    destruct (Ascii.eqb c c') eqn:Hc; [|done].
    apply Ascii.eqb_eq in Hc as <-.
    intros H. destruct (IH s H) as (s' & -> & Hs'). by exists s'.
Qed.

Lemma digits_cons (c : ascii) (d : string) :
  isDigit c = true -> digits d = true -> digits (String c d) = true.
Proof. intros Hc Hd. cbn. rewrite Hc, Hd. by destruct d. Qed.

Lemma digits_inv (c : ascii) (d : string) :
  digits (String c d) = true -> isDigit c = true /\ (d = "" \/ digits d = true).
Proof.
  cbn. destruct d as [|c' d]; [by auto|].
  intros H. apply andb_true_iff in H as [Hc Hd]. by auto.
Qed.

Lemma many1_inv {A : Type} (s : string) (cont : string -> option A) (x : A) :
  many1 Digit s cont = Some x ->
  exists d rest, s = d +:+ rest /\ digits d = true /\ cont rest = Some x.
Proof.
  induction s as [|c s IH]; cbn; [done|].
  destruct (isDigit c) eqn:Hc; [|done].
  destruct (many1 Digit s cont) as [r|] eqn:Hm.
  - intros [= ->]. destruct (IH eq_refl) as (d & rest & -> & Hd & Hrest).
    exists (String c d), rest. split; [done|]. split; [by apply digits_cons|done].
  - intros Hcont. exists (String c ""), s. split; [done|]. split; [exact Hc|done].
Qed.

(** After the longest run of digits, [\d+] goes on with what follows. *)
Lemma many1_greedy {A : Type} (d rest : string) (cont : string -> option A) (x : A) :
  digits d = true ->
  many1 Digit rest cont = None ->
  cont rest = Some x ->
  many1 Digit (d +:+ rest) cont = Some x.
Proof.
  intros Hd Hrest Hcont. induction d as [|c d IH]; [done|].
  apply digits_inv in Hd as [Hc [->|Hd]]; rewrite text_app_cons; cbn; rewrite Hc.
  - change ("" +:+ rest) with rest. by rewrite Hrest.
  - by rewrite (IH Hd).
Qed.

Lemma exec_inv (r : Re) (s : string) (cap : option string) :
  exec r s = Some cap ->
  exists pre s', s = pre +:+ s' /\
    matches r s' None (fun _ cap => Some cap) = Some cap.
Proof.
  induction s as [|c s IH]; cbn.
  - destruct (matches r "" None _) as [cap'|] eqn:Hm; [|done].
    intros [= <-]. by exists "", "".
  - destruct (matches r (String c s) None _) as [cap'|] eqn:Hm.
    + intros [= <-]. by exists "", (String c s).
    + intros H. destruct (IH H) as (pre & s' & -> & Hs').
      by exists (String c pre), s'.
Qed.

Lemma matches_optional_inv {A : Type} (a : Re) (s : string) (cap : option string)
    (cont : string -> option string -> option A) (x : A) :
  matches (Optional a) s cap cont = Some x ->
  matches a s cap cont = Some x \/ cont s cap = Some x.
Proof. cbn. destruct (matches a s cap cont); [intros [= ->]|]; by auto. Qed.

Lemma matches_one_inv {A : Type} (c : ascii) (s : string) (cap : option string)
    (cont : string -> option string -> option A) (x : A) :
  matches (One (Chr c)) s cap cont = Some x ->
  exists s', s = String c s' /\ cont s' cap = Some x.
Proof.
  cbn. destruct s as [|c' s]; [done|].
  destruct (Ascii.eqb c c') eqn:Hc; [|done].
  apply Ascii.eqb_eq in Hc as <-. intros H. by exists s.
Qed.

Lemma matches_seq_one_inv {A : Type} (c : ascii) (b : Re) (s : string)
    (cap : option string) (cont : string -> option string -> option A) (x : A) :
  matches (Seq (One (Chr c)) b) s cap cont = Some x ->
  exists s', s = String c s' /\ matches b s' cap cont = Some x.
Proof. apply (matches_one_inv c s cap (fun s1 cap1 => matches b s1 cap1 cont)). Qed.

(** X17. What [extractVersionFromAcceptHeader] returns is a version,
    [major] or [major.minor] in digits, and the header has the vendor media
    type of that version in it: [application/vnd.techstudio.v], the
    version, [+json]. *)
Theorem extracted_version_is_in_header (acceptHeader version : string) :
  extractVersionFromAcceptHeader (Some acceptHeader) = Some version ->
  isVersion version /\
  exists pre post,
    acceptHeader
    = pre +:+ "application/vnd.techstudio.v" +:+ version +:+ "+json" +:+ post.
Proof.
  unfold extractVersionFromAcceptHeader.
  destruct acceptHeader as [|c0 h0]; [done|]. set (h := String c0 h0). clearbody h.
  destruct (exec acceptVersion h) as [[v|]|] eqn:Hexec; try done.
  intros [= ->].
  apply exec_inv in Hexec as (pre & s' & -> & Hm).
  unfold acceptVersion in Hm.
  apply matches_lit_inv in Hm as (s2 & -> & Hm).
  remember (Optional (Seq (One (Chr ".")) (Many1 Digit))) as minorPart eqn:Hopt.
  remember (lit "+json" Empty) as suffix eqn:Hsuffix.
  cbn [matches] in Hm.
  apply many1_inv in Hm as (major & s3 & -> & Hmajor & Hm).
  subst minorPart. apply matches_optional_inv in Hm as [Hm|Hm].
  - apply matches_seq_one_inv in Hm as (s3' & -> & Hm).
    cbn [matches] in Hm.
    apply many1_inv in Hm as (minor & s4 & -> & Hminor & Hm).
    subst suffix. apply matches_lit_inv in Hm as (post & -> & Hm).
    cbn [matches] in Hm. injection Hm as <-.
    replace (major +:+ String "." (minor +:+ "+json" +:+ post))
      with ((major +:+ "." +:+ minor) +:+ "+json" +:+ post)
      by (by rewrite !text_app_assoc).
    rewrite take_app. split.
    + exists major. split; [done|]. right. by exists minor.
    + by exists pre, post.
  - subst suffix. apply matches_lit_inv in Hm as (post & -> & Hm).
    cbn [matches] in Hm. injection Hm as <-.
    rewrite take_app. split.
    + exists major. split; [done|]. by left.
    + by exists pre, post.
Qed.

Lemma exec_here (r : Re) (s : string) (cap : option string) :
  matches r s None (fun _ cap => Some cap) = Some cap -> exec r s = Some cap.
Proof. intros H. destruct s; cbn; by rewrite H. Qed.

Lemma matches_seq_one {A : Type} (c : ascii) (b : Re) (s : string)
    (cap : option string) (cont : string -> option string -> option A) :
  matches (Seq (One (Chr c)) b) (String c s) cap cont = matches b s cap cont.
Proof. cbn. by rewrite Ascii.eqb_refl. Qed.

Lemma matches_optional_some {A : Type} (a : Re) (s : string) (cap : option string)
    (cont : string -> option string -> option A) (x : A) :
  matches a s cap cont = Some x -> matches (Optional a) s cap cont = Some x.
Proof. cbn. by intros ->. Qed.

Lemma matches_optional_none {A : Type} (a : Re) (s : string) (cap : option string)
    (cont : string -> option string -> option A) :
  matches a s cap cont = None -> matches (Optional a) s cap cont = cont s cap.
Proof. cbn. by intros ->. Qed.

Lemma acceptVersion_matches (version post : string) :
  isVersion version ->
  matches acceptVersion
    ("application/vnd.techstudio.v" +:+ version +:+ "+json" +:+ post) None
    (fun _ cap => Some cap)
  = Some (Some version).
Proof.
  intros (major & Hmajor & Hversion). unfold acceptVersion. rewrite matches_lit.
  remember (Optional (Seq (One (Chr ".")) (Many1 Digit))) as minorPart eqn:Hopt.
  remember (lit "+json" Empty) as suffix eqn:Hsuffix.
  cbn [matches].
  destruct Hversion as [->|(minor & Hminor & ->)].
  - apply many1_greedy; [done|done|].
    subst minorPart. rewrite matches_optional_none by done.
    subst suffix. rewrite (matches_lit "+json" Empty post). cbn [matches].
    by rewrite take_app.
  - rewrite !text_app_assoc. apply many1_greedy; [done|done|].
    subst minorPart. apply matches_optional_some.
    change ("." +:+ minor +:+ "+json" +:+ post)
      with (String "." (minor +:+ "+json" +:+ post)).
    rewrite matches_seq_one. cbn [matches].
    apply many1_greedy; [done|done|].
    subst suffix. rewrite (matches_lit "+json" Empty post). cbn [matches].
    replace (major +:+ String "." (minor +:+ "+json" +:+ post))
      with ((major +:+ "." +:+ minor) +:+ "+json" +:+ post)
      by (by rewrite !text_app_assoc).
    by rewrite take_app.
Qed.

(** A header that begins with the vendor media type of a version. *)
Lemma extract_at_start (version post : string) :
  extractVersionFromAcceptHeader
    (Some ("application/vnd.techstudio.v" +:+ version +:+ "+json" +:+ post))
  = match exec acceptVersion
            ("application/vnd.techstudio.v" +:+ version +:+ "+json" +:+ post) with
    | Some (Some found) => Some found
    | _ => None
    end.
Proof. reflexivity. Qed.

(** X18. From a header that begins with the vendor media type of a
    version, [extractVersionFromAcceptHeader] returns that version,
    whatever follows the media type. *)
Theorem version_round_trip (version post : string) :
  isVersion version ->
  extractVersionFromAcceptHeader
    (Some ("application/vnd.techstudio.v" +:+ version +:+ "+json" +:+ post))
  = Some version.
Proof.
  intros Hversion. rewrite extract_at_start.
  pose proof (acceptVersion_matches version post Hversion) as Hmatch.
  by rewrite (exec_here _ _ _ Hmatch).
Qed.

End RegexFacts.

(** ** The version middleware *)

Section ApiVersionFacts.

Import Js Regex Utils ApiVersion.

Lemma digits_not_empty (d : string) : digits d = true -> d <> "".
Proof. by destruct d. Qed.

Lemma version_starts_with_digit (version : string) :
  isVersion version ->
  exists c rest, version = String c rest /\ isDigit c = true.
Proof.
  intros (major & Hmajor & Hv).
  destruct major as [|c major]; [done|].
  apply digits_inv in Hmajor as [Hc _].
  destruct Hv as [->|(minor & _ & ->)]; eexists _, _; (split; [|exact Hc]).
  - reflexivity.
  - by rewrite text_app_cons.
Qed.

(** X19. With the default configuration, a request that names its
    version in the [Accept] header only, by the vendor media type at the
    start of the header, passes [apiVersionMiddleware] when the version is
    [1.0], with the headers [API-Version: 1.0] and
    [API-Supported-Versions: 1.0]; for any other version, [1] among them,
    the answer is 400 with a message that names the version. *)
Theorem accept_header_passes_only_default_version
    (c : Request) (version post : string) :
  orElse (header c "API-Version") None = None ->
  orElse (header c "Accept-Version") None = None ->
  orElse (query c "version") None = None ->
  header c "Accept"
    = Some ("application/vnd.techstudio.v" +:+ version +:+ "+json" +:+ post) ->
  isVersion version ->
  (version = "1.0" ->
   apiVersionMiddleware API_VERSION_CONFIG c
     = Continued "1.0" [("API-Version", "1.0"); ("API-Supported-Versions", "1.0")]) /\
  (version <> "1.0" ->
   exists body, apiVersionMiddleware API_VERSION_CONFIG c = Answered 400 body /\
     optGet (optGet body "error") "message"
       = JStr ("API version " +:+ version +:+ " is not supported")).
Proof.
  intros Hapi Hacc Hquery Haccept Hversion.
  assert (Hextract :
    extractVersionFromAcceptHeader
      (Some ("application/vnd.techstudio.v" +:+ version +:+ "+json" +:+ post))
    = Some version).
  { rewrite extract_at_start.
    by rewrite (exec_here _ _ _ (acceptVersion_matches version post Hversion)). }
  destruct (version_starts_with_digit version Hversion) as (d & rest & Hv & Hd).
  assert (Hpicked :
    orElse (header c "API-Version")
      (orElse (header c "Accept-Version")
         (orElse (query c "version")
            (extractVersionFromAcceptHeader (header c "Accept")))) = Some version).
  { rewrite Haccept, Hextract.
    destruct (header c "API-Version") as [[|? ?]|]; try done;
      destruct (header c "Accept-Version") as [[|? ?]|]; try done;
      destruct (query c "version") as [[|? ?]|]; try done.
    all: by rewrite Hv. }
  assert (Hnormal : Text.replaceAnchored "v" "" version = version).
  { rewrite Hv. unfold Text.replaceAnchored. cbn [Text.isPrefix].
    destruct (Ascii.eqb "v" d) eqn:Heq; [|done].
    apply Ascii.eqb_eq in Heq as <-. discriminate Hd. }
  assert (Hfinal :
    match orElse (header c "API-Version")
            (orElse (header c "Accept-Version")
               (orElse (query c "version")
                  (extractVersionFromAcceptHeader (header c "Accept")))) with
    | Some (String a v) => String a v
    | _ => default API_VERSION_CONFIG
    end = version).
  { rewrite Hpicked, Hv. reflexivity. }
  unfold apiVersionMiddleware. rewrite Hfinal, Hnormal.
  cbn [supported deprecated API_VERSION_CONFIG].
  split.
  - intros ->. reflexivity.
  - intros Hne. rewrite bool_decide_eq_false_2 by (by rewrite list_elem_of_singleton).
    cbn [negb]. eexists. split; [reflexivity|]. reflexivity.
Qed.

End ApiVersionFacts.

(* ===================================================================== *)
(** ** The service on the scripted environment *)
(* ===================================================================== *)

Module Demo.

Import Js Service Script.

(** C2: provisioning succeeded and writing [completed] failed, and the
    result is a failure carrying the write's error, not a success. *)
Lemma completed_write_failure_overrides_success :
  let create := createOrganizationDatabase "abc" "retail" in
  let w1 := (run create refusedWrite).1.2 in
  result create refusedWrite = inr JNull /\
  result (updateOrganizationMetadata "organization:abc"
            (completedPatch "organization:abc" "retail" "t0")) w1
    = inl (JsError "refused") /\
  result (setupOrganizationDatabase "t0" "organization:abc" "retail") refusedWrite
    = inr (mkSetupResult false "org_abc" "retail" (Some "refused") "t0").
Proof. vm_compute. done. Qed.

(** C3: after rejecting the type [bogus], the function goes to the
    network three times, to record the [failed] status. *)
Lemma invalid_type_still_reaches_network :
  "bogus" <> "retail" /\ "bogus" <> "restaurant" /\
  filter (fun o => isNetwork o = true)
         (trace (setupOrganizationDatabase "t0" "organization:abc" "bogus") registered)
  = [Did (GetConnection "needxlife" "core");
     Did (Query 0 "SELECT metadata FROM $orgId" [("orgId", PRecordId "organization:abc")]);
     Did (Query 0 "UPDATE $orgId SET metadata = $metadata"
                [("orgId", PRecordId "organization:abc");
                 ("metadata", PValue (JStr "{...}"))])].
Proof. split; [done|]. split; [done|]. vm_compute. reflexivity. Qed.

(** C6: for the identifier [organization:abc] the provisioner names the
    database [org_abc], [getOrganizationDatabase] names it
    [org_organization:abc]. *)
Lemma prefixed_id_names_two_databases :
  result (setupOrganizationDatabase "t0" "organization:abc" "retail") registered
    = inr (mkSetupResult true "org_abc" "retail" None "t0") /\
  trace (getOrganizationDatabase "organization:abc") registered
    = [Did (GetConnection "needexcel_organization" "org_organization:abc")] /\
  "org_abc" <> "org_organization:abc".
Proof. split; [|split]; [vm_compute; reflexivity..|done]. Qed.

(** C2 at work: nothing succeeds; the result carries the error of
    provisioning, and the error of the refused [failed] write is logged. *)
Lemma recording_failure_witness :
  validType "retail" = true /\
  result (setupOrganizationDatabase "t0" "organization:abc" "retail") unreachable
    = inr (failure "t0" "organization:abc" "retail" "refused") /\
  Said Error [Txt "Failed to update organization metadata:"; Err (JsError "refused")]
    ∈ trace (setupOrganizationDatabase "t0" "organization:abc" "retail") unreachable.
Proof.
  split; [reflexivity|].
  destruct (recording_failure_keeps_provisioning_error (EN := environment)
              "t0" "organization:abc" "retail" unreachable)
    as (_ & Hvalid).
  destruct (Hvalid eq_refl) as (Hfail & _).
  destruct (Hfail (JsError "refused")
              (run (EN := environment)
                   (createOrganizationDatabase "abc" "retail") unreachable).1.2
              (run (EN := environment)
                   (createOrganizationDatabase "abc" "retail") unreachable).2)
    as (Hres & _ & Hlog).
  { vm_compute. reflexivity. }
  split; [exact Hres|]. apply Hlog. vm_compute. reflexivity.
Defined.

(** C3 at work. *)
Lemma invalid_type_witness :
  "bogus" <> "retail" /\ "bogus" <> "restaurant" /\
  result (setupOrganizationDatabase "t0" "organization:abc" "bogus") registered
    = inr (failure "t0" "organization:abc" "bogus" (invalidTypeMessage "bogus")).
Proof.
  assert (H1 : "bogus" <> "retail") by done.
  assert (H2 : "bogus" <> "restaurant") by done.
  split; [exact H1|]. split; [exact H2|].
  exact (proj1 (invalid_type_never_reaches_provisioning (EN := environment)
                  "t0" "organization:abc" "bogus" registered H1 H2)).
Defined.



(** C6 at work: an identifier without the prefix names one database. *)
Lemma database_name_witness :
  Text.startsWith "abc" "organization:" = false /\
  "org_" +:+ cleanOrgId "abc" = "org_abc" /\
  trace (getOrganizationDatabase "abc") registered
    = [Did (GetConnection "needexcel_organization" "org_abc")].
Proof.
  split; [reflexivity|].
  destruct (database_name_of_cleaned_id (EN := environment) "t0" "abc" "retail" registered)
    as (_ & _ & Hget & Hplain & _).
  split; [exact (Hplain eq_refl)|exact Hget].
Defined.


(** C8 at work: no organization [zzz] is registered. *)
Lemma checkSetup_absent_witness :
  result (checkOrganizationSetup "zzz") registered
    = inr (mkCheckResult false (JStr "org_zzz") (JStr "pending")
                         (JStr "Organization not found") JUndefined).
Proof.
  exact (proj1 (proj2 (checkSetup_absent_is_pending (EN := environment) "zzz" registered)
                 0 registered [JArr []] registered eq_refl eq_refl
                 (or_intror eq_refl))).
Defined.

(** C10 at work: with the connection cached nothing is awaited, although
    the environment would refuse; without it, a refusal gives [false]
    and an answer gives [true]. *)
Lemma databaseExists_witness :
  run (checkOrganizationDatabaseExists "abc") cachedAbc = (inr true, cachedAbc, []) /\
  result (checkOrganizationDatabaseExists "abc") unreachable = inr false /\
  result (checkOrganizationDatabaseExists "abc") registered = inr true.
Proof.
  split; [|split].
  - exact (proj1 (proj2 (databaseExists_reports (EN := environment) "abc" cachedAbc)) eq_refl).
  - exact (proj2 (proj2 (proj2 (databaseExists_reports (EN := environment)
                                  "abc" unreachable)) eq_refl)).
  - exact (proj2 (proj2 (proj2 (proj2 (databaseExists_reports (EN := environment) "abc" registered))
                           eq_refl))).
Defined.

(** C1: the first attempt fails and is cleared, and the next call
    connects again: all events are calls of [getConnection("ns", "a")] and
    their completions, and there are two connects for the key. *)
Lemma retry_after_failure_connects_twice :
  let tr := [Manager.Call "ns" "a"; Manager.Settle 0 (Some (JsError "down"));
             Manager.Resume 0; Manager.Call "ns" "a"] in
  (fun st => Manager.connects st "ns:a") <$> Manager.run Manager.init tr = Some 2.
Proof. vm_compute. reflexivity. Qed.

(** C1 at work: one connect for three callers. *)
Lemma one_attempt_witness :
  Manager.run Manager.init Manager.threeCallers = Some Manager.afterThreeCallers /\
  Manager.connects Manager.afterThreeCallers "ns:a" = 1 /\
  Manager.returned Manager.afterThreeCallers
    = [("ns:a", Manager.Own 0); ("ns:a", Manager.Shared 0); ("ns:a", Manager.Hit 0)].
Proof.
  split; [reflexivity|]. split; [|reflexivity].
  destruct (one_attempt_per_key Manager.threeCallers Manager.afterThreeCallers "ns:a" eq_refl)
    as (_ & _ & _ & Hone & _).
  apply Hone; [|reflexivity].
  exists (Manager.Hit 0). vm_compute. set_solver.
Defined.

(** C9: for the organization [a$&b] the database is named [org_a$&b].
    The text with the name at the placeholder is [USE DB org_a$&b;], and it
    is the only one; the script that [createOrganizationDatabase] posts
    has the placeholder back inside the name, because [replace] expands
    [$&] to the matched text. *)
Theorem dollar_in_name_changes_script :
  let database := "org_a$&b" in
  let template := "USE DB __DATABASE_NAME__;" in
  schemaScript database template = "USE DB org_a__DATABASE_NAME__b;" /\
  Text.Substituted "__DATABASE_NAME__" database template "USE DB org_a$&b;" /\
  ~ Text.Substituted "__DATABASE_NAME__" database template
      (schemaScript database template) /\
  operations (trace (createOrganizationDatabase "a$&b" "retail") registered) !! 1
    = Some (Did (HttpPost "http://db.example/sql" "USE DB org_a__DATABASE_NAME__b;"
                          (schemaHeaders "org_a$&b"))).
Proof.
  intros database template.
  assert (Hexpected :
    Text.Substituted "__DATABASE_NAME__" database template "USE DB org_a$&b;").
  { apply (Text.Substituted_first "__DATABASE_NAME__" database "USE DB " ";" ";").
    - intros a' b' Heq.
      do 7 (destruct a' as [|? a']; [discriminate Heq|]). cbn. lia.
    - apply Text.Substituted_none. intros (a & b & Heq).
      destruct a as [|? a]; [discriminate Heq|].
      destruct a; discriminate Heq. }
  split; [reflexivity|]. split; [exact Hexpected|]. split.
  - intros Hcode.
    by pose proof (Substituted_unique _ _ _ _ _ Hcode Hexpected).
  - vm_compute. reflexivity.
Qed.

(** Without a dollar sign in the name, the posted script is the schema
    with the name at both placeholders. *)
Lemma schemaScript_verbatim_witness :
  Text.dollarFree "org_abc" = true /\
  Text.Substituted "__DATABASE_NAME__" "org_abc"
    "DEFINE DATABASE __DATABASE_NAME__; USE DB __DATABASE_NAME__;"
    "DEFINE DATABASE org_abc; USE DB org_abc;".
Proof.
  split; [reflexivity|].
  exact (schemaScript_verbatim "org_abc"
           "DEFINE DATABASE __DATABASE_NAME__; USE DB __DATABASE_NAME__;" eq_refl).
Defined.

End Demo.

(* ===================================================================== *)
(** ** Further instances *)
(* ===================================================================== *)

Module Further.

Import Js Service Script.

Lemma organizationType_witness :
  result (getOrganizationType "abc") typedInSetup = inr (JStr "retail") /\
  result (getOrganizationType "abc") textMetadata = inr JNull.
Proof.
  split.
  - exact (f_equal (fun x => x.1.1)
             (proj1 (getOrganizationType_precedence (EN := environment) "abc"
                typedInSetup typedInSetup typedInSetup 0
                [JArr [JObj {[ "id" := JStr "organization:abc";
                               "metadata" :=
                                 JObj {[ "setup" :=
                                   JObj {[ "organizationType" := JStr "retail" ]} ]} ]}]]
                [] _ eq_refl eq_refl eq_refl))).
  - exact (proj2 (getOrganizationType_precedence (EN := environment) "abc"
                textMetadata textMetadata textMetadata 0
                [JArr [JObj {[ "id" := JStr "organization:abc";
                               "metadata" := JStr "{...}" ]}]]
                [] _ eq_refl eq_refl eq_refl) "{...}" eq_refl).
Defined.

(** The setup of [abc] fails, for its type is refused, and the failure is
    recorded; the check that follows reports the setup as completed. *)
Lemma read_back_witness :
  let setup := setupOrganizationDatabase "t0" "organization:abc" "bogus" in
  let after := (run setup registered).1.2 in
  result setup registered
    = inr (failure "t0" "organization:abc" "bogus" (invalidTypeMessage "bogus")) /\
  store after !! "organization:abc" = Some (JStr "{...}") /\
  result (checkOrganizationSetup "organization:abc") after =
    inr (mkCheckResult true (JStr "org_abc") (JStr "completed") JUndefined JUndefined).
Proof.
  intros setup after. split; [vm_compute; reflexivity|]. split; [vm_compute; reflexivity|].
  apply (recorded_status_reads_back_completed (EN := environment)
           "organization:abc" (failedPatch (invalidTypeMessage "bogus") "t0")
           registered 0 (JStr "{...}")
           after after after after 0
           [JArr [JObj {[ "id" := JStr "organization:abc";
                          "metadata" := JStr "{...}" ]}]]
           [] {[ "id" := JStr "organization:abc"; "metadata" := JStr "{...}" ]}
           (run (EN := environment) (checkOrganizationDatabaseExists "abc") after).2).
  - vm_compute. repeat constructor.
  - reflexivity.
  - vm_compute. reflexivity.
  - reflexivity.
  - reflexivity.
  - vm_compute. reflexivity.
Defined.

(** A second outcome is recorded over a first one, kept as text. *)
Lemma text_metadata_merge_witness :
  let patch : gmap string JVal := {[ "setupStatus" := JStr "completed" ]} in
  exists m' : gmap string JVal,
    operations (trace (updateOrganizationMetadata "abc" patch) textMetadata) !! 2
      = Some (Did (writeMetadata 0 "abc" (JSON_stringify (JObj m')))) /\
    m' !! "setup" = Some (JObj patch) /\
    m' !! "0" = Some (JStr "{").
Proof.
  intros patch.
  destruct (text_metadata_merge_drops_setup (EN := environment) "abc" patch
              textMetadata textMetadata textMetadata 0
              [JArr [JObj {[ "id" := JStr "organization:abc";
                             "metadata" := JStr "{...}" ]}]]
              [] {[ "id" := JStr "organization:abc"; "metadata" := JStr "{...}" ]}
              "{...}" eq_refl eq_refl eq_refl eq_refl ltac:(done))
    as (m' & Hwrite & Hsetup & Hchars).
  exists m'. split; [exact Hwrite|]. split; [exact Hsetup|]. exact (Hchars 0).
Defined.

(** One connection for the three callers, made for their namespace and
    database. *)
Lemma connection_serves_witness :
  Manager.run Manager.init Manager.threeCallers = Some Manager.afterThreeCallers /\
  (Manager.keyOf "ns" "a", Manager.Hit 0) ∈ Manager.returned Manager.afterThreeCallers /\
  exists a, Manager.attempts Manager.afterThreeCallers !! 0 = Some a /\
            Manager.namespace a = "ns" /\ Manager.database a = "a".
Proof.
  assert (Hin : (Manager.keyOf "ns" "a", Manager.Hit 0)
                  ∈ Manager.returned Manager.afterThreeCallers).
  { vm_compute. repeat constructor. }
  split; [reflexivity|]. split; [exact Hin|].
  refine (proj1 (connection_serves_requested_database Manager.threeCallers
                   Manager.afterThreeCallers "ns" "a" eq_refl _ eq_refl)
                (Manager.Hit 0) Hin).
  repeat constructor.
Defined.

(** After the three callers: one connection, nothing in flight. *)
Lemma getStats_witness :
  Manager.reachable Manager.afterThreeCallers /\
  Manager.totalConnections (Manager.getStats Manager.afterThreeCallers) = 1 /\
  Manager.connectingNow (Manager.getStats Manager.afterThreeCallers) = 0.
Proof.
  assert (Hreach : Manager.reachable Manager.afterThreeCallers).
  { exists Manager.threeCallers. reflexivity. }
  split; [exact Hreach|].
  destruct (getStats_counts_attempts Manager.afterThreeCallers Hreach)
    as (Htotal & Hconnecting & _).
  split; [exact Htotal|exact Hconnecting].
Defined.

(** The address for the [DATABASE_URL] of the examples. *)
Lemma httpUrl_witness :
  DATABASE_URL env = "ws:" +:+ "//db.example/rpc" /\
  httpUrl = "http://db.example/sql".
Proof.
  split; [reflexivity|].
  refine (proj1 (httpUrl_of_websocket_url false "//db.example/rpc" eq_refl)
                "//db.example" eq_refl _).
  intros a' b' Heq.
  do 17 (destruct a' as [|? a']; [discriminate Heq|]). cbv [String.append String.length]. fold String.length. lia.
Defined.

(** No organization [zzz] is registered. *)
Lemma update_without_record_witness :
  let patch : gmap string JVal := {[ "setupStatus" := JStr "failed" ]} in
  let update := updateOrganizationMetadata "zzz" patch in
  store registered !! "organization:zzz" = None /\
  operations (trace update registered) !! 2
    = Some (Did (writeMetadata 0 "zzz"
                   (JSON_stringify (JObj {[ "setup" := JObj patch ]})))) /\
  result update registered = inr tt.
Proof.
  intros patch update. split; [reflexivity|].
  destruct (update_without_record_writes_patch_alone (EN := environment) "zzz" patch
              registered registered registered 0 [JArr []] eq_refl eq_refl
              (or_intror eq_refl)) as [Hops Hres].
  split.
  - fold update in Hops. by rewrite Hops.
  - exact (Hres [JArr []] registered eq_refl).
Defined.

End Further.

Module FurtherMiddleware.

Import Js Service Script Middleware.



End FurtherMiddleware.

Module LifecycleDemo.

Import Js Lifecycle.

(** The connection made before the shutdown was closed; the one made
    after it is the one the cache gives. *)
Lemma cache_after_shutdown_witness :
  let st := default init (run init connectedThenShutDown) in
  0 ∈ closed st /\
  exists st', step st (Use (Manager.Call "ns" "a")) = Some st' /\
    last (Manager.returned (manager st')) = Some ("ns:a", Manager.Hit 1) /\
    1 ∉ closed st'.
Proof.
  intros st. split.
  - vm_compute. done.
  - exact (cache_holds_no_closed_connection connectedThenShutDown st "ns" "a" 1
             eq_refl eq_refl eq_refl).
Defined.

(** The attempt succeeded while [shutdown] was awaiting. *)
Lemma in_flight_witness :
  let st := default init (run init shutDownWhileConnecting) in
  exists st', run st [ShutdownResume; Use (Manager.Resume 0)] = Some st' /\
    closing st' = 0 /\
    Manager.connections (manager st') !! "ns:a" = Some 0 /\
    0 ∉ closed st'.
Proof.
  intros st.
  exact (shutdown_leaves_attempts_in_flight shutDownWhileConnecting st 0
           (Manager.mkAttempt "ns" "a" "ns:a" Manager.Fulfilled false)
           eq_refl ltac:(vm_compute; lia) eq_refl eq_refl eq_refl).
Defined.

End LifecycleDemo.

Module BackedDemo.
Import Js Service Script.

(** Every connection is made and every query refused: the first check
    answers [false], the second [true]. *)
Lemma existence_check_witness :
  let w : Backed.World unit := Backed.mkWorld Manager.init tt in
  let check := checkOrganizationDatabaseExists "abc" in
  result (EN := Backed.refusing) check w = inr false /\
  result (EN := Backed.refusing) check (run (EN := Backed.refusing) check w).1.2 = inr true.
Proof.
  intros w check.
  destruct (existence_check_turns_true unit (fun n _ _ => (None, n))
              (fun n _ => (inl (JsError "refused"), n)) "abc" w
              (Backed.getConnection unit (fun n _ _ => (None, n))
                 "needexcel_organization" "org_abc" w).2 0
              eq_refl eq_refl) as [Hfirst Hsecond].
  split; [exact Hfirst|].
  exact (f_equal (fun x => x.1.1) Hsecond).
Defined.

(** The connection of [org_abc] is obtained, and the check answers
    [true]. *)
Lemma organization_connection_witness :
  let w : Backed.World unit := Backed.mkWorld Manager.init tt in
  let w' := (run (EN := Backed.refusing) (getOrganizationDatabase "abc") w).1.2 in
  ORG_NS env = "needexcel_organization" /\
  result (EN := Backed.refusing) (getOrganizationDatabase "abc") w = inr 0 /\
  run (EN := Backed.refusing) (checkOrganizationDatabaseExists "abc") w' = (inr true, w', []).
Proof.
  intros w w'. split; [reflexivity|]. split; [reflexivity|].
  exact (organization_connection_answers_check unit (fun n _ _ => (None, n))
           (fun n _ => (inl (JsError "refused"), n)) "abc" w w' 0
           [Did (GetConnection "needexcel_organization" "org_abc")] eq_refl eq_refl).
Defined.

(** The main connection is made, then that of [org_abc]; the next
    request gets the first one, and no third attempt is made. *)
Lemma main_connection_witness :
  let w : Backed.World unit := Backed.mkWorld Manager.init tt in
  let connectMain := GetConnection "needxlife" "core" in
  let w1 := (@Service.handle Backed.refusing w connectMain).2 in
  let w2 := (run (EN := Backed.refusing) (checkOrganizationDatabaseExists "abc") w1).1.2 in
  length (Manager.attempts (Backed.manager w2)) = 2 /\
  exists w3 : Backed.World unit,
    @Service.handle Backed.refusing w2 connectMain = (inr 0, w3) /\
    Manager.attempts (Backed.manager w3) = Manager.attempts (Backed.manager w2).
Proof.
  intros w connectMain w1 w2. split; [reflexivity|].
  assert (Hfirst :
    @Service.handle
      (Backed.environment unit (fun n _ _ => (None, n))
         (fun n _ => (inl (JsError "refused"), n)))
      w (GetConnection (MAIN_NS env) (MAIN_DB env)) = (inr 0, w1))
    by reflexivity.
  destruct (main_connection_is_reused unit (fun n _ _ => (None, n))
              (fun n _ => (inl (JsError "refused"), n)) w w1 0
              (checkOrganizationDatabaseExists "abc") (fun _ => handler) Hfirst)
    as (w3 & Hhit & Hattempts & _).
  exists w3. split; [exact Hhit|exact Hattempts].
Defined.

End BackedDemo.

Module VersionDemo.

Import Js Regex Utils ApiVersion.

(** The version is found after another media type. *)
Lemma extracted_version_witness :
  extractVersionFromAcceptHeader
    (Some "text/html, application/vnd.techstudio.v2.1+json;q=0.9") = Some "2.1" /\
  isVersion "2.1".
Proof.
  split; [reflexivity|].
  exact (proj1 (extracted_version_is_in_header
                  "text/html, application/vnd.techstudio.v2.1+json;q=0.9" "2.1" eq_refl)).
Defined.

(** The media type of version 1, as the comment in the code has it. *)
Lemma version_round_trip_witness :
  isVersion "1" /\
  extractVersionFromAcceptHeader (Some "application/vnd.techstudio.v1+json, */*")
    = Some "1".
Proof.
  assert (H : isVersion "1").
  { exists "1". split; [reflexivity|]. by left. }
  split; [exact H|]. exact (version_round_trip "1" ", */*" H).
Defined.

(** Version 1 by the [Accept] header is refused. *)
Lemma accept_header_witness :
  isVersion "1" /\
  exists body,
    apiVersionMiddleware API_VERSION_CONFIG
      (vendorRequest "application/vnd.techstudio.v1+json") = Answered 400 body /\
    optGet (optGet body "error") "message" = JStr "API version 1 is not supported".
Proof.
  assert (H : isVersion "1").
  { exists "1". split; [reflexivity|]. by left. }
  split; [exact H|].
  exact (proj2 (accept_header_passes_only_default_version
                  (vendorRequest "application/vnd.techstudio.v1+json") "1" ""
                  eq_refl eq_refl eq_refl eq_refl H) ltac:(done)).
Defined.

End VersionDemo.
